(** * habitica command line: the identifier parser, the reordering engine,
      the scoring function and the quest cache of [core.py]

    A shallow embedding of the functions of [core.py] that carry the
    algorithmic content of the tool, and the properties proved of them.

    The module is Python 3 source (class [Challenge] defines a method called
    [print], and [move] calls [print] with several arguments), so the
    library calls are read with their Python 3 meaning.  Python integers are
    [Z]; command-line strings are sequences of ASCII characters; JSON
    payloads of the remote service are a small tree type whose numbers are
    integers.  Exceptions are the [Raise] results of [result]; commands that
    talk to the service or to the cache file run in the monad [M], which
    threads the cache file and the trace of observable events.  The task
    listing, the checklist counts and the [dailies] and [todos add] commands
    work on the JSON tasks themselves and collect what they print. *)

From Stdlib Require Import ZArith List Bool Ascii String Lia QArith Lqa.
From Stdlib Require Import Numbers.DecimalString Numbers.DecimalN Numbers.DecimalPos.
From Stdlib Require Import Sorting.Sorted Sorting.Permutation.
Import ListNotations.

Local Open Scope string_scope.
Local Open Scope list_scope.
Local Open Scope Z_scope.

(** ** Exceptions and results *)

Inductive py_error : Type :=
| ValueError
| IndexError
| KeyError
| TypeError
| UnboundLocalError
| NoSectionError
| NoOptionError
| InterpolationError
| DuplicateSectionError
| AttributeError
| ProbeLimit.

Inductive result (A : Type) : Type :=
| Ok (a : A)
| Raise (e : py_error).

Arguments Ok {A} a.
Arguments Raise {A} e.

Definition rbind {A B : Type} (r : result A) (k : A -> result B) : result B :=
  match r with
  | Ok a => k a
  | Raise e => Raise e
  end.

Declare Scope res_scope.
Delimit Scope res_scope with res.
Notation "x <- r ;; k" := (rbind r (fun x => k))
  (at level 61, r at next level, right associativity) : res_scope.

Fixpoint rmap {A B : Type} (f : A -> result B) (l : list A) : result (list B) :=
  match l with
  | [] => Ok []
  | a :: l' =>
      (b <- f a ;; bs <- rmap f l' ;; Ok (b :: bs))%res
  end.

Fixpoint rfold {A B : Type} (f : B -> A -> result B) (l : list A) (b : B)
  : result B :=
  match l with
  | [] => Ok b
  | a :: l' => (b' <- f b a ;; rfold f l' b')%res
  end.

(** ** Python strings *)

Module PyStr.

Definition code (c : ascii) : Z := Z.of_N (N_of_ascii c).

Definition is_digit (c : ascii) : bool := (48 <=? code c) && (code c <=? 57).

(** The characters [int] skips around a literal: space and the control
    characters 9 to 13. *)
Definition is_space (c : ascii) : bool :=
  (code c =? 32) || ((9 <=? code c) && (code c <=? 13)).

Fixpoint all (p : ascii -> bool) (s : string) : bool :=
  match s with
  | EmptyString => true
  | String c s' => p c && all p s'
  end.

(** [sep in s] for a one-character [sep]. *)
Fixpoint contains (sep : ascii) (s : string) : bool :=
  match s with
  | EmptyString => false
  | String c s' => Ascii.eqb c sep || contains sep s'
  end.

(** [s.split(sep)] for a one-character [sep]: never empty, one more piece
    than there are separators. *)
Fixpoint split (sep : ascii) (s : string) : list string :=
  match s with
  | EmptyString => [EmptyString]
  | String c s' =>
      if Ascii.eqb c sep then EmptyString :: split sep s'
      else match split sep s' with
           | [] => [String c EmptyString]
           | p :: ps => String c p :: ps
           end
  end.

Fixpoint lstrip (s : string) : string :=
  match s with
  | EmptyString => EmptyString
  | String c s' => if is_space c then lstrip s' else s
  end.

Fixpoint rstrip (s : string) : string :=
  match s with
  | EmptyString => EmptyString
  | String c s' =>
      match rstrip s' with
      | EmptyString => if is_space c then EmptyString else String c EmptyString
      | r => String c r
      end
  end.

(** The digits of a literal: at least one digit, single underscores only
    between two digits.  Returns the digits without the underscores. *)
Fixpoint digits (after_digit : bool) (s : string) : option string :=
  match s with
  | EmptyString => if after_digit then Some EmptyString else None
  | String c s' =>
      if is_digit c then option_map (String c) (digits true s')
      else if Ascii.eqb c "_" && after_digit then digits false s'
      else None
  end.

Definition unsigned_literal (s : string) : option Z :=
  match digits false s with
  | Some ds =>
      match NilEmpty.uint_of_string ds with
      | Some u => Some (Z.of_N (N.of_uint u))
      | None => None
      end
  | None => None
  end.

(** [int(s)] in base ten: surrounding white space, an optional sign, then
    the digits.  Anything else is a [ValueError]. *)
Definition int (s : string) : result Z :=
  let t := rstrip (lstrip s) in
  let r := match t with
           | String c t' =>
               if Ascii.eqb c "+" then unsigned_literal t'
               else if Ascii.eqb c "-" then option_map Z.opp (unsigned_literal t')
               else unsigned_literal t
           | EmptyString => unsigned_literal t
           end in
  match r with
  | Some z => Ok z
  | None => Raise ValueError
  end.

(** [str(n)] of an integer. *)
Definition of_Z (z : Z) : string :=
  match z with
  | Z0 => "0"
  | Zpos p => NilEmpty.string_of_uint (N.to_uint (Npos p))
  | Zneg p => String "-" (NilEmpty.string_of_uint (N.to_uint (Npos p)))
  end.

Fixpoint join (sep : string) (l : list string) : string :=
  match l with
  | [] => EmptyString
  | [s] => s
  | s :: l' => (s ++ sep ++ join sep l')%string
  end.

End PyStr.

(** ** Python lists *)

Module PyList.

(** [range(a, b)]. *)
Definition range (a b : Z) : list Z :=
  map (fun i => a + Z.of_nat i) (seq 0 (Z.to_nat (b - a))).

(** The position a subscript [i] denotes in a list of length [n]:
    negative subscripts count from the end. *)
Definition position (n : nat) (i : Z) : option nat :=
  if (0 <=? i) && (i <? Z.of_nat n) then Some (Z.to_nat i)
  else if (i <? 0) && (- Z.of_nat n <=? i) then Some (Z.to_nat (Z.of_nat n + i))
  else None.

(** [l[i]]. *)
Definition getitem {A : Type} (l : list A) (i : Z) : result A :=
  match position (List.length l) i with
  | Some k =>
      match nth_error l k with
      | Some a => Ok a
      | None => Raise IndexError
      end
  | None => Raise IndexError
  end.

(** [del l[i]]. *)
Definition delitem {A : Type} (l : list A) (i : Z) : result (list A) :=
  match position (List.length l) i with
  | Some k => Ok (firstn k l ++ skipn (S k) l)
  | None => Raise IndexError
  end.

Fixpoint insert_desc (x : Z) (l : list Z) : list Z :=
  match l with
  | [] => [x]
  | y :: l' => if y <=? x then x :: l else y :: insert_desc x l'
  end.

(** [sorted(l, reverse=True)] on integers. *)
Definition sorted_reverse (l : list Z) : list Z :=
  fold_right insert_desc [] l.

End PyList.

(** ** Python sets of integers

    [set(l)] and the order in which the set is iterated, as CPython 3 builds
    it: an open-addressing table of at least eight slots, the slot of a key
    chosen from its hash, nine further slots tried in a row when the table
    has room for them, then a jump by the perturbed recurrence; the table
    grows when three fifths of it are used.  Iteration walks the slots. *)

Module PySet.

Definition LINEAR_PROBES : Z := 9.
Definition PERTURB_SHIFT : Z := 5.
Definition PySet_MINSIZE : Z := 8.

(** [hash(n)]: the value modulo [2^61 - 1] with the sign of [n], and
    [-2] where that would be [-1]. *)
Definition hash (n : Z) : Z :=
  let h := Z.sgn n * (Z.abs n mod (2 ^ 61 - 1)) in
  if h =? -1 then -2 else h.

Record table : Type := mkTable {
  slots : list (option Z);
  mask : Z;
  fill : Z
}.

Definition empty : table :=
  mkTable (repeat None 8) (PySet_MINSIZE - 1) 0.

Inductive lookup : Type :=
| Unused (i : Z)
| Active
| Busy.

(** The slots [i], [i+1], ..., [i+probes]. *)
Fixpoint linear (sl : list (option Z)) (key i : Z) (probes : nat) : lookup :=
  match nth_error sl (Z.to_nat i) with
  | Some None => Unused i
  | Some (Some k) =>
      if k =? key then Active
      else match probes with
           | O => Busy
           | S p => linear sl key (i + 1) p
           end
  | None => Busy
  end.

Fixpoint probe (fuel : nat) (sl : list (option Z)) (msk key i perturb : Z)
  : option lookup :=
  match fuel with
  | O => None
  | S f =>
      let probes := if i + LINEAR_PROBES <=? msk then 9%nat else 0%nat in
      match linear sl key i probes with
      | Busy =>
          let perturb' := Z.shiftr perturb PERTURB_SHIFT in
          probe f sl msk key (Z.land (i * 5 + 1 + perturb') msk) perturb'
      | r => Some r
      end
  end.

(** The jumps end once [perturb] is used up and the recurrence has gone
    round the table. *)
Definition probe_fuel (msk : Z) : nat := (14 + Z.to_nat msk + 1)%nat.

Definition find (sl : list (option Z)) (msk key : Z) : option lookup :=
  let h := hash key in
  probe (probe_fuel msk) sl msk key (Z.land h msk) (h mod 2 ^ 64).

Fixpoint store (sl : list (option Z)) (i : nat) (key : Z) : list (option Z) :=
  match sl, i with
  | [], _ => []
  | _ :: sl', O => Some key :: sl'
  | s :: sl', S i' => s :: store sl' i' key
  end.

(** [set_insert_clean]. *)
Definition insert_clean (t : option table) (entry : option Z) : option table :=
  match t, entry with
  | Some t, Some key =>
      match find (slots t) (mask t) key with
      | Some (Unused i) =>
          Some (mkTable (store (slots t) (Z.to_nat i) key) (mask t) (fill t + 1))
      | _ => None
      end
  | _, _ => t
  end.

(** [set_table_resize]: the smallest power of two above [minused], at
    least eight; the entries are put back in slot order. *)
Definition resize (t : table) (minused : Z) : option table :=
  let newsize := Z.max PySet_MINSIZE (2 ^ (Z.log2 minused + 1)) in
  fold_left insert_clean (slots t)
    (Some (mkTable (repeat None (Z.to_nat newsize)) (newsize - 1) 0)).

(** [set_add_entry]. *)
Definition add (t : table) (key : Z) : option table :=
  match find (slots t) (mask t) key with
  | Some (Unused i) =>
      let t' := mkTable (store (slots t) (Z.to_nat i) key) (mask t) (fill t + 1) in
      if fill t' * 5 <? mask t' * 3 then Some t'
      else resize t' (if 50000 <? fill t' then fill t' * 2 else fill t' * 4)
  | Some Active => Some t
  | _ => None
  end.

Definition of_list (l : list Z) : option table :=
  fold_left (fun t key => match t with Some t => add t key | None => None end)
    l (Some empty).

Fixpoint keys (sl : list (option Z)) : list Z :=
  match sl with
  | [] => []
  | Some k :: sl' => k :: keys sl'
  | None :: sl' => keys sl'
  end.

(** [[e for e in set(l)]]; [None] when a probe sequence runs past
    [probe_fuel]. *)
Definition iter (l : list Z) : option (list Z) :=
  option_map (fun t => keys (slots t)) (of_list l).

End PySet.

(** ** The identifier expression parser *)

(** One comma-separated piece of [get_task_ids]' inner loop, extending the
    ids gathered so far. *)
Definition gather_bit (task_ids : list Z) (bit : string) : result (list Z) :=
  if PyStr.contains "-" bit then
    (es <- rmap PyStr.int (PyStr.split "-" bit) ;;
     match es with
     | [start; stop] => Ok (task_ids ++ PyList.range start (stop + 1))
     | _ => Raise ValueError
     end)%res
  else
    (v <- PyStr.int bit ;; Ok (task_ids ++ [v]))%res.

Definition gather_arg (task_ids : list Z) (raw_arg : string) : result (list Z) :=
  rfold gather_bit (PyStr.split "," raw_arg) task_ids.

Definition gather (tids : list string) : result (list Z) :=
  rfold gather_arg tids [].

(** [ProbeLimit] is no Python exception: it marks a probe sequence of the set
    model that was not settled within [PySet.probe_fuel]. *)
Definition get_task_ids (tids : list string) (unique_and_sort : bool)
  : result (list Z) :=
  (task_ids <- gather tids ;;
   if unique_and_sort then
     match PySet.iter task_ids with
     | Some s => Ok (map (fun e => e - 1) s)
     | None => Raise ProbeLimit
     end
   else Ok (map (fun e => e - 1) task_ids))%res.

Definition updated_task_list {A : Type} (tasks : list A) (tids : list Z)
  : result (list A) :=
  rfold PyList.delitem (PyList.sorted_reverse tids) tasks.

(** ** The scoring function *)

Definition Qlt_bool (x y : Q) : bool := negb (Qle_bool y x).

(** The loop of [bisect.bisect_right(a, x)] on the window [lo, hi). *)
Fixpoint bisect_loop (fuel : nat) (a : list Q) (x : Q) (lo hi : nat) : nat :=
  match fuel with
  | O => lo
  | S f =>
      if (lo <? hi)%nat then
        let mid := ((lo + hi) / 2)%nat in
        match nth_error a mid with
        | Some am =>
            if Qlt_bool x am then bisect_loop f a x lo mid
            else bisect_loop f a x (S mid) hi
        | None => lo
        end
      else lo
  end.

Definition bisect (a : list Q) (x : Q) : nat :=
  bisect_loop (List.length a) a x 0 (List.length a).

Definition scores : list string :=
  ["*"; "**"; "***"; "****"; "*****"; "******"; "*******"].

Definition breakpoints : list Q :=
  map inject_Z [-20; -10; -1; 1; 5; 10].

Definition qualitative_task_score_from_value (value : Q) : result string :=
  PyList.getitem scores (Z.of_nat (bisect breakpoints value)).

(** ** Tasks, the remote service and the trace of a command *)

Record Task : Type := mkTask {
  t_id : string;
  t_text : string;
  t_notes : string;
  t_completed : bool
}.

(** The calls made on the [hbt] service object. *)
Inductive request : Type :=
| MoveTask (id moveto : string)
| ScoreTask (id direction : string)
| DeleteTask (id : string)
| GetUser
| GetParty
| GetGroup (party_id : string)
| GetContent.

(** What a command prints; the layout of the characters is left to the
    rendering code. *)
Inductive output : Type :=
| Moving (text dest : string)
| MarkedTodoComplete (text : string)
| DeletedTodo (text : string)
| TaskList (tasks : list Task)
| StatusReport (party quest : string).

Inductive event : Type :=
| Request (r : request)
| Print (o : output)
| Sleep (t : Q).

Definition HABITICA_REQUEST_WAIT_TIME : Q := 5 # 10.

(** ** The [ConfigParser] behind the quest cache

    A parser holds its defaults and its sections as insertion-ordered
    dictionaries of strings.  The cache file is kept in the form [read]
    parses it to (option names in lower case); a file that does not parse is
    outside this model. *)

Module Cfg.

Definition dict : Type := list (string * string).

Fixpoint lookup {V : Type} (d : list (string * V)) (k : string) : option V :=
  match d with
  | [] => None
  | (k', v) :: d' => if String.eqb k' k then Some v else lookup d' k
  end.

(** [d[k] = v]: in place when [k] is there, at the end otherwise. *)
Fixpoint update {V : Type} (d : list (string * V)) (k : string) (v : V)
  : list (string * V) :=
  match d with
  | [] => [(k, v)]
  | (k', v') :: d' =>
      if String.eqb k' k then (k', v) :: d' else (k', v') :: update d' k v
  end.

Definition update_all (d e : dict) : dict :=
  fold_left (fun acc kv => update acc (fst kv) (snd kv)) e d.

Record parser : Type := mkParser {
  defaults : dict;
  sections : list (string * dict)
}.

(** The parsed contents of a configuration file. *)
Record file : Type := mkFile {
  file_defaults : dict;
  file_sections : list (string * dict)
}.

Definition empty_file : file := mkFile [] [].

Definition lower_char (c : ascii) : ascii :=
  if (65 <=? PyStr.code c) && (PyStr.code c <=? 90)
  then ascii_of_N (N_of_ascii c + 32) else c.

Fixpoint optionxform (s : string) : string :=
  match s with
  | EmptyString => EmptyString
  | String c s' => String (lower_char c) (optionxform s')
  end.

(** [ConfigParser(defaults)]. *)
Definition create (dflt : dict) : parser :=
  mkParser (fold_left (fun acc kv => update acc (optionxform (fst kv)) (snd kv))
                      dflt []) [].

Definition merge_section (secs : list (string * dict)) (s : string * dict)
  : list (string * dict) :=
  match lookup secs (fst s) with
  | Some d => update secs (fst s) (update_all d (snd s))
  | None => secs ++ [s]
  end.

(** [p.read(name)]: a missing file is skipped. *)
Definition read (p : parser) (f : option file) : parser :=
  match f with
  | None => p
  | Some f =>
      mkParser (update_all (defaults p) (file_defaults f))
               (fold_left merge_section (file_sections f) (sections p))
  end.

Definition has_section (p : parser) (s : string) : bool :=
  match lookup (sections p) s with Some _ => true | None => false end.

Definition add_section (p : parser) (s : string) : result parser :=
  if String.eqb s "DEFAULT" then Raise ValueError
  else if has_section p s then Raise DuplicateSectionError
  else Ok (mkParser (defaults p) (sections p ++ [(s, [])])).

(** The chain of a section over the defaults that [get] looks options up
    in. *)
Definition unify (p : parser) (s : string) : result (string -> option string) :=
  match lookup (sections p) s with
  | Some d =>
      Ok (fun k => match lookup d k with
                   | Some v => Some v
                   | None => lookup (defaults p) k
                   end)
  | None =>
      if String.eqb s "DEFAULT" then Ok (lookup (defaults p))
      else Raise NoSectionError
  end.

(** A match of [%\(([^)]+)\)s] at the head of ["%(" ++ s]: the name and the
    rest after [")s"]. *)
Fixpoint key_name (s : string) : option (string * string) :=
  match s with
  | EmptyString => None
  | String ")" (String "s" r) => Some (EmptyString, r)
  | String ")" _ => None
  | String c s' =>
      match key_name s' with
      | Some (n, r) => Some (String c n, r)
      | None => None
      end
  end.

Definition key_match (s : string) : option (string * string) :=
  match key_name s with
  | Some (EmptyString, _) => None
  | r => r
  end.

Definition prefix (s : string) (r : result string) : result string :=
  match r with
  | Ok t => Ok (s ++ t)%string
  | Raise e => Raise e
  end.

(** [BasicInterpolation._interpolate_some]; [depth] counts the levels that
    are left of the ten allowed. *)
Fixpoint interpolate (depth : nat) (env : string -> option string)
         (fuel : nat) (rest : string) {struct depth} : result string :=
  match depth with
  | O => Raise InterpolationError
  | S depth' =>
      (fix scan (fuel : nat) (rest : string) {struct fuel} : result string :=
         match fuel with
         | O => Ok EmptyString
         | S fuel' =>
             match rest with
             | EmptyString => Ok EmptyString
             | String "%" (String "%" r) => prefix "%" (scan fuel' r)
             | String "%" (String "(" r) =>
                 match key_match r with
                 | Some (name, r') =>
                     match env (optionxform name) with
                     | Some v =>
                         (a <- (if PyStr.contains "%" v
                                then interpolate depth' env
                                       (S (String.length v)) v
                                else Ok v) ;;
                          prefix a (scan fuel' r'))%res
                     | None => Raise InterpolationError
                     end
                 | None => Raise InterpolationError
                 end
             | String "%" _ => Raise InterpolationError
             | String c r => prefix (String c EmptyString) (scan fuel' r)
             end
         end) fuel rest
  end.

Definition MAX_INTERPOLATION_DEPTH : nat := 10.

(** [p.get(section, option)]. *)
Definition get (p : parser) (section option : string) : result string :=
  (env <- unify p section ;;
   match env (optionxform option) with
   | Some value =>
       interpolate MAX_INTERPOLATION_DEPTH env (S (String.length value)) value
   | None => Raise NoOptionError
   end)%res.

(** [value.replace('%%', '')]. *)
Fixpoint drop_escaped (s : string) : string :=
  match s with
  | String "%" (String "%" r) => drop_escaped r
  | String c r => String c (drop_escaped r)
  | EmptyString => EmptyString
  end.

(** [_KEYCRE.sub('', s)]. *)
Fixpoint drop_keys (fuel : nat) (s : string) : string :=
  match fuel with
  | O => s
  | S fuel' =>
      match s with
      | EmptyString => EmptyString
      | String "%" (String "(" r) =>
          match key_match r with
          | Some (_, r') => drop_keys fuel' r'
          | None => String "%" (drop_keys fuel' (String "(" r))
          end
      | String c r => String c (drop_keys fuel' r)
      end
  end.

(** [BasicInterpolation.before_set]: a percent sign that neither is
    doubled nor opens [%(name)s] is refused. *)
Definition valid_syntax (value : string) : bool :=
  let t := drop_escaped value in
  negb (PyStr.contains "%" (drop_keys (S (String.length t)) t)).

(** [p.set(section, option, value)] for a string [value]. *)
Definition set (p : parser) (section option value : string) : result parser :=
  if negb (valid_syntax value) then Raise ValueError
  else if String.eqb section EmptyString || String.eqb section "DEFAULT" then
    Ok (mkParser (update (defaults p) (optionxform option) value) (sections p))
  else
    match lookup (sections p) section with
    | Some d =>
        Ok (mkParser (defaults p)
              (update (sections p) section (update d (optionxform option) value)))
    | None => Raise NoSectionError
    end.

Fixpoint tab_newlines (s : string) : string :=
  match s with
  | EmptyString => EmptyString
  | String c r =>
      if Ascii.eqb c "010"
      then String c (String "009" (tab_newlines r))
      else String c (tab_newlines r)
  end.

Definition nl : string := String "010" EmptyString.

Definition section_text (name : string) (d : dict) : list string :=
  (("[" ++ name ++ "]" ++ nl)%string
     :: map (fun kv => (fst kv ++ " = " ++ tab_newlines (snd kv) ++ nl)%string) d)
    ++ [nl].

(** The strings [p.write(f)] hands to [f.write], in order. *)
Definition text (p : parser) : list string :=
  (match defaults p with
   | [] => []
   | _ => section_text "DEFAULT" (defaults p)
   end)
    ++ flat_map (fun s => section_text (fst s) (snd s)) (sections p).

End Cfg.

(** ** JSON values of the remote service *)

#[local] Unset Elimination Schemes.
Inductive json : Type :=
| JNull
| JBool (b : bool)
| JInt (z : Z)
| JStr (s : string)
| JList (l : list json)
| JDict (d : list (string * json)).
#[local] Set Elimination Schemes.

Module Py.

(** Truth value of an object in a condition. *)
Definition truthy (j : json) : bool :=
  match j with
  | JNull => false
  | JBool b => b
  | JInt z => negb (z =? 0)
  | JStr s => negb (String.eqb s EmptyString)
  | JList l => match l with [] => false | _ => true end
  | JDict d => match d with [] => false | _ => true end
  end.

Definition char_at (s : string) (i : Z) : result json :=
  match PyList.position (String.length s) i with
  | Some k =>
      match String.get k s with
      | Some c => Ok (JStr (String c EmptyString))
      | None => Raise IndexError
      end
  | None => Raise IndexError
  end.

(** [obj[key]]. *)
Definition subscript (obj key : json) : result json :=
  match obj, key with
  | JDict d, JStr k =>
      match Cfg.lookup d k with
      | Some v => Ok v
      | None => Raise KeyError
      end
  | JDict _, (JList _ | JDict _) => Raise TypeError
  | JDict _, _ => Raise KeyError
  | JList l, JInt i => PyList.getitem l i
  | JList l, JBool b => PyList.getitem l (if b then 1 else 0)
  | JStr s, JInt i => char_at s i
  | JStr s, JBool b => char_at s (if b then 1 else 0)
  | _, _ => Raise TypeError
  end.

(** [obj.get(key, default)]: only dictionaries have the method. *)
Definition get (obj key default : json) : result json :=
  match obj, key with
  | JDict d, JStr k =>
      match Cfg.lookup d k with
      | Some v => Ok v
      | None => Ok default
      end
  | JDict _, (JList _ | JDict _) => Raise TypeError
  | JDict _, _ => Ok default
  | _, _ => Raise AttributeError
  end.

(** [obj.values()[0]]: the view of a dictionary's values has no
    subscript. *)
Definition values_first (obj : json) : result json :=
  match obj with
  | JDict _ => Raise TypeError
  | _ => Raise AttributeError
  end.

(** [int(obj)]. *)
Definition int (obj : json) : result Z :=
  match obj with
  | JInt z => Ok z
  | JBool b => Ok (if b then 1 else 0)
  | JStr s => PyStr.int s
  | _ => Raise TypeError
  end.

Definition hex_digit (n : Z) : ascii :=
  ascii_of_N (Z.to_N (if n <? 10 then 48 + n else 87 + n)).

Definition repr_char (quote c : ascii) : string :=
  if Ascii.eqb c quote || Ascii.eqb c "\" then String "\" (String c EmptyString)
  else if Ascii.eqb c "009" then "\t"
  else if Ascii.eqb c "010" then "\n"
  else if Ascii.eqb c "013" then "\r"
  else if (PyStr.code c <? 32) || (PyStr.code c =? 127) then
    String "\" (String "x" (String (hex_digit (PyStr.code c / 16))
                            (String (hex_digit (PyStr.code c mod 16)) EmptyString)))
  else String c EmptyString.

Fixpoint repr_chars (quote : ascii) (s : string) : string :=
  match s with
  | EmptyString => EmptyString
  | String c s' => (repr_char quote c ++ repr_chars quote s')%string
  end.

(** [repr(s)] of a string: double quotes only when [s] has a single quote
    and no double quote. *)
Definition repr_str (s : string) : string :=
  let quote : ascii :=
    if PyStr.contains "'" s && negb (PyStr.contains "034" s) then "034"%char
    else "'"%char in
  String quote (repr_chars quote s ++ String quote EmptyString).

Fixpoint repr (j : json) : string :=
  match j with
  | JNull => "None"
  | JBool true => "True"
  | JBool false => "False"
  | JInt z => PyStr.of_Z z
  | JStr s => repr_str s
  | JList l => ("[" ++ PyStr.join ", " (map repr l) ++ "]")%string
  | JDict d =>
      ("{" ++ PyStr.join ", "
             ((fix items (d : list (string * json)) : list string :=
                 match d with
                 | [] => []
                 | (k, v) :: d' => (repr_str k ++ ": " ++ repr v)%string :: items d'
                 end) d) ++ "}")%string
  end.

(** [str(obj)]. *)
Definition str (j : json) : string :=
  match j with
  | JStr s => s
  | _ => repr j
  end.

(** [s != obj] for a string [s]. *)
Definition str_ne (s : string) (obj : json) : bool :=
  match obj with
  | JStr t => negb (String.eqb s t)
  | _ => true
  end.

End Py.

(** ** Commands: the cache file and the trace *)

Record world : Type := mkWorld {
  cache_file : option Cfg.file;
  trace : list event
}.

Definition M (A : Type) : Type := world -> result A * world.

Definition ret {A : Type} (a : A) : M A := fun w => (Ok a, w).

Definition raise {A : Type} (e : py_error) : M A := fun w => (Raise e, w).

Definition bind {A B : Type} (m : M A) (k : A -> M B) : M B :=
  fun w =>
    match m w with
    | (Ok a, w') => k a w'
    | (Raise e, w') => (Raise e, w')
    end.

Definition lift {A : Type} (r : result A) : M A := fun w => (r, w).

Definition emit (e : event) : M unit :=
  fun w => (Ok tt, mkWorld (cache_file w) (trace w ++ [e])).

Declare Scope cmd_scope.
Delimit Scope cmd_scope with cmd.
Notation "x <- m ;; k" := (bind m (fun x => k))
  (at level 61, m at next level, right associativity) : cmd_scope.
Notation "m ;;; k" := (bind m (fun _ => k))
  (at level 61, right associativity) : cmd_scope.

Fixpoint for_each {A : Type} (body : A -> M unit) (l : list A) : M unit :=
  match l with
  | [] => ret tt
  | a :: l' => (body a ;;; for_each body l')%cmd
  end.

Definition sleep (t : Q) : M unit := emit (Sleep t).

(** ** The reordering engine *)

Definition is_in (s : string) (l : list string) : bool :=
  existsb (String.eqb s) l.

(** [move(cmd_args, tasks, moveto, movefrom)]; [args] is
    [cmd_args['<args>']]. *)
Definition move (args : list string) (tasks : list Task) (moveto : string)
           (movefrom : option string) : M unit :=
  let args_ids := match movefrom with
                  | None => tl args
                  | Some m => [m]
                  end in
  (tids <- lift (get_task_ids args_ids false) ;;
   real_ids <- lift (rmap (PyList.getitem tasks) tids) ;;
   for_each
     (fun real_id =>
        emit (Print (Moving (t_text real_id)
                       (if String.eqb moveto "0" then "top"
                        else if String.eqb moveto "-1" then "bottom"
                        else moveto))) ;;;
        emit (Request (MoveTask (t_id real_id) moveto)) ;;;
        sleep HABITICA_REQUEST_WAIT_TIME)
     real_ids)%cmd.

(** The chain [if 'top' in args ... elif 'tob' ... elif 'to' ... else] that
    closes the [hb], [dl] and [todos] commands. *)
Definition reorder (args : list string) (tasks : list Task) (otherwise : M unit)
  : M unit :=
  if is_in "top" args then move args tasks "0" None
  else if is_in "tob" args then move args tasks "-1" None
  else if is_in "to" args then
    (movefrom <- lift (PyList.getitem args 0) ;;
     moveto <- lift (PyList.getitem args 2) ;;
     move args tasks moveto (Some movefrom))%cmd
  else otherwise.

(** ** Bulk completion and deletion of todos *)

(** The loop of [todos done]: each id is resolved when its turn comes. *)
Definition todos_done_loop (todos : list Task) (tids : list Z) : M unit :=
  for_each
    (fun tid =>
       (t <- lift (PyList.getitem todos tid) ;;
        emit (Request (ScoreTask (t_id t) "up")) ;;;
        t' <- lift (PyList.getitem todos tid) ;;
        emit (Print (MarkedTodoComplete (t_text t'))) ;;;
        sleep HABITICA_REQUEST_WAIT_TIME)%cmd)
    tids.

Definition todos_delete_loop (todos : list Task) (tids : list Z) : M unit :=
  for_each
    (fun tid =>
       (t <- lift (PyList.getitem todos tid) ;;
        emit (Request (DeleteTask (t_id t))) ;;;
        t' <- lift (PyList.getitem todos tid) ;;
        emit (Print (DeletedTodo (t_text t'))) ;;;
        sleep HABITICA_REQUEST_WAIT_TIME)%cmd)
    tids.

(** The branch [if 'done' in args['<args>']] of the [todos] command: it
    leaves the local mirror of the open todos. *)
Definition todos_done (args : list string) (todos : list Task) : M (list Task) :=
  (tids <- lift (get_task_ids (tl args) true) ;;
   todos_done_loop todos tids ;;;
   lift (updated_task_list todos tids))%cmd.

(** The branch [elif 'delete' in args['<args>']]. *)
Definition todos_delete (args : list string) (todos : list Task) : M (list Task) :=
  (tids <- lift (get_task_ids (tl args) true) ;;
   todos_delete_loop todos tids ;;;
   lift (updated_task_list todos tids))%cmd.

(** ** The quest cache and the status query *)

Definition SECTION_CACHE_QUEST : string := "Quest".

(** The double quote character as a string. *)
Definition dquote : string := String "034" EmptyString.
Definition DEFAULT_PARTY : string := "Not currently in a party".
Definition DEFAULT_QUEST : string := "Not currently on a quest".

Definition cache_defaults : Cfg.dict :=
  [("quest_key", EmptyString); ("quest_s", "Not currently on a quest")].

(** [load_cache(CACHE_CONF)]. *)
Definition load_cache : M Cfg.parser :=
  fun w =>
    let cache := Cfg.read (Cfg.create cache_defaults) (cache_file w) in
    if Cfg.has_section cache SECTION_CACHE_QUEST then (Ok cache, w)
    else (Cfg.add_section cache SECTION_CACHE_QUEST, w).

(** [open(configfile, 'wb')]: the file is created or emptied. *)
Definition open_wb : M unit :=
  fun w => (Ok tt, mkWorld (Some Cfg.empty_file) (trace w)).

(** [f.write(s)] with a string [s] on a file opened in binary mode: bytes
    are required. *)
Definition binary_write (s : string) : M unit := raise TypeError.

(** [update_quest_cache(CACHE_CONF, **kwargs)]. *)
Definition update_quest_cache (kwargs : list (string * string)) : M Cfg.parser :=
  (cache <- load_cache ;;
   cache <- lift (rfold (fun c kv => Cfg.set c SECTION_CACHE_QUEST (fst kv) (snd kv))
                        kwargs cache) ;;
   open_wb ;;;
   for_each binary_write (Cfg.text cache) ;;;
   (fun w => (Ok (Cfg.read cache (cache_file w)), w)))%cmd.

(** The answers of the remote service during one or several status queries
    against an unchanged party and quest. *)
Record Remote : Type := mkRemote {
  remote_party : json;
  remote_group : string -> json;
  remote_content : json
}.

Definition quest_of_content (content quest_key : json) : result json :=
  (qs <- Py.get content (JStr "quests") (JDict []) ;;
   Py.get qs quest_key (JDict []))%res.

(** The block run when the cached [quest_key] differs from the live one.
    [qt] is bound only in the two branches. *)
Definition refresh_quest (r : Remote) (quest_key : json) : M Cfg.parser :=
  (emit (Request GetContent) ;;;
   let content := remote_content r in
   let quest_max := JStr "-1" in
   quest_title <- lift (qs <- Py.subscript content (JStr "quests") ;;
                        q <- Py.subscript qs quest_key ;;
                        Py.subscript q (JStr "text"))%res ;;
   c <- lift (q <- quest_of_content content quest_key ;;
              Py.get q (JStr "collect") JNull)%res ;;
   qt_max <-
     (if Py.truthy c then
        lift (qs <- Py.subscript content (JStr "quests") ;;
              q <- Py.subscript qs quest_key ;;
              coll <- Py.subscript q (JStr "collect") ;;
              clct <- Py.values_first coll ;;
              m <- Py.subscript clct (JStr "count") ;;
              Ok (Some "collect", m))%res
      else
        (b <- lift (q <- quest_of_content content quest_key ;;
                    Py.get q (JStr "boss") JNull)%res ;;
         if Py.truthy b then
           lift (qs <- Py.subscript content (JStr "quests") ;;
                 q <- Py.subscript qs quest_key ;;
                 boss <- Py.subscript q (JStr "boss") ;;
                 m <- Py.subscript boss (JStr "hp") ;;
                 Ok (Some "hp", m))%res
         else ret (None, quest_max))) ;;
   qt <- match fst qt_max with
         | Some qt => ret qt
         | None => raise UnboundLocalError
         end ;;
   update_quest_cache [("quest_key", Py.str quest_key);
                       ("quest_type", qt);
                       ("quest_max", Py.str (snd qt_max));
                       ("quest_title", Py.str quest_title)])%cmd.

(** The quest part of the status query on an active quest: the text shown
    for the quest and the cache the query ends with. *)
Definition active_quest (r : Remote) (cache : Cfg.parser) (quest_data : json)
  : M (string * Cfg.parser) :=
  (quest_key <- lift (Py.subscript quest_data (JStr "key")) ;;
   cached_key <- lift (Cfg.get cache SECTION_CACHE_QUEST "quest_key") ;;
   cache <- (if Py.str_ne cached_key quest_key then refresh_quest r quest_key
             else ret cache) ;;
   quest_type <- lift (Cfg.get cache SECTION_CACHE_QUEST "quest_type") ;;
   quest_progress <-
     lift (p <- Py.subscript quest_data (JStr "progress") ;;
           if String.eqb quest_type "collect" then
             (qp_tmp <- Py.subscript p (JStr "collect") ;; Py.values_first qp_tmp)
           else Py.subscript p (JStr "hp"))%res ;;
   progress <- lift (Py.int quest_progress) ;;
   quest_max <- lift (Cfg.get cache SECTION_CACHE_QUEST "quest_max") ;;
   quest_title <- lift (Cfg.get cache SECTION_CACHE_QUEST "quest_title") ;;
   ret ((PyStr.of_Z progress ++ "/" ++ quest_max ++ " " ++ dquote ++ quest_title
          ++ dquote)%string,
        cache))%cmd.

(** The party and quest part of the status query. *)
Definition party_quest (r : Remote) (cache : Cfg.parser) : M (string * Cfg.parser) :=
  (emit (Request GetParty) ;;;
   let group := remote_party r in
   if Py.truthy group then
     (party_id <- lift (g <- Py.subscript group (JInt 0) ;;
                        Py.subscript g (JStr "id"))%res ;;
      party_title <- lift (g <- Py.subscript group (JInt 0) ;;
                           Py.subscript g (JStr "name"))%res ;;
      name <- match party_id with
              | JStr s => ret s
              | _ => raise TypeError
              end ;;
      emit (Request (GetGroup name)) ;;;
      quest_data <- lift (Py.subscript (remote_group r name) (JStr "quest")) ;;
      active <- (if Py.truthy quest_data
                 then lift (a <- Py.subscript quest_data (JStr "active") ;;
                            Ok (Py.truthy a))%res
                 else ret false) ;;
      if active then active_quest r cache quest_data
      else ret (DEFAULT_QUEST, cache))
   else ret (DEFAULT_QUEST, cache))%cmd.

(** The [status] command.  The user record behind the figures of the report
    is taken to be well formed; the report is one output. *)
Definition status (r : Remote) : M unit :=
  (cache <- load_cache ;;
   emit (Request GetUser) ;;;
   q <- party_quest r cache ;;
   emit (Print (StatusReport DEFAULT_PARTY (fst q))))%cmd.

(** ** Identifier expressions of the data model

    A token is a comma-separated list of pieces; a piece is a literal or an
    inclusive range [A-B].  [render_token] writes a token the way it is typed
    on the command line. *)

Inductive piece : Type :=
| Lit (n : N)
| Span (a b : N).

Definition decimal (n : N) : string :=
  NilEmpty.string_of_uint (N.to_uint n).

Definition render_piece (p : piece) : string :=
  match p with
  | Lit n => decimal n
  | Span a b => (decimal a ++ "-" ++ decimal b)%string
  end.

Definition render_token (t : list piece) : string :=
  PyStr.join "," (map render_piece t).

Definition well_formed_piece (p : piece) : Prop :=
  match p with
  | Lit _ => True
  | Span a b => (a <= b)%N
  end.

Definition well_formed_token (t : list piece) : Prop :=
  t <> [] /\ Forall well_formed_piece t.

(** The values a piece stands for: [A, A+1, ..., B] for a range. *)
Definition expand (p : piece) : list Z :=
  match p with
  | Lit n => [Z.of_N n]
  | Span a b =>
      map (fun i => Z.of_N a + Z.of_nat i) (seq 0 (S (N.to_nat (b - a))))
  end.

Definition literal_count (p : piece) : nat :=
  match p with
  | Lit _ => 1%nat
  | Span a b => S (N.to_nat (b - a))
  end.

Definition expansion (toks : list (list piece)) : list Z :=
  flat_map (flat_map expand) toks.

Definition literals (toks : list (list piece)) : nat :=
  list_sum (map (fun t => list_sum (map literal_count t)) toks).

(** ** The local mirror without some positions *)

Fixpoint keep_from {A : Type} (i : Z) (tids : list Z) (l : list A) : list A :=
  match l with
  | [] => []
  | x :: l' =>
      if existsb (Z.eqb i) tids then keep_from (i + 1) tids l'
      else x :: keep_from (i + 1) tids l'
  end.

(** [l] without the elements at the positions [tids], the others in their
    order. *)
Definition without {A : Type} (tids : list Z) (l : list A) : list A :=
  keep_from 0 tids l.

(** ** Pieces the parser accepts

    A literal is written with blanks around it if one likes, a plus sign if
    one likes, and groups of digits with single underscores between them.
    A piece is accepted when it is a literal, or two literals joined by a
    hyphen. *)

Definition decimal_digit (c : ascii) : bool :=
  existsb (Ascii.eqb c) ["0"; "1"; "2"; "3"; "4"; "5"; "6"; "7"; "8"; "9"]%char.

(** Space, tab, line feed, vertical tab, form feed and carriage return. *)
Definition blank (c : ascii) : bool :=
  existsb (Ascii.eqb c) [" "; "009"; "010"; "011"; "012"; "013"]%char.

Inductive digit_groups : string -> Prop :=
| groups_digit d :
    decimal_digit d = true -> digit_groups (String d EmptyString)
| groups_more d s :
    decimal_digit d = true -> digit_groups s -> digit_groups (String d s)
| groups_under d s :
    decimal_digit d = true -> digit_groups s ->
    digit_groups (String d (String "_" s)).

Definition literal_text (s : string) : Prop :=
  exists l sign body r,
    s = (l ++ sign ++ body ++ r)%string
    /\ PyStr.all blank l = true
    /\ (sign = EmptyString \/ sign = "+")
    /\ digit_groups body
    /\ PyStr.all blank r = true.

Definition accepted (bit : string) : Prop :=
  literal_text bit
  \/ exists a b, bit = (a ++ "-" ++ b)%string /\ literal_text a /\ literal_text b.

Definition ascii_only (s : string) : bool :=
  PyStr.all (fun c => PyStr.code c <? 128) s.

(** A token sequence given by the pieces of its tokens: every token has at
    least one piece, and no piece holds a comma. *)
Definition pieces_of_tokens (tokens : list (list string)) : Prop :=
  Forall (fun bits => bits <> []
                      /\ Forall (fun bit => PyStr.contains "," bit = false) bits)
         tokens.

Fixpoint ascending (l : list Z) : bool :=
  match l with
  | x :: ((y :: _) as l') => (x <? y) && ascending l'
  | _ => true
  end.

(** ** Insertion points *)

(** The number of elements of [a] that are at most [x]: where [x] goes in
    the ascending [a], after the elements equal to it. *)
Definition insertion_point (a : list Q) (x : Q) : nat :=
  List.length (filter (fun b => Qle_bool b x) a).

(** ** What the reordering engine and the bulk loops are expected to emit *)

(** Parsing the tokens in order-preserving mode, then looking every index
    up in the task list. *)
Definition resolve (tasks : list Task) (tokens : list string) : result (list Task) :=
  (tids <- get_task_ids tokens false ;; rmap (PyList.getitem tasks) tids)%res.

Definition destination (moveto : string) : string :=
  if String.eqb moveto "0" then "top"
  else if String.eqb moveto "-1" then "bottom"
  else moveto.

(** The events of one step of [move]. *)
Definition move_events (moveto : string) (t : Task) : list event :=
  [Print (Moving (t_text t) (destination moveto));
   Request (MoveTask (t_id t) moveto);
   Sleep HABITICA_REQUEST_WAIT_TIME].

(** The events of one step of [todos done]. *)
Definition done_events (t : Task) : list event :=
  [Request (ScoreTask (t_id t) "up");
   Print (MarkedTodoComplete (t_text t));
   Sleep HABITICA_REQUEST_WAIT_TIME].

Fixpoint requests (tr : list event) : list request :=
  match tr with
  | [] => []
  | Request r :: tr' => r :: requests tr'
  | _ :: tr' => requests tr'
  end.

Definition extend (w : world) (evs : list event) : world :=
  mkWorld (cache_file w) (trace w ++ evs).

(** An index that denotes no position of a list of length [n]. *)
Definition out_of_range (n : nat) (i : Z) : Prop :=
  i < - Z.of_nat n \/ Z.of_nat n <= i.

(** ** Scenarios of the status query *)

Definition count_content_fetches (tr : list event) : nat :=
  List.length (filter (fun r => match r with GetContent => true | _ => false end)
                      (requests tr)).

Definition prints (tr : list event) : list output :=
  flat_map (fun e => match e with Print o => [o] | _ => [] end) tr.

(** A party whose group is on the active quest [key], with a boss progress
    of 120 and a collection progress of 3. *)
Definition party_on_quest (key : string) : string -> json :=
  fun _ =>
    JDict [("quest",
            JDict [("active", JBool true);
                   ("key", JStr key);
                   ("progress",
                    JDict [("hp", JInt 120);
                           ("collect", JDict [("petal", JInt 3)])])])].

(** Content definitions: [qB] is a boss quest of 300 hit points, [qC] a
    collection quest of 5 items, [qX] has neither shape. *)
Definition sample_content : json :=
  JDict [("quests",
          JDict [("qB", JDict [("text", JStr "Boss");
                               ("boss", JDict [("hp", JInt 300)])]);
                 ("qC", JDict [("text", JStr "Petals");
                               ("collect",
                                JDict [("petal", JDict [("count", JInt 5)])])]);
                 ("qX", JDict [("text", JStr "Odd")])])].

Definition sample_remote (key : string) : Remote :=
  mkRemote (JList [JDict [("id", JStr "p1"); ("name", JStr "Party")]])
           (party_on_quest key) sample_content.

Definition no_cache : world := mkWorld None [].

(** The world a command leaves behind. *)
Definition after {A : Type} (m : M A) (w : world) : world := snd (m w).

(** The four fields of a quest cache record. *)
Definition quest_record (key type max title : string) : list (string * string) :=
  [("quest_key", key); ("quest_type", type); ("quest_max", max);
   ("quest_title", title)].

(** The events of one step of [todos delete]. *)
Definition delete_events (t : Task) : list event :=
  [Request (DeleteTask (t_id t));
   Print (DeletedTodo (t_text t));
   Sleep HABITICA_REQUEST_WAIT_TIME].

(** ** The invariant of the set model *)

(** No key is in the table twice, and every key of the table is found by
    its own probe sequence. *)
Definition set_invariant (sl : list (option Z)) (msk : Z) : Prop :=
  NoDup (PySet.keys sl)
  /\ forall k, In k (PySet.keys sl) -> PySet.find sl msk k = Some PySet.Active.

(** One jump of the probe sequence, on the slot and the perturbation. *)
Definition jump (msk : Z) (s : Z * Z) : Z * Z :=
  let perturb' := Z.shiftr (snd s) PySet.PERTURB_SHIFT in
  (Z.land (fst s * 5 + 1 + perturb') msk, perturb').

(** The jump once the perturbation is used up, in a table of [M] slots. *)
Definition lcg (M i : Z) : Z := (5 * i + 1) mod M.

(** A table of [2^k] slots, at least eight, whose [fill] counts its keys. *)
Definition set_shape (k : nat) (t : PySet.table) : Prop :=
  (3 <= k)%nat
  /\ PySet.mask t = 2 ^ Z.of_nat k - 1
  /\ Z.of_nat (List.length (PySet.slots t)) = 2 ^ Z.of_nat k
  /\ PySet.fill t = Z.of_nat (List.length (PySet.keys (PySet.slots t))).

(** The table has room by the margin [set_add_entry] keeps. *)
Definition set_sparse (t : PySet.table) : Prop :=
  PySet.fill t * 5 < PySet.mask t * 3.

(** ** Checklists and the task listing

    Tasks as the remote service gives them: JSON objects.  A dictionary is
    taken to list each of its keys once. *)

Fixpoint substring_of (p s : string) : bool :=
  String.prefix p s
  || match s with
     | EmptyString => false
     | String _ s' => substring_of p s'
     end.

(** [key in obj] for a string [key]. *)
Definition py_in (key : string) (obj : json) : result bool :=
  match obj with
  | JDict d => Ok (match Cfg.lookup d key with Some _ => true | None => false end)
  | JList l =>
      Ok (existsb (fun e => match e with
                            | JStr s => String.eqb s key
                            | _ => false
                            end) l)
  | JStr s => Ok (substring_of key s)
  | _ => Raise TypeError
  end.

(** [len(obj)]. *)
Definition py_len (obj : json) : result Z :=
  match obj with
  | JList l => Ok (Z.of_nat (List.length l))
  | JDict d => Ok (Z.of_nat (List.length d))
  | JStr s => Ok (Z.of_nat (String.length s))
  | _ => Raise TypeError
  end.

(** The elements [for e in obj] goes through. *)
Definition py_iter (obj : json) : result (list json) :=
  match obj with
  | JList l => Ok l
  | JDict d => Ok (map (fun kv => JStr (fst kv)) d)
  | JStr s => Ok (map (fun c => JStr (String c EmptyString)) (list_ascii_of_string s))
  | _ => Raise TypeError
  end.

(** [obj == True]. *)
Definition eq_true (obj : json) : bool :=
  match obj with
  | JBool b => b
  | JInt z => z =? 1
  | _ => false
  end.

Definition cl_done_count (task : json) : result Z :=
  (items <- Py.subscript task (JStr "checklist") ;;
   lis <- py_iter items ;;
   rfold (fun count li =>
            (c <- Py.subscript li (JStr "completed") ;;
             Ok (if eq_true c then count + 1 else count))%res)
         lis 0)%res.

Definition cl_item_count (task : json) : result Z :=
  (has <- py_in "checklist" task ;;
   if has then (cl <- Py.subscript task (JStr "checklist") ;; py_len cl)
   else Ok 0)%res.

(** What a call has printed, line by line, and how it ended. *)
Definition printed (A : Type) : Type := (list string * result A)%type.

Definition pbind {A B : Type} (m : printed A) (k : A -> printed B) : printed B :=
  match m with
  | (ls, Ok a) => let (ls', r) := k a in (ls ++ ls', r)
  | (ls, Raise e) => (ls, Raise e)
  end.

Definition print_line (s : string) : printed unit := ([s], Ok tt).

Definition plift {A : Type} (r : result A) : printed A := ([], r).

(** [for i, a in enumerate(l)], counting from [i]. *)
Fixpoint pfor {A : Type} (body : nat -> A -> printed unit) (i : nat) (l : list A)
  : printed unit :=
  match l with
  | [] => ([], Ok tt)
  | a :: l' => pbind (body i a) (fun _ => pfor body (S i) l')
  end.

(** ['x' if obj else ' ']. *)
Definition completed_mark (obj : json) : string :=
  if Py.truthy obj then "x" else " ".

Fixpoint take (n : nat) (s : string) : string :=
  match n, s with
  | S n', String c s' => String c (take n' s')
  | _, _ => EmptyString
  end.

(** [obj[:50]]. *)
Definition slice50 (obj : json) : result json :=
  match obj with
  | JStr s => Ok (JStr (take 50 s))
  | JList l => Ok (JList (firstn 50 l))
  | _ => Raise TypeError
  end.

(** The line of the task at position [i], and whether it has a checklist
    with items. *)
Definition task_line (note_first : bool) (i : nat) (task : json)
  : result (string * bool) :=
  (c <- Py.subscript task (JStr "completed") ;;
   let completed := completed_mark c in
   line <-
     (if note_first then
        (notes <- Py.subscript task (JStr "notes") ;;
         notes50 <- slice50 notes ;;
         text <- Py.subscript task (JStr "text") ;;
         Ok ("[" ++ completed ++ "] " ++ PyStr.of_Z (Z.of_nat i + 1)
               ++ " <" ++ Py.str notes50 ++ "> " ++ Py.str text)%string)
      else
        (text <- Py.subscript task (JStr "text") ;;
         notes <- Py.subscript task (JStr "notes") ;;
         Ok ("[" ++ completed ++ "] " ++ PyStr.of_Z (Z.of_nat i + 1)
               ++ " " ++ Py.str text ++ " <" ++ Py.str notes ++ ">")%string)) ;;
   n <- cl_item_count task ;;
   if 0 <? n then
     (done <- cl_done_count task ;;
      n' <- cl_item_count task ;;
      Ok ((line ++ " (" ++ PyStr.of_Z done ++ "/" ++ PyStr.of_Z n' ++ ")")%string,
          true))
   else Ok (line, false))%res.

Definition check_line (check : json) : result string :=
  (c <- Py.subscript check (JStr "completed") ;;
   text <- Py.subscript check (JStr "text") ;;
   Ok ("    [" ++ completed_mark c ++ "] " ++ Py.str text)%string)%res.

(** The body of the loop of [print_task_list] under the global
    [checklists_on]. *)
Definition list_task (checklists_on note_first : bool) (i : nat) (task : json)
  : printed unit :=
  pbind (plift (task_line note_first i task)) (fun la =>
  pbind (print_line (fst la)) (fun _ =>
  if checklists_on && snd la then
    pbind (plift (cl <- Py.subscript task (JStr "checklist") ;; py_iter cl)%res)
          (fun checks =>
             pfor (fun _ check => pbind (plift (check_line check)) print_line)
                  0 checks)
  else ([], Ok tt))).

(** [print_task_list(tasks, note_first)]. *)
Definition print_task_list (checklists_on : bool) (tasks : list json)
           (note_first : bool) : printed unit :=
  pfor (list_task checklists_on note_first) 0 tasks.

(** ** Adding a todo *)

Definition PRIORITY : list (string * Q) :=
  [("easy", 1%Q); ("medium", 15 # 10); ("hard", 2%Q)].

Inductive add_event : Type :=
| Posted (text : string) (priority : Q)
| Shown (line : string).

(** The branch [elif 'add' in args['<args>']] of the [todos] command: its
    events and the local list it leaves. *)
Definition todos_add (difficulty : string) (args : list string) (todos : list json)
  : list add_event * result (list json) :=
  let ttext := PyStr.join " " (tl args) in
  match Cfg.lookup PRIORITY difficulty with
  | Some priority =>
      ([Posted ttext priority; Shown ("added new todo '" ++ ttext ++ "'")],
       Ok (JDict [("completed", JBool false); ("text", JStr ttext)] :: todos))
  | None => ([], Raise KeyError)
  end.

(** [todos add] when none of [top], [tob] and [to] is among the arguments:
    the branch, then the listing that closes the command. *)
Definition todos_add_and_list (checklists_on : bool) (difficulty : string)
           (args : list string) (todos : list json) : list add_event * result unit :=
  match todos_add difficulty args todos with
  | (evs, Ok todos') =>
      let (ls, r) := print_task_list checklists_on todos' false in
      (evs ++ map Shown ls, r)
  | (evs, Raise e) => (evs, Raise e)
  end.

(** ** The dailies command *)

(** What the [dailies] command sends and prints; the layout of the two
    messages is left to the rendering code. *)
Inductive daily_event : Type :=
| Scored (id : json)
| Unchecked (id : json)
| Marked (text : string) (completed : bool)
| Paused (t : Q)
| Listed (line : string).

(** [obj[key] = value] for a string [key]. *)
Definition py_setitem (obj : json) (key : string) (value : json) : result json :=
  match obj with
  | JDict d => Ok (JDict (Cfg.update d key value))
  | _ => Raise TypeError
  end.

(** [obj.encode('utf8')]: only strings have the method. *)
Definition py_encode (obj : json) : result string :=
  match obj with
  | JStr s => Ok s
  | _ => Raise AttributeError
  end.

(** The list after the assignment through [l[i]] that turns its element
    into [a]. *)
Definition list_set {A : Type} (l : list A) (i : Z) (a : A) : result (list A) :=
  match PyList.position (List.length l) i with
  | Some k => Ok (firstn k l ++ a :: skipn (S k) l)
  | None => Raise IndexError
  end.

(** The loops of [dailies done] ([completed] true) and [dailies undo]. *)
Fixpoint dailies_loop (completed : bool) (tids : list Z) (ds : list json)
  : list daily_event * result (list json) :=
  match tids with
  | [] => ([], Ok ds)
  | tid :: tids' =>
      match (t <- PyList.getitem ds tid ;; Py.subscript t (JStr "id"))%res with
      | Raise e => ([], Raise e)
      | Ok id =>
          let request := if completed then Scored id else Unchecked id in
          match (t <- PyList.getitem ds tid ;;
                 text <- Py.subscript t (JStr "text") ;;
                 py_encode text)%res with
          | Raise e => ([request], Raise e)
          | Ok text =>
              match (t <- PyList.getitem ds tid ;;
                     t' <- py_setitem t "completed" (JBool completed) ;;
                     list_set ds tid t')%res with
              | Raise e => ([request; Marked text completed], Raise e)
              | Ok ds' =>
                  let (evs, r) := dailies_loop completed tids' ds' in
                  ([request; Marked text completed;
                    Paused HABITICA_REQUEST_WAIT_TIME] ++ evs, r)
              end
          end
      end
  end.

(** The [dailies] command on the dailies the remote service returned. *)
Definition dailies (checklists_on : bool) (args : list string) (ds : list json)
  : list daily_event * result unit :=
  let branch :=
    if is_in "done" args then
      match get_task_ids (tl args) true with
      | Ok tids => dailies_loop true tids ds
      | Raise e => ([], Raise e)
      end
    else if is_in "undo" args then
      match get_task_ids (tl args) true with
      | Ok tids => dailies_loop false tids ds
      | Raise e => ([], Raise e)
      end
    else ([], Ok ds) in
  match branch with
  | (evs, Ok ds') =>
      let (ls, r) := print_task_list checklists_on ds' false in
      (evs ++ map Listed ls, r)
  | (evs, Raise e) => (evs, Raise e)
  end.

(** A task with an id and a text that is a string. *)
Definition daily_record (t : json) : Prop :=
  exists d id text,
    t = JDict d
    /\ Cfg.lookup d "id" = Some id
    /\ Cfg.lookup d "text" = Some (JStr text).

Definition set_completed (completed : bool) (t : json) : json :=
  match t with
  | JDict d => JDict (Cfg.update d "completed" (JBool completed))
  | _ => t
  end.

(** The tasks with [completed] set at the positions [tids], the first task
    being at position [i]. *)
Fixpoint marked_from (i : nat) (completed : bool) (tids : list Z) (ds : list json)
  : list json :=
  match ds with
  | [] => []
  | t :: ds' =>
      (if existsb (Z.eqb (Z.of_nat i)) tids then set_completed completed t else t)
        :: marked_from (S i) completed tids ds'
  end.

(** The events of one step of the loops. *)
Definition daily_events (completed : bool) (t : json) : list daily_event :=
  match Py.subscript t (JStr "id"), Py.subscript t (JStr "text") with
  | Ok id, Ok (JStr text) =>
      [if completed then Scored id else Unchecked id;
       Marked text completed;
       Paused HABITICA_REQUEST_WAIT_TIME]
  | _, _ => []
  end.

(** * Facts about the string functions *)

Section StringFacts.

Lemma digit_not_space c : PyStr.is_digit c = true -> PyStr.is_space c = false.
Proof. unfold PyStr.is_digit, PyStr.is_space. lia. Qed.

Lemma digit_not_char c d :
  PyStr.is_digit c = true -> PyStr.is_digit d = false -> Ascii.eqb c d = false.
Proof.
  intros Hc Hd. destruct (Ascii.eqb_spec c d) as [->|]; congruence.
Qed.

Lemma all_contains p s c :
  PyStr.all p s = true -> p c = false -> PyStr.contains c s = false.
Proof.
  induction s as [|a s IH]; simpl; intros H Hc; [reflexivity|].
  apply andb_true_iff in H as [Ha Hs].
  rewrite (IH Hs Hc), orb_false_r.
  destruct (Ascii.eqb_spec a c) as [->|]; congruence.
Qed.

Lemma contains_app sep s t :
  PyStr.contains sep (s ++ t) = PyStr.contains sep s || PyStr.contains sep t.
Proof.
  induction s as [|a s IH]; simpl; [reflexivity|].
  now rewrite IH, orb_assoc.
Qed.

Lemma split_nonempty sep s : PyStr.split sep s <> [].
Proof.
  destruct s as [|c s]; simpl; [discriminate|].
  destruct (Ascii.eqb c sep); [discriminate|].
  destruct (PyStr.split sep s); discriminate.
Qed.

Lemma split_without sep s :
  PyStr.contains sep s = false -> PyStr.split sep s = [s].
Proof.
  induction s as [|c s IH]; simpl; intros H; [reflexivity|].
  apply orb_false_iff in H as [Hc Hs].
  now rewrite Hc, (IH Hs).
Qed.

Lemma split_app sep s t :
  PyStr.contains sep s = false ->
  PyStr.split sep (s ++ String sep t) = s :: PyStr.split sep t.
Proof.
  induction s as [|c s IH]; simpl; intros H.
  - now rewrite Ascii.eqb_refl.
  - apply orb_false_iff in H as [Hc Hs].
    now rewrite Hc, (IH Hs).
Qed.

Lemma lstrip_no_space s :
  PyStr.all (fun c => negb (PyStr.is_space c)) s = true -> PyStr.lstrip s = s.
Proof.
  destruct s as [|c s]; simpl; [reflexivity|].
  intros H. apply andb_true_iff in H as [Hc _].
  apply negb_true_iff in Hc. now rewrite Hc.
Qed.

Lemma rstrip_no_space s :
  PyStr.all (fun c => negb (PyStr.is_space c)) s = true -> PyStr.rstrip s = s.
Proof.
  induction s as [|c s IH]; simpl; [reflexivity|].
  intros H. apply andb_true_iff in H as [Hc Hs].
  apply negb_true_iff in Hc. rewrite (IH Hs), Hc.
  now destruct s.
Qed.

Lemma all_impl (p q : ascii -> bool) s :
  (forall c, p c = true -> q c = true) ->
  PyStr.all p s = true -> PyStr.all q s = true.
Proof.
  intros Hpq. induction s as [|c s IH]; simpl; [reflexivity|].
  intros H. apply andb_true_iff in H as [Hc Hs].
  now rewrite (Hpq _ Hc), (IH Hs).
Qed.

Lemma digits_all_digit s :
  PyStr.all PyStr.is_digit s = true -> PyStr.digits true s = Some s.
Proof.
  induction s as [|c s IH]; simpl; [reflexivity|].
  intros H. apply andb_true_iff in H as [Hc Hs].
  now rewrite Hc, (IH Hs).
Qed.

Lemma string_of_uint_digits u :
  PyStr.all PyStr.is_digit (NilEmpty.string_of_uint u) = true.
Proof. induction u; simpl; auto. Qed.

Lemma decimal_digits n : PyStr.all PyStr.is_digit (decimal n) = true.
Proof. apply string_of_uint_digits. Qed.

Lemma decimal_nonempty n : decimal n <> EmptyString.
Proof.
  unfold decimal. destruct n as [|p]; simpl; [discriminate|].
  pose proof (DecimalPos.Unsigned.to_uint_nonnil p) as H.
  destruct (Pos.to_uint p); simpl; congruence.
Qed.

(** [int] reads back what [str] writes of a natural number. *)
Lemma int_decimal n : PyStr.int (decimal n) = Ok (Z.of_N n).
Proof.
  pose proof (decimal_digits n) as Hd.
  pose proof (decimal_nonempty n) as Hne.
  unfold PyStr.int.
  rewrite lstrip_no_space, rstrip_no_space
    by (eapply all_impl; [|exact Hd];
        intros c Hc; now rewrite (digit_not_space c Hc)).
  assert (Hu : PyStr.unsigned_literal (decimal n) = Some (Z.of_N n)).
  { unfold PyStr.unsigned_literal.
    assert (Hds : PyStr.digits false (decimal n) = Some (decimal n)).
    { destruct (decimal n) as [|c s]; [congruence|]. simpl in *.
      apply andb_true_iff in Hd as [Hc Hs].
      now rewrite Hc, (digits_all_digit s Hs). }
    rewrite Hds. unfold decimal.
    now rewrite NilEmpty.usu, DecimalN.Unsigned.of_to. }
  destruct (decimal n) as [|c s] eqn:E; [congruence|].
  simpl in Hd. apply andb_true_iff in Hd as [Hc _].
  rewrite (digit_not_char c "+" Hc eq_refl), (digit_not_char c "-" Hc eq_refl).
  now rewrite Hu.
Qed.

End StringFacts.

(** * The parser on well-formed expressions *)

Section ParserOnWellFormed.

Lemma render_piece_no_comma p : PyStr.contains "," (render_piece p) = false.
Proof.
  destruct p as [n|a b]; simpl.
  - apply (all_contains PyStr.is_digit); [apply decimal_digits | reflexivity].
  - rewrite contains_app. simpl.
    now rewrite !(all_contains PyStr.is_digit _ ",") by
      (try apply decimal_digits; reflexivity).
Qed.

Lemma range_span a b :
  (a <= b)%N -> PyList.range (Z.of_N a) (Z.of_N b + 1) = expand (Span a b).
Proof.
  intros Hab. unfold PyList.range, expand.
  replace (Z.to_nat (Z.of_N b + 1 - Z.of_N a)) with (S (N.to_nat (b - a))) by lia.
  reflexivity.
Qed.

Lemma gather_bit_piece acc p :
  well_formed_piece p -> gather_bit acc (render_piece p) = Ok (acc ++ expand p).
Proof.
  destruct p as [n|a b]; simpl; intros Hwf; unfold gather_bit.
  - rewrite (all_contains PyStr.is_digit _ "-") by
      (try apply decimal_digits; reflexivity).
    now rewrite int_decimal.
  - assert (Ha : PyStr.contains "-" (decimal a) = false) by
      (apply (all_contains PyStr.is_digit); [apply decimal_digits | reflexivity]).
    assert (Hb : PyStr.contains "-" (decimal b) = false) by
      (apply (all_contains PyStr.is_digit); [apply decimal_digits | reflexivity]).
    rewrite contains_app. simpl. rewrite orb_true_r.
    rewrite (split_app "-" _ _ Ha), (split_without _ _ Hb). simpl.
    rewrite !int_decimal. simpl.
    now rewrite range_span.
Qed.

Lemma split_render_token t :
  t <> [] -> PyStr.split "," (render_token t) = map render_piece t.
Proof.
  unfold render_token.
  induction t as [|p t IH]; [congruence|]. intros _.
  destruct t as [|q t].
  - simpl. apply split_without, render_piece_no_comma.
  - change (PyStr.join "," (map render_piece (p :: q :: t)))
      with (render_piece p ++ String "," (PyStr.join "," (map render_piece (q :: t))))%string.
    rewrite split_app by apply render_piece_no_comma.
    rewrite IH by discriminate. reflexivity.
Qed.

Lemma gather_bits_pieces ps : forall acc,
  Forall well_formed_piece ps ->
  rfold gather_bit (map render_piece ps) acc = Ok (acc ++ flat_map expand ps).
Proof.
  induction ps as [|p ps IH]; simpl; intros acc Hwf.
  - now rewrite app_nil_r.
  - inversion Hwf as [|? ? Hp Hps]; subst.
    rewrite gather_bit_piece by assumption. simpl.
    rewrite IH by assumption. now rewrite <- app_assoc.
Qed.

Lemma gather_arg_token acc t :
  well_formed_token t ->
  gather_arg acc (render_token t) = Ok (acc ++ flat_map expand t).
Proof.
  intros [Hne Hwf]. unfold gather_arg.
  rewrite split_render_token by assumption.
  now apply gather_bits_pieces.
Qed.

Lemma gather_args_tokens toks : forall acc,
  Forall well_formed_token toks ->
  rfold gather_arg (map render_token toks) acc = Ok (acc ++ expansion toks).
Proof.
  unfold expansion.
  induction toks as [|t toks IH]; simpl; intros acc Hwf.
  - now rewrite app_nil_r.
  - inversion Hwf as [|? ? Ht Hts]; subst.
    rewrite gather_arg_token by assumption. simpl.
    rewrite IH by assumption. now rewrite <- app_assoc.
Qed.

Lemma expand_length p : List.length (expand p) = literal_count p.
Proof.
  destruct p as [n|a b]; simpl; [reflexivity|].
  now rewrite length_map, length_seq.
Qed.

Lemma expansion_length toks : List.length (expansion toks) = literals toks.
Proof.
  unfold expansion, literals.
  induction toks as [|t toks IH]; simpl; [reflexivity|].
  rewrite length_app, IH. f_equal.
  clear. induction t as [|p t IH]; simpl; [reflexivity|].
  now rewrite length_app, expand_length, IH.
Qed.

End ParserOnWellFormed.

(** C3: in order-preserving mode the parser returns, for well-formed tokens,
    the expansions of all pieces in token order, every value decremented by
    one and duplicates kept; the output has one entry per literal of the
    expansion. *)
Theorem get_task_ids_preserve_order (toks : list (list piece))
        (Hwf : Forall well_formed_token toks) :
  get_task_ids (map render_token toks) false
  = Ok (map (fun v => v - 1) (expansion toks))
  /\ List.length (map (fun v => v - 1) (expansion toks)) = literals toks.
Proof.
  split.
  - unfold get_task_ids, gather.
    now rewrite (gather_args_tokens toks [] Hwf).
  - rewrite length_map. apply expansion_length.
Qed.

Lemma get_task_ids_preserve_order_witness :
  Forall well_formed_token [[Span 1 3; Lit 4]; [Lit 2]; [Lit 2]]
  /\ get_task_ids ["1-3,4"; "2"; "2"] false = Ok [0; 1; 2; 3; 1; 1].
Proof.
  assert (H : Forall well_formed_token [[Span 1 3; Lit 4]; [Lit 2]; [Lit 2]]).
  { repeat constructor; simpl; try discriminate; lia. }
  split; [exact H|].
  exact (proj1 (get_task_ids_preserve_order _ H)).
Defined.

(** * The local mirror after a bulk operation *)

Section MirrorFacts.

Context {A : Type}.

Lemma existsb_eqb_In i (s : list Z) : existsb (Z.eqb i) s = true <-> In i s.
Proof.
  rewrite existsb_exists. split.
  - intros (x & Hx & Heq). apply Z.eqb_eq in Heq. now subst.
  - intros Hi. exists i. split; [assumption | apply Z.eqb_refl].
Qed.

Lemma keep_from_ext (s s' : list Z) (l : list A) : forall i,
  (forall j, i <= j < i + Z.of_nat (List.length l) -> (In j s <-> In j s')) ->
  keep_from i s l = keep_from i s' l.
Proof.
  induction l as [|x l IH]; simpl; intros i H; [reflexivity|].
  assert (E : existsb (Z.eqb i) s = existsb (Z.eqb i) s').
  { apply eq_true_iff_eq. rewrite !existsb_eqb_In. apply H. lia. }
  rewrite E, (IH (i + 1)); [reflexivity|].
  intros j Hj. apply H. lia.
Qed.

Lemma keep_from_nil (l : list A) : forall i, keep_from i [] l = l.
Proof. induction l as [|x l IH]; simpl; intros i; [reflexivity | now rewrite IH]. Qed.

Lemma keep_from_below (s : list Z) (l : list A) i :
  Forall (fun d => d < i) s -> keep_from i s l = l.
Proof.
  intros Hs. rewrite <- (keep_from_nil l i) at 2.
  apply keep_from_ext. intros j Hj. split; [|intros []].
  intros Hin. rewrite Forall_forall in Hs. specialize (Hs _ Hin). lia.
Qed.

Lemma keep_from_app (s : list Z) (l1 l2 : list A) : forall i,
  keep_from i s (l1 ++ l2)
  = keep_from i s l1 ++ keep_from (i + Z.of_nat (List.length l1)) s l2.
Proof.
  induction l1 as [|x l1 IH]; simpl; intros i.
  - now rewrite Z.add_0_r.
  - rewrite IH.
    replace (i + 1 + Z.of_nat (List.length l1))
      with (i + Z.pos (Pos.of_succ_nat (List.length l1))) by lia.
    now destruct (existsb (Z.eqb i) s).
Qed.

Lemma delitem_in_range (l : list A) d :
  0 <= d < Z.of_nat (List.length l) ->
  PyList.delitem l d = Ok (firstn (Z.to_nat d) l ++ skipn (S (Z.to_nat d)) l).
Proof.
  intros Hd. unfold PyList.delitem, PyList.position.
  replace (0 <=? d) with true by lia.
  replace (d <? Z.of_nat (List.length l)) with true by lia.
  reflexivity.
Qed.

(** Deleting strictly descending positions one after the other removes
    exactly those positions. *)
Lemma delete_descending (ds : list Z) : forall l : list A,
  StronglySorted Z.gt ds ->
  Forall (fun d => 0 <= d < Z.of_nat (List.length l)) ds ->
  rfold PyList.delitem ds l = Ok (without ds l).
Proof.
  unfold without.
  induction ds as [|d ds IH]; simpl; intros l Hs Hr.
  - now rewrite keep_from_nil.
  - inversion Hs as [|? ? Hs' Hgt]; subst.
    inversion Hr as [|? ? Hd Hr']; subst.
    rewrite delitem_in_range by assumption. cbn [rbind].
    assert (Hlt : Forall (fun x => x < d) ds).
    { eapply Forall_impl; [|exact Hgt]. simpl. intros; lia. }
    set (k := Z.to_nat d).
    assert (Hk : (k < List.length l)%nat) by lia.
    assert (Hf : List.length (firstn k l) = k) by (rewrite length_firstn; lia).
    rewrite IH; try assumption.
    + f_equal.
      destruct (skipn k l) as [|x rest] eqn:Esk.
      { apply (f_equal (@List.length A)) in Esk.
        rewrite length_skipn in Esk. simpl in Esk. lia. }
      assert (Erest : skipn (S k) l = rest).
      { replace (S k) with (1 + k)%nat by lia.
        now rewrite <- skipn_skipn, Esk. }
      rewrite Erest.
      transitivity (keep_from 0 (d :: ds) (firstn k l ++ x :: rest));
        [|now rewrite <- Esk, firstn_skipn].
      rewrite !keep_from_app, Hf.
      replace (0 + Z.of_nat k) with d by lia.
      cbn [keep_from existsb]. rewrite Z.eqb_refl. cbn [orb].
      rewrite (keep_from_below ds rest d Hlt).
      rewrite (keep_from_below (d :: ds) rest (d + 1)).
      2:{ constructor; [lia|]. eapply Forall_impl; [|exact Hlt]. simpl; intros; lia. }
      f_equal. apply keep_from_ext.
      intros j Hj. rewrite Hf in Hj. simpl. split; [auto|].
      intros [E|Hin]; [lia|assumption].
    + rewrite Forall_forall in *. intros x Hx.
      specialize (Hlt _ Hx). specialize (Hr' _ Hx).
      rewrite length_app, Hf, length_skipn. lia.
Qed.

Lemma insert_desc_perm x l : Permutation (PyList.insert_desc x l) (x :: l).
Proof.
  induction l as [|y l IH]; simpl; [reflexivity|].
  destruct (y <=? x); [reflexivity|].
  rewrite IH. apply perm_swap.
Qed.

Lemma sorted_reverse_perm l : Permutation (PyList.sorted_reverse l) l.
Proof.
  induction l as [|x l IH]; simpl; [reflexivity|].
  rewrite insert_desc_perm. now constructor.
Qed.

Lemma insert_desc_sorted x l :
  StronglySorted Z.gt l -> ~ In x l -> StronglySorted Z.gt (PyList.insert_desc x l).
Proof.
  induction l as [|y l IH]; simpl; intros Hs Hn.
  - repeat constructor.
  - inversion Hs as [|? ? Hs' Hgt]; subst.
    destruct (Z.leb_spec y x) as [Hle|Hlt].
    + constructor; [assumption|].
      constructor; [lia|].
      eapply Forall_impl; [|exact Hgt]. simpl. intros; lia.
    + constructor; [apply IH; tauto|].
      rewrite Forall_forall. intros z Hz.
      apply (Permutation_in _ (insert_desc_perm x l)) in Hz.
      destruct Hz as [<-|Hz]; [lia|].
      rewrite Forall_forall in Hgt. now apply Hgt.
Qed.

Lemma sorted_reverse_sorted l :
  NoDup l -> StronglySorted Z.gt (PyList.sorted_reverse l).
Proof.
  induction 1 as [|x l Hx Hnd IH]; simpl; [constructor|].
  apply insert_desc_sorted; [assumption|].
  intros Hin. apply Hx.
  now apply (Permutation_in _ (sorted_reverse_perm l)).
Qed.

End MirrorFacts.

(** C10: after a bulk completion or deletion at pairwise-distinct in-range
    indices, the local mirror is the original list without the tasks at
    those indices, the other tasks in their original order. *)
Theorem updated_task_list_removes {A : Type} (tasks : list A) (tids : list Z)
        (Hdistinct : NoDup tids)
        (Hrange : Forall (fun tid => 0 <= tid < Z.of_nat (List.length tasks)) tids) :
  updated_task_list tasks tids = Ok (without tids tasks).
Proof.
  unfold updated_task_list.
  rewrite delete_descending.
  - f_equal. unfold without. apply keep_from_ext.
    intros j _. split; apply Permutation_in;
      [apply sorted_reverse_perm | symmetry; apply sorted_reverse_perm].
  - now apply sorted_reverse_sorted.
  - rewrite Forall_forall in *. intros x Hx. apply Hrange.
    now apply (Permutation_in _ (sorted_reverse_perm tids)).
Qed.

Lemma updated_task_list_removes_witness :
  updated_task_list ["a"; "b"; "c"; "d"; "e"] [3; 0; 2] = Ok ["b"; "e"].
Proof.
  apply (updated_task_list_removes ["a"; "b"; "c"; "d"; "e"] [3; 0; 2]).
  - repeat constructor; simpl; intuition lia.
  - repeat constructor; simpl; lia.
Defined.

(** * The exceptions of the parser *)

Section ParserOnMalformed.

(** [int] raises nothing but [ValueError]. *)
Lemma int_raises s e : PyStr.int s = Raise e -> e = ValueError.
Proof.
  unfold PyStr.int.
  destruct (match PyStr.rstrip (PyStr.lstrip s) with
            | EmptyString => _ | String c t' => _ end); congruence.
Qed.

Lemma rmap_raises {A B : Type} (f : A -> result B) (E : py_error) l :
  (forall a e, f a = Raise e -> e = E) ->
  forall e, rmap f l = Raise e -> e = E.
Proof.
  intros Hf. induction l as [|a l IH]; simpl; intros e H; [discriminate|].
  destruct (f a) eqn:Ea; simpl in H.
  - destruct (rmap f l); simpl in H; [discriminate|].
    apply IH. congruence.
  - inversion H; subst. eauto.
Qed.

Lemma rmap_failing {A B : Type} (f : A -> result B) (E : py_error) l a :
  (forall a e, f a = Raise e -> e = E) ->
  In a l -> f a = Raise E -> rmap f l = Raise E.
Proof.
  intros Hf. induction l as [|x l IH]; simpl; intros Hin Ha; [destruct Hin|].
  destruct (f x) eqn:Ex; simpl.
  - destruct Hin as [->|Hin]; [congruence|].
    now rewrite (IH Hin Ha).
  - f_equal. eauto.
Qed.

Lemma rfold_raises {A B : Type} (f : B -> A -> result B) (E : py_error) l :
  (forall b a e, f b a = Raise e -> e = E) ->
  forall b e, rfold f l b = Raise e -> e = E.
Proof.
  intros Hf. induction l as [|a l IH]; simpl; intros b e H; [discriminate|].
  destruct (f b a) eqn:Ea; simpl in H; eauto.
  inversion H; subst. eauto.
Qed.

Lemma rfold_failing {A B : Type} (f : B -> A -> result B) (E : py_error) l a :
  (forall b a e, f b a = Raise e -> e = E) ->
  In a l -> (forall b, f b a = Raise E) -> forall b, rfold f l b = Raise E.
Proof.
  intros Hf. induction l as [|x l IH]; simpl; intros Hin Ha b; [destruct Hin|].
  destruct (f b x) eqn:Ex; simpl.
  - destruct Hin as [->|Hin]; [rewrite Ha in Ex; discriminate|].
    now apply IH.
  - f_equal. eauto.
Qed.

Lemma gather_bit_raises acc bit e : gather_bit acc bit = Raise e -> e = ValueError.
Proof.
  unfold gather_bit. destruct (PyStr.contains "-" bit).
  - destruct (rmap PyStr.int (PyStr.split "-" bit)) as [es|e'] eqn:E; simpl.
    + destruct es as [|? [|? [|? ?]]]; congruence.
    + intros H. inversion H; subst.
      exact (rmap_raises _ _ _ int_raises _ E).
  - destruct (PyStr.int bit) eqn:E; simpl; [discriminate|].
    intros H. inversion H; subst. exact (int_raises _ _ E).
Qed.

Lemma gather_arg_raises acc tok e : gather_arg acc tok = Raise e -> e = ValueError.
Proof. apply rfold_raises. apply gather_bit_raises. Qed.

Lemma gather_bit_reversed acc a b :
  (b < a)%N -> gather_bit acc (render_piece (Span a b)) = Ok acc.
Proof.
  intros Hab. unfold gather_bit. simpl.
  assert (Ha : PyStr.contains "-" (decimal a) = false) by
    (apply (all_contains PyStr.is_digit); [apply decimal_digits | reflexivity]).
  assert (Hb : PyStr.contains "-" (decimal b) = false) by
    (apply (all_contains PyStr.is_digit); [apply decimal_digits | reflexivity]).
  rewrite contains_app. simpl. rewrite orb_true_r.
  rewrite (split_app "-" _ _ Ha), (split_without _ _ Hb). simpl.
  rewrite !int_decimal. simpl. unfold PyList.range.
  replace (Z.to_nat (Z.of_N b + 1 - Z.of_N a)) with 0%nat by lia.
  simpl. now rewrite app_nil_r.
Qed.

End ParserOnMalformed.

(** C4 as stated fails: the reversed range of ["1,3-1"] is passed over, the
    parse succeeds with the index of the literal alone. *)
Lemma reversed_range_skipped :
  get_task_ids ["1,3-1"] false = Ok [0]
  /\ get_task_ids ["1,3-1"] true = Ok [0].
Proof. split; reflexivity. Qed.

(** C2 at the tokens ["9"; "2"]: the set is walked in slot order, 9 before
    2, and the indices come out descending. *)
Lemma get_task_ids_dedup_not_sorted :
  get_task_ids ["9"; "2"] true = Ok [8; 1] /\ ascending [8; 1] = false.
Proof. split; reflexivity. Qed.

(** * The scoring function *)

Section BinarySearch.

Variable a : list Q.
Variable x : Q.

Hypothesis a_ascending :
  forall i j, (i <= j < List.length a)%nat -> (nth i a 0 <= nth j a 0)%Q.

Lemma bisect_loop_step fuel lo hi :
  bisect_loop (S fuel) a x lo hi
  = if (lo <? hi)%nat then
      match nth_error a ((lo + hi) / 2) with
      | Some am =>
          if Qlt_bool x am then bisect_loop fuel a x lo ((lo + hi) / 2)
          else bisect_loop fuel a x (S ((lo + hi) / 2)) hi
      | None => lo
      end
    else lo.
Proof. reflexivity. Qed.

Lemma bisect_loop_window fuel : forall lo hi,
  (hi - lo <= fuel)%nat ->
  (lo <= hi <= List.length a)%nat ->
  (forall i, (i < lo)%nat -> (nth i a 0 <= x)%Q) ->
  (forall i, (hi <= i < List.length a)%nat -> (x < nth i a 0)%Q) ->
  (bisect_loop fuel a x lo hi <= List.length a)%nat
  /\ (forall i, (i < bisect_loop fuel a x lo hi)%nat -> (nth i a 0 <= x)%Q)
  /\ (forall i, (bisect_loop fuel a x lo hi <= i < List.length a)%nat ->
                (x < nth i a 0)%Q).
Proof.
  induction fuel as [|fuel IH]; intros lo hi Hfuel Hwin Hlo Hhi.
  - assert (lo = hi) by lia. subst. simpl. repeat split; auto; lia.
  - rewrite bisect_loop_step.
    destruct (Nat.ltb_spec lo hi) as [Hlt|Hge].
    2:{ assert (lo = hi) by lia. subst. repeat split; auto; lia. }
    pose proof (Nat.div_mod_eq (lo + hi) 2) as Hdiv.
    pose proof (Nat.mod_upper_bound (lo + hi) 2 ltac:(lia)) as Hmod.
    set (mid := ((lo + hi) / 2)%nat) in *.
    assert (Hmid : (lo <= mid < hi)%nat) by lia.
    destruct (nth_error a mid) as [am|] eqn:Eam.
    2:{ apply nth_error_None in Eam. lia. }
    assert (Ham : nth mid a 0%Q = am) by (now apply nth_error_nth).
    unfold Qlt_bool.
    destruct (Qle_bool am x) eqn:Ecmp; cbn [negb].
    + apply Qle_bool_iff in Ecmp.
      apply IH; [lia | lia | | assumption].
      intros i Hi. apply Qle_trans with (nth mid a 0%Q); [|now rewrite Ham].
      apply a_ascending. lia.
    + assert (Hx : (x < am)%Q).
      { apply Qnot_le_lt. intros Hle. apply Qle_bool_iff in Hle. congruence. }
      apply IH; [lia | lia | assumption |].
      intros i Hi. apply Qlt_le_trans with (nth mid a 0%Q); [now rewrite Ham|].
      apply a_ascending. lia.
Qed.

End BinarySearch.

Lemma insertion_point_split x (a : list Q) : forall r,
  (r <= List.length a)%nat ->
  (forall i, (i < r)%nat -> (nth i a 0 <= x)%Q) ->
  (forall i, (r <= i < List.length a)%nat -> (x < nth i a 0)%Q) ->
  insertion_point a x = r.
Proof.
  unfold insertion_point.
  induction a as [|y a IH]; intros r Hr Hlo Hhi; simpl in *.
  - lia.
  - destruct r as [|r].
    + assert (Hy : Qle_bool y x = false).
      { destruct (Qle_bool y x) eqn:E; [|reflexivity].
        apply Qle_bool_iff in E. specialize (Hhi 0%nat ltac:(lia)). simpl in Hhi.
        exfalso. exact (Qlt_not_le _ _ Hhi E). }
      rewrite Hy. apply IH; [lia | intros; lia |].
      intros i Hi. apply (Hhi (S i)). lia.
    + assert (Hy : Qle_bool y x = true).
      { apply Qle_bool_iff. apply (Hlo 0%nat). lia. }
      rewrite Hy. simpl. f_equal. apply IH; [lia | |].
      * intros i Hi. apply (Hlo (S i)). lia.
      * intros i Hi. apply (Hhi (S i)). lia.
Qed.

(** On an ascending list the loop of [bisect] ends, within the fuel it is
    given, at the insertion point. *)
Lemma bisect_insertion_point (a : list Q) (x : Q) :
  (forall i j, (i <= j < List.length a)%nat -> (nth i a 0 <= nth j a 0)%Q) ->
  bisect a x = insertion_point a x.
Proof.
  intros Hasc. symmetry. unfold bisect.
  destruct (bisect_loop_window a x Hasc (List.length a) 0%nat (List.length a))
    as (Hr & Hlo & Hhi); [lia | lia | intros; lia | intros; lia |].
  now apply insertion_point_split.
Qed.

Section Scoring.

Lemma breakpoints_ascending i j :
  (i <= j < List.length breakpoints)%nat ->
  (nth i breakpoints 0 <= nth j breakpoints 0)%Q.
Proof.
  intros H. simpl in H.
  do 6 (destruct i as [|i];
        [do 6 (destruct j as [|j]; [try lia; unfold Qle; simpl; lia|]); lia|]).
  lia.
Qed.

Lemma bisect_breakpoints x :
  bisect breakpoints x = insertion_point breakpoints x.
Proof. apply bisect_insertion_point, breakpoints_ascending. Qed.

Lemma insertion_point_bound x : (insertion_point breakpoints x <= 6)%nat.
Proof. unfold insertion_point. apply (filter_length_le _ breakpoints). Qed.

End Scoring.

(** C7: the score is the symbol at the insertion point of the value in the
    ascending breakpoints, found by binary search; there are seven symbols;
    a value equal to a breakpoint goes to the tier above that breakpoint's;
    the value 1 has insertion point 4 and gets the symbol of tier 4, not the
    one of tier 3. *)
Theorem score_insertion_point :
  (forall x : Q,
      qualitative_task_score_from_value x
      = Ok (nth (insertion_point breakpoints x) scores EmptyString))
  /\ map qualitative_task_score_from_value breakpoints = map Ok (tl scores)
  /\ qualitative_task_score_from_value 1 = Ok (nth 4 scores EmptyString)
  /\ nth 4 scores EmptyString = "*****"
  /\ List.length scores = 7%nat
  /\ (forall x : Q, bisect breakpoints x = insertion_point breakpoints x)
  /\ insertion_point breakpoints 1 = 4%nat
  /\ qualitative_task_score_from_value 1 <> Ok (nth 3 scores EmptyString).
Proof.
  split; [|repeat split; try reflexivity; try discriminate;
           apply bisect_breakpoints].
  intros x. unfold qualitative_task_score_from_value.
  rewrite bisect_breakpoints.
  pose proof (insertion_point_bound x) as Hb.
  destruct (insertion_point breakpoints x) as [|[|[|[|[|[|[|n]]]]]]];
    try reflexivity; lia.
Qed.

(** * The reordering engine and the bulk loops *)

Section Engine.

Lemma extend_nil w : extend w [] = w.
Proof. destruct w. unfold extend. simpl. now rewrite app_nil_r. Qed.

Lemma extend_extend w e1 e2 : extend (extend w e1) e2 = extend w (e1 ++ e2).
Proof. unfold extend. simpl. now rewrite app_assoc. Qed.

Lemma emit_extend e w : emit e w = (Ok tt, extend w [e]).
Proof. reflexivity. Qed.

Lemma move_loop moveto recs : forall w,
  for_each
    (fun real_id =>
       emit (Print (Moving (t_text real_id)
                      (if String.eqb moveto "0" then "top"
                       else if String.eqb moveto "-1" then "bottom"
                       else moveto))) ;;;
       emit (Request (MoveTask (t_id real_id) moveto)) ;;;
       sleep HABITICA_REQUEST_WAIT_TIME)%cmd
    recs w
  = (Ok tt, extend w (flat_map (move_events moveto) recs)).
Proof.
  induction recs as [|t recs IH]; intros w.
  - simpl. now rewrite extend_nil.
  - cbn [for_each]. unfold bind at 1. unfold bind at 1. unfold bind at 1.
    unfold sleep. rewrite !emit_extend.
    rewrite IH, !extend_extend. reflexivity.
Qed.

Lemma requests_move_events moveto recs :
  requests (flat_map (move_events moveto) recs)
  = map (fun t => MoveTask (t_id t) moveto) recs.
Proof. induction recs as [|t recs IH]; simpl; [reflexivity | now rewrite IH]. Qed.

Lemma getitem_raises {A : Type} (l : list A) i e :
  PyList.getitem l i = Raise e -> e = IndexError.
Proof.
  unfold PyList.getitem.
  destruct (PyList.position (List.length l) i) as [k|]; [|congruence].
  destruct (nth_error l k); congruence.
Qed.

Lemma getitem_out_of_range {A : Type} (l : list A) i :
  out_of_range (List.length l) i -> PyList.getitem l i = Raise IndexError.
Proof.
  unfold out_of_range, PyList.getitem, PyList.position. intros H.
  replace ((0 <=? i) && (i <? Z.of_nat (List.length l))) with false by lia.
  replace ((i <? 0) && (- Z.of_nat (List.length l) <=? i)) with false by lia.
  reflexivity.
Qed.

Lemma getitem_from_start {A : Type} (l : list A) i :
  0 <= i < Z.of_nat (List.length l) ->
  exists a, nth_error l (Z.to_nat i) = Some a /\ PyList.getitem l i = Ok a.
Proof.
  intros H. unfold PyList.getitem, PyList.position.
  replace ((0 <=? i) && (i <? Z.of_nat (List.length l))) with true by lia.
  destruct (nth_error l (Z.to_nat i)) as [a|] eqn:E; [now exists a|].
  apply nth_error_None in E. lia.
Qed.

Lemma getitem_from_end {A : Type} (l : list A) i :
  - Z.of_nat (List.length l) <= i < 0 ->
  exists a, nth_error l (Z.to_nat (Z.of_nat (List.length l) + i)) = Some a
            /\ PyList.getitem l i = Ok a.
Proof.
  intros H. unfold PyList.getitem, PyList.position.
  replace ((0 <=? i) && (i <? Z.of_nat (List.length l))) with false by lia.
  replace ((i <? 0) && (- Z.of_nat (List.length l) <=? i)) with true by lia.
  destruct (nth_error l (Z.to_nat (Z.of_nat (List.length l) + i))) as [a|] eqn:E;
    [now exists a|].
  apply nth_error_None in E. lia.
Qed.

Lemma move_unfold args tasks moveto movefrom w :
  move args tasks moveto movefrom w
  = match resolve tasks (match movefrom with
                         | None => tl args
                         | Some m => [m]
                         end) with
    | Ok recs => (Ok tt, extend w (flat_map (move_events moveto) recs))
    | Raise e => (Raise e, w)
    end.
Proof.
  unfold move, resolve, bind, lift.
  destruct (get_task_ids _ false) as [tids|e]; [|reflexivity]. simpl.
  destruct (rmap (PyList.getitem tasks) tids) as [recs|e]; [|reflexivity].
  apply move_loop.
Qed.

Lemma done_step todos tid w :
  (t <- lift (PyList.getitem todos tid) ;;
   emit (Request (ScoreTask (t_id t) "up")) ;;;
   t' <- lift (PyList.getitem todos tid) ;;
   emit (Print (MarkedTodoComplete (t_text t'))) ;;;
   sleep HABITICA_REQUEST_WAIT_TIME)%cmd w
  = match PyList.getitem todos tid with
    | Ok t => (Ok tt, extend w (done_events t))
    | Raise e => (Raise e, w)
    end.
Proof.
  unfold bind, lift, sleep, emit. cbv beta.
  destruct (PyList.getitem todos tid) as [t|e]; [|reflexivity].
  unfold extend, done_events. cbn [cache_file trace].
  now rewrite <- !app_assoc.
Qed.

Lemma done_loop_prefix todos tids1 : forall w recs tids2,
  rmap (PyList.getitem todos) tids1 = Ok recs ->
  todos_done_loop todos (tids1 ++ tids2) w
  = todos_done_loop todos tids2 (extend w (flat_map done_events recs)).
Proof.
  unfold todos_done_loop.
  induction tids1 as [|tid tids1 IH]; intros w recs tids2 H.
  - inversion H; subst. simpl. now rewrite extend_nil.
  - cbn [rmap] in H.
    destruct (PyList.getitem todos tid) as [t|] eqn:Et; simpl in H; [|discriminate].
    destruct (rmap (PyList.getitem todos) tids1) as [recs'|] eqn:Er;
      simpl in H; [|discriminate].
    inversion H; subst.
    cbn [app for_each]. unfold bind at 1. rewrite done_step, Et.
    rewrite (IH _ recs' tids2 eq_refl), extend_extend. reflexivity.
Qed.

Lemma done_loop_failing todos tid tids w :
  out_of_range (List.length todos) tid ->
  todos_done_loop todos (tid :: tids) w = (Raise IndexError, w).
Proof.
  intros H. unfold todos_done_loop. cbn [for_each].
  unfold bind at 1. now rewrite done_step, (getitem_out_of_range todos tid H).
Qed.

End Engine.

(** C6: [move] first resolves every index of the order-preserving
    expression to its task record; a failure there ends the command with no
    event at all.  Otherwise it goes through the records in the order of the
    expression and, for each, prints, issues one move request and pauses for
    the fixed delay of half a unit.  The [top] directive sends position 0 and
    [tob] sends -1. *)
Theorem move_resolves_then_requests :
  (forall args tasks moveto movefrom w,
      move args tasks moveto movefrom w
      = match resolve tasks (match movefrom with
                             | None => tl args
                             | Some m => [m]
                             end) with
        | Ok recs => (Ok tt, extend w (flat_map (move_events moveto) recs))
        | Raise e => (Raise e, w)
        end)
  /\ (forall moveto recs,
         requests (flat_map (move_events moveto) recs)
         = map (fun t => MoveTask (t_id t) moveto) recs)
  /\ (forall args tasks otherwise,
         is_in "top" args = true ->
         reorder args tasks otherwise = move args tasks "0" None)
  /\ (forall args tasks otherwise,
         is_in "top" args = false -> is_in "tob" args = true ->
         reorder args tasks otherwise = move args tasks "-1" None)
  /\ (HABITICA_REQUEST_WAIT_TIME == 1 # 2)%Q.
Proof.
  split; [exact move_unfold|].
  split; [exact requests_move_events|].
  split; [|split].
  - intros args tasks otherwise H. unfold reorder. now rewrite H.
  - intros args tasks otherwise H1 H2. unfold reorder. now rewrite H1, H2.
  - reflexivity.
Qed.

Lemma move_resolves_then_requests_witness :
  reorder ["top"; "1"; "3"]
    [mkTask "a1" "A" "" false; mkTask "b2" "B" "" false; mkTask "c3" "C" "" false]
    (ret tt) (mkWorld None [])
  = (Ok tt,
     mkWorld None
       [Print (Moving "A" "top"); Request (MoveTask "a1" "0"); Sleep (5 # 10);
        Print (Moving "C" "top"); Request (MoveTask "c3" "0"); Sleep (5 # 10)]).
Proof.
  destruct move_resolves_then_requests as (Hmove & _ & Htop & _ & _).
  rewrite (Htop ["top"; "1"; "3"] _ _ eq_refl), Hmove. reflexivity.
Defined.

(** C5, as amended: an index beyond either end of the task list raises
    [IndexError]: in [move] before any event, in the loop of [todos done]
    after the events of the indices before it.  A negative index down to
    minus the length raises nothing: it addresses the task that far from the
    end, so the literal ["0"] moves the last task. *)
Theorem index_resolution :
  (forall args (tasks : list Task) moveto movefrom tids w,
      get_task_ids (match movefrom with
                    | None => tl args
                    | Some m => [m]
                    end) false = Ok tids ->
      Exists (out_of_range (List.length tasks)) tids ->
      move args tasks moveto movefrom w = (Raise IndexError, w))
  /\ (forall args (todos : list Task) tids1 tid tids2 recs w,
         get_task_ids (tl args) true = Ok (tids1 ++ tid :: tids2) ->
         rmap (PyList.getitem todos) tids1 = Ok recs ->
         out_of_range (List.length todos) tid ->
         todos_done args todos w
         = (Raise IndexError, extend w (flat_map done_events recs)))
  /\ (forall (tasks : list Task) i,
         - Z.of_nat (List.length tasks) <= i < 0 ->
         exists t,
           nth_error tasks (Z.to_nat (Z.of_nat (List.length tasks) + i)) = Some t
           /\ PyList.getitem tasks i = Ok t)
  /\ (forall cmd (tasks : list Task) t moveto w,
         move [cmd; "0"] (tasks ++ [t]) moveto None w
         = (Ok tt, extend w (move_events moveto t))).
Proof.
  split; [|split; [|split]].
  - intros args tasks moveto movefrom tids w Hids Hex.
    rewrite move_unfold. unfold resolve. rewrite Hids. cbn [rbind].
    apply Exists_exists in Hex as (tid & Hin & Hout).
    now rewrite (rmap_failing _ IndexError tids tid (getitem_raises tasks) Hin
                   (getitem_out_of_range tasks tid Hout)).
  - intros args todos tids1 tid tids2 recs w Hids Hrecs Hout.
    unfold todos_done. unfold bind at 1. unfold lift at 1. rewrite Hids.
    unfold bind at 1.
    rewrite (done_loop_prefix todos tids1 w recs (tid :: tids2) Hrecs).
    now rewrite (done_loop_failing todos tid tids2 _ Hout).
  - intros tasks i Hi. now apply getitem_from_end.
  - intros cmd tasks t moveto w. rewrite move_unfold. unfold resolve.
    change (get_task_ids (tl [cmd; "0"]) false) with (Ok (A:=list Z) [-1]).
    cbn [rbind rmap].
    destruct (getitem_from_end (tasks ++ [t]) (-1)) as (t' & Hn & Hg).
    { rewrite length_app. simpl. lia. }
    rewrite Hg. cbn [rbind flat_map]. rewrite app_nil_r.
    replace (Z.to_nat (Z.of_nat (List.length (tasks ++ [t])) + -1))
      with (List.length tasks) in Hn by (rewrite length_app; simpl; lia).
    rewrite nth_error_app2, Nat.sub_diag in Hn by lia.
    simpl in Hn. now inversion Hn.
Qed.

Lemma index_resolution_witness :
  move ["top"; "2"; "7"]
    [mkTask "a1" "A" "" false; mkTask "b2" "B" "" false; mkTask "c3" "C" "" false]
    "0" None (mkWorld None [])
  = (Raise IndexError, mkWorld None [])
  /\ todos_done ["done"; "1"; "7"]
       [mkTask "a1" "A" "" false; mkTask "b2" "B" "" false; mkTask "c3" "C" "" false]
       (mkWorld None [])
     = (Raise IndexError,
        mkWorld None
          [Request (ScoreTask "a1" "up"); Print (MarkedTodoComplete "A");
           Sleep (5 # 10)])
  /\ PyList.getitem
       [mkTask "a1" "A" "" false; mkTask "b2" "B" "" false; mkTask "c3" "C" "" false]
       (-2)
     = Ok (mkTask "b2" "B" "" false).
Proof.
  destruct index_resolution as (Hmove & Hdone & Hneg & _).
  split; [|split].
  - apply (Hmove _ _ _ None [1; 6]); [reflexivity|].
    apply Exists_cons_tl, Exists_cons_hd. right. simpl. lia.
  - apply (Hdone _ _ [0] 6 [] [mkTask "a1" "A" "" false]); [reflexivity..|].
    right. simpl. lia.
  - destruct (Hneg [mkTask "a1" "A" "" false; mkTask "b2" "B" "" false;
                    mkTask "c3" "C" "" false] (-2)) as (t & Hn & Hg);
      [simpl; lia|].
    simpl in Hn. inversion Hn; subst. exact Hg.
Defined.

(** C5 as stated fails: the literal ["0"] gives the index -1, and [top]
    moves the last task instead of failing. *)
Lemma literal_zero_moves_last_task :
  reorder ["top"; "0"]
    [mkTask "a1" "A" "" false; mkTask "b2" "B" "" false; mkTask "c3" "C" "" false]
    (ret tt) (mkWorld None [])
  = (Ok tt,
     mkWorld None
       [Print (Moving "C" "top"); Request (MoveTask "c3" "0"); Sleep (5 # 10)]).
Proof. reflexivity. Qed.

(** * The quest cache and the status query *)

Section QuestCache.

Lemma update_nonempty {V : Type} (d : list (string * V)) k v : Cfg.update d k v <> [].
Proof. destruct d as [|[k' v'] d]; simpl; [|destruct (String.eqb k' k)]; discriminate. Qed.

Lemma update_all_nonempty d e : d <> [] -> Cfg.update_all d e <> [].
Proof.
  unfold Cfg.update_all. revert d.
  induction e as [|kv e IH]; simpl; intros d Hd; [assumption|].
  apply IH, update_nonempty.
Qed.

Lemma read_defaults_nonempty p f :
  Cfg.defaults p <> [] -> Cfg.defaults (Cfg.read p f) <> [].
Proof.
  destruct f as [f|]; simpl; [|auto]. apply update_all_nonempty.
Qed.

(** [load_cache] touches neither the file nor the trace, and the parser it
    returns has defaults and a [Quest] section. *)
Lemma load_cache_spec w :
  exists cache,
    load_cache w = (Ok cache, w)
    /\ Cfg.defaults cache <> []
    /\ Cfg.has_section cache SECTION_CACHE_QUEST = true.
Proof.
  unfold load_cache.
  set (c := Cfg.read (Cfg.create cache_defaults) (cache_file w)).
  assert (Hd : Cfg.defaults c <> []) by (apply read_defaults_nonempty; discriminate).
  destruct (Cfg.has_section c SECTION_CACHE_QUEST) eqn:Hs.
  - exists c. auto.
  - unfold Cfg.add_section. rewrite Hs. simpl.
    eexists. split; [reflexivity|]. split; [exact Hd|].
    unfold Cfg.has_section in *. simpl.
    destruct (Cfg.lookup (Cfg.sections c) SECTION_CACHE_QUEST) eqn:Hl; [discriminate|].
    clear - Hl. induction (Cfg.sections c) as [|[k v] l IH]; simpl in *.
    + reflexivity.
    + destruct (String.eqb k SECTION_CACHE_QUEST); [discriminate | auto].
Qed.

Lemma lookup_update_same {V : Type} (d : list (string * V)) k v :
  Cfg.lookup (Cfg.update d k v) k = Some v.
Proof.
  induction d as [|[k' v'] d IH]; simpl.
  - now rewrite String.eqb_refl.
  - destruct (String.eqb k' k) eqn:E; simpl; now rewrite E.
Qed.

Lemma set_quest_valid p option value :
  Cfg.has_section p SECTION_CACHE_QUEST = true ->
  Cfg.valid_syntax value = true ->
  exists p', Cfg.set p SECTION_CACHE_QUEST option value = Ok p'
             /\ Cfg.defaults p' = Cfg.defaults p
             /\ Cfg.has_section p' SECTION_CACHE_QUEST = true.
Proof.
  unfold Cfg.has_section, Cfg.set, SECTION_CACHE_QUEST. intros Hs Hv. rewrite Hv.
  destruct (Cfg.lookup (Cfg.sections p) "Quest") as [d|] eqn:Hl;
    [|discriminate].
  cbn [negb String.eqb Ascii.eqb Bool.eqb orb].
  eexists. split; [reflexivity|]. split; [reflexivity|].
  cbn [Cfg.sections]. now rewrite lookup_update_same.
Qed.

Lemma set_all_spec kwargs : forall p,
  Cfg.has_section p SECTION_CACHE_QUEST = true ->
  (forallb (fun kv => Cfg.valid_syntax (snd kv)) kwargs = true ->
   exists p', rfold (fun c kv => Cfg.set c SECTION_CACHE_QUEST (fst kv) (snd kv))
                    kwargs p = Ok p'
              /\ Cfg.defaults p' = Cfg.defaults p)
  /\ (forallb (fun kv => Cfg.valid_syntax (snd kv)) kwargs = false ->
      rfold (fun c kv => Cfg.set c SECTION_CACHE_QUEST (fst kv) (snd kv))
            kwargs p = Raise ValueError).
Proof.
  induction kwargs as [|[k v] kwargs IH]; intros p Hs; simpl.
  - split; [intros _; now exists p | discriminate].
  - destruct (Cfg.valid_syntax v) eqn:Hv; simpl.
    + destruct (set_quest_valid p k v Hs Hv) as (p' & Hset & Hd & Hs').
      rewrite Hset. simpl.
      destruct (IH p' Hs') as [IHok IHbad]. split.
      * intros Hall. destruct (IHok Hall) as (p'' & Hf & Hd'').
        exists p''. split; [assumption | congruence].
      * assumption.
    + split; [discriminate|]. intros _.
      unfold Cfg.set. now rewrite Hv.
Qed.

Lemma text_nonempty p : Cfg.defaults p <> [] -> Cfg.text p <> [].
Proof.
  unfold Cfg.text. destruct (Cfg.defaults p); [congruence|]. discriminate.
Qed.

(** The cache is never written: a value with a stray percent sign is
    refused before the file is opened, and otherwise the file is emptied and
    the first string handed to the binary file raises [TypeError]. *)
Lemma update_quest_cache_raises kwargs w :
  update_quest_cache kwargs w
  = if forallb (fun kv => Cfg.valid_syntax (snd kv)) kwargs
    then (Raise TypeError, mkWorld (Some Cfg.empty_file) (trace w))
    else (Raise ValueError, w).
Proof.
  unfold update_quest_cache.
  destruct (load_cache_spec w) as (cache & Hload & Hd & Hs).
  unfold bind at 1. rewrite Hload.
  destruct (set_all_spec kwargs cache Hs) as [Hok Hbad].
  unfold bind at 1. unfold lift at 1.
  destruct (forallb (fun kv => Cfg.valid_syntax (snd kv)) kwargs).
  - destruct (Hok eq_refl) as (p' & Hf & Hd'). rewrite Hf.
    unfold bind at 1. unfold open_wb at 1. unfold bind at 1.
    assert (Ht : Cfg.text p' <> []) by (apply text_nonempty; congruence).
    destruct (Cfg.text p') as [|chunk chunks]; [congruence|].
    reflexivity.
  - now rewrite (Hbad eq_refl).
Qed.

Lemma lift_bind {A B : Type} (r : result A) (k : A -> M B) w :
  bind (lift r) k w = match r with Ok a => k a w | Raise e => (Raise e, w) end.
Proof. unfold bind, lift. now destruct r. Qed.

(** On an active quest whose key is the cached [quest_key], the quest part
    of the status query leaves the file and the trace as they are (no
    request at all, so no content fetch), ends with the cache it started
    with, and shows the cached maximum and title. *)
Lemma active_quest_cached r cache quest_data key w :
  Py.subscript quest_data (JStr "key") = Ok (JStr key) ->
  Cfg.get cache SECTION_CACHE_QUEST "quest_key" = Ok key ->
  exists res,
    active_quest r cache quest_data w = (res, w)
    /\ forall text cache',
        res = Ok (text, cache') ->
        cache' = cache
        /\ exists progress quest_max quest_title,
            Cfg.get cache SECTION_CACHE_QUEST "quest_max" = Ok quest_max
            /\ Cfg.get cache SECTION_CACHE_QUEST "quest_title" = Ok quest_title
            /\ text = (PyStr.of_Z progress ++ "/" ++ quest_max ++ " " ++ dquote
                         ++ quest_title ++ dquote)%string.
Proof.
  intros Hkey Hget. unfold active_quest.
  rewrite lift_bind, Hkey, lift_bind, Hget.
  unfold Py.str_ne. rewrite String.eqb_refl. cbn [negb].
  unfold bind at 1. unfold ret at 1. rewrite lift_bind.
  destruct (Cfg.get cache SECTION_CACHE_QUEST "quest_type") as [qt|e];
    [|eexists; split; [reflexivity | discriminate]].
  rewrite lift_bind.
  match goal with
  | |- context [match ?r with Ok _ => _ | Raise _ => _ end] =>
      destruct r as [qp|e]
  end; [|eexists; split; [reflexivity | discriminate]].
  rewrite lift_bind.
  destruct (Py.int qp) as [n|e]; [|eexists; split; [reflexivity | discriminate]].
  rewrite lift_bind.
  destruct (Cfg.get cache SECTION_CACHE_QUEST "quest_max") as [qm|e];
    [|eexists; split; [reflexivity | discriminate]].
  rewrite lift_bind.
  destruct (Cfg.get cache SECTION_CACHE_QUEST "quest_title") as [qtl|e];
    [|eexists; split; [reflexivity | discriminate]].
  eexists. split; [reflexivity|].
  intros text cache' H. inversion H; subst. split; [reflexivity|].
  exists n, qm, qtl. auto.
Qed.

End QuestCache.

Section StatusQuery.

Lemma emit_bind {B : Type} e (k : unit -> M B) w :
  bind (emit e) k w = k tt (extend w [e]).
Proof. reflexivity. Qed.

(** The refresh of a stale cache never completes: whatever the content
    definition, it ends in an exception after the content was fetched. *)
Lemma refresh_quest_raises r quest_key w :
  exists e w',
    refresh_quest r quest_key w = (Raise e, w')
    /\ trace w' = trace w ++ [Request GetContent].
Proof.
  unfold refresh_quest. rewrite emit_bind.
  set (w1 := extend w [Request GetContent]).
  assert (Hw1 : trace w1 = trace w ++ [Request GetContent]) by reflexivity.
  rewrite lift_bind.
  match goal with
  | |- context [match ?r with Ok _ => _ | Raise _ => _ end] => destruct r as [title|e]
  end; [|eauto].
  rewrite lift_bind.
  match goal with
  | |- context [match ?r with Ok _ => _ | Raise _ => _ end] => destruct r as [c|e]
  end; [|eauto].
  unfold bind at 1.
  destruct (Py.truthy c).
  - unfold lift at 1.
    match goal with
    | |- context [match ?r with Ok _ => _ | Raise _ => _ end] =>
        destruct r as [[qt m]|e] eqn:E
    end; [|eauto].
    exfalso. revert E.
    destruct (Py.subscript (remote_content r) (JStr "quests")) as [qs|]; simpl;
      [|discriminate].
    destruct (Py.subscript qs quest_key) as [q|]; simpl; [|discriminate].
    destruct (Py.subscript q (JStr "collect")) as [coll|]; simpl; [|discriminate].
    destruct coll; simpl; discriminate.
  - rewrite lift_bind.
    match goal with
    | |- context [match ?r with Ok _ => _ | Raise _ => _ end] => destruct r as [b|e]
    end; [|eauto].
    destruct (Py.truthy b).
    + unfold lift at 1.
      match goal with
      | |- context [match ?r with Ok _ => _ | Raise _ => _ end] =>
          destruct r as [[qt m]|e] eqn:E
      end; [|eauto].
      cbn [fst snd].
      destruct qt as [qt|]; [|unfold bind, raise; eauto].
      unfold bind at 1. unfold ret at 1.
      rewrite update_quest_cache_raises.
      destruct (forallb _ _); eauto.
    + unfold ret at 1. cbn [fst snd]. unfold bind, raise. eauto.
Qed.

(** A status query on an active quest whose key is the cached [quest_key]
    asks for the party and the group and nothing else: the content
    definition is not fetched, and the cache file and the cache are as
    before. *)
Lemma party_quest_cached r cache g name title quest_data a key w :
  Py.truthy (remote_party r) = true ->
  Py.subscript (remote_party r) (JInt 0) = Ok g ->
  Py.subscript g (JStr "id") = Ok (JStr name) ->
  Py.subscript g (JStr "name") = Ok title ->
  Py.subscript (remote_group r name) (JStr "quest") = Ok quest_data ->
  Py.truthy quest_data = true ->
  Py.subscript quest_data (JStr "active") = Ok a ->
  Py.truthy a = true ->
  Py.subscript quest_data (JStr "key") = Ok (JStr key) ->
  Cfg.get cache SECTION_CACHE_QUEST "quest_key" = Ok key ->
  exists res,
    party_quest r cache w
    = (res, extend w [Request GetParty; Request (GetGroup name)])
    /\ forall text cache', res = Ok (text, cache') -> cache' = cache.
Proof.
  intros Hp Hg Hid Hname Hq Hqt Ha Hat Hkey Hget.
  unfold party_quest. rewrite emit_bind. cbv zeta. rewrite Hp.
  rewrite lift_bind, Hg. cbn [rbind]. rewrite Hid.
  rewrite lift_bind. cbn [rbind]. rewrite Hname.
  unfold bind at 1. unfold ret at 1.
  rewrite emit_bind, extend_extend. cbn [app].
  rewrite lift_bind, Hq, Hqt.
  rewrite lift_bind, Ha. cbn [rbind]. rewrite Hat.
  destruct (active_quest_cached r cache quest_data key
              (extend w [Request GetParty; Request (GetGroup name)]) Hkey Hget)
    as (res & Hres & Hcache).
  exists res. split; [exact Hres|].
  intros text cache' E. now destruct (Hcache text cache' E).
Qed.

End StatusQuery.

(** C1 at a boss quest and at a quest of neither shape, with no cache file
    to start with: the first status query fetches the content definition and
    ends in an exception without a cache record written, so the second query
    against the same live quest fetches the content definition again. *)
Theorem status_twice_fetches_twice :
  (let w1 := after (status (sample_remote "qB")) no_cache in
   let w2 := after (status (sample_remote "qB")) w1 in
   fst (status (sample_remote "qB") no_cache) = Raise TypeError
   /\ fst (status (sample_remote "qB") w1) = Raise TypeError
   /\ count_content_fetches (trace w1) = 1%nat
   /\ count_content_fetches (trace w2) = 2%nat)
  /\ (let w1 := after (status (sample_remote "qX")) no_cache in
      let w2 := after (status (sample_remote "qX")) w1 in
      fst (status (sample_remote "qX") no_cache) = Raise UnboundLocalError
      /\ count_content_fetches (trace w1) = 1%nat
      /\ count_content_fetches (trace w2) = 2%nat).
Proof. repeat split; reflexivity. Qed.

(** C8 at the quest [qX], whose content definition has neither a collection
    nor a boss: the status query ends in [UnboundLocalError] on the unbound
    [qt], and nothing of the report is printed. *)
Theorem status_unknown_quest_type_crashes :
  status (sample_remote "qX") no_cache
  = (Raise UnboundLocalError,
     mkWorld None
       [Request GetUser; Request GetParty; Request (GetGroup "p1");
        Request GetContent])
  /\ prints (trace (after (status (sample_remote "qX")) no_cache)) = [].
Proof. split; reflexivity. Qed.

(** C9: no record is ever written.  [update_quest_cache] raises for every
    record and every cache file; for the record of the boss quest [qB] the
    file is left empty, and what is read back is the default empty
    [quest_key] and no [quest_type]. *)
Theorem quest_cache_write_fails :
  (forall kwargs w, exists e w', update_quest_cache kwargs w = (Raise e, w'))
  /\ (let w1 := after (update_quest_cache (quest_record "qB" "hp" "300" "Boss"))
                      no_cache in
      update_quest_cache (quest_record "qB" "hp" "300" "Boss") no_cache
      = (Raise TypeError, mkWorld (Some Cfg.empty_file) [])
      /\ fst ((cache <- load_cache ;;
               lift (Cfg.get cache SECTION_CACHE_QUEST "quest_key"))%cmd w1)
         = Ok EmptyString
      /\ fst ((cache <- load_cache ;;
               lift (Cfg.get cache SECTION_CACHE_QUEST "quest_type"))%cmd w1)
         = Raise NoOptionError).
Proof.
  split.
  - intros kwargs w. rewrite update_quest_cache_raises.
    destruct (forallb _ _); eauto.
  - repeat split; reflexivity.
Qed.

(** * More on the identifier parser *)

Section ParserAlgebra.

Lemma rfold_app {A B : Type} (f : B -> A -> result B) l1 l2 b :
  rfold f (l1 ++ l2) b = (b' <- rfold f l1 b ;; rfold f l2 b')%res.
Proof.
  revert b. induction l1 as [|a l1 IH]; intros b; simpl; [reflexivity|].
  destruct (f b a); simpl; [apply IH | reflexivity].
Qed.

Lemma rfold_invariant {A B : Type} (f : B -> A -> result B) (P : B -> Prop) l :
  (forall b a b', f b a = Ok b' -> P b -> P b') ->
  forall b b', rfold f l b = Ok b' -> P b -> P b'.
Proof.
  intros Hf. induction l as [|a l IH]; simpl; intros b b' H Hb.
  - now inversion H; subst.
  - destruct (f b a) as [b1|] eqn:E; simpl in H; [|discriminate].
    eapply IH; eauto.
Qed.

Lemma rmap_Forall {A B : Type} (f : A -> result B) (P : A -> Prop) (Q : B -> Prop) l :
  (forall a b, P a -> f a = Ok b -> Q b) ->
  forall bs, Forall P l -> rmap f l = Ok bs -> Forall Q bs.
Proof.
  intros Hf. induction l as [|a l IH]; simpl; intros bs HP H.
  - inversion H; subst. constructor.
  - inversion HP as [|? ? Ha Hl]; subst.
    destruct (f a) as [b|] eqn:E; simpl in H; [|discriminate].
    destruct (rmap f l) as [bs'|]; simpl in H; [|discriminate].
    inversion H; subst. constructor; eauto.
Qed.

Lemma split_app_sep sep a b :
  PyStr.split sep (a ++ String sep b) = PyStr.split sep a ++ PyStr.split sep b.
Proof.
  induction a as [|c a IH]; simpl.
  - now rewrite Ascii.eqb_refl.
  - rewrite IH. destruct (Ascii.eqb c sep); [reflexivity|].
    pose proof (split_nonempty sep a) as Hn.
    destruct (PyStr.split sep a); [congruence | reflexivity].
Qed.

Lemma split_parts_without sep s :
  Forall (fun p => PyStr.contains sep p = false) (PyStr.split sep s).
Proof.
  induction s as [|c s IH]; simpl.
  - repeat constructor.
  - destruct (Ascii.eqb c sep) eqn:E.
    + constructor; [reflexivity | assumption].
    + destruct (PyStr.split sep s) as [|p ps]; simpl.
      * repeat constructor. simpl. now rewrite E.
      * inversion IH; subst. constructor; [|assumption].
        simpl. now rewrite E.
Qed.

Lemma lstrip_contains c s :
  PyStr.contains c (PyStr.lstrip s) = true -> PyStr.contains c s = true.
Proof.
  induction s as [|a s IH]; simpl; [auto|].
  destruct (PyStr.is_space a); [|auto].
  intros H. now rewrite (IH H), orb_true_r.
Qed.

Lemma rstrip_contains c s :
  PyStr.contains c (PyStr.rstrip s) = true -> PyStr.contains c s = true.
Proof.
  induction s as [|a s IH]; simpl; [auto|].
  destruct (PyStr.rstrip s) as [|b r].
  - destruct (PyStr.is_space a); simpl; [discriminate|].
    rewrite orb_false_r. intros ->. reflexivity.
  - simpl in *. intros H. apply orb_true_iff in H as [H|H].
    + now rewrite H.
    + now rewrite (IH H), orb_true_r.
Qed.

Lemma unsigned_literal_nonneg s z : PyStr.unsigned_literal s = Some z -> 0 <= z.
Proof.
  unfold PyStr.unsigned_literal.
  destruct (PyStr.digits false s); [|discriminate].
  destruct (NilEmpty.uint_of_string s0); [|discriminate].
  intros H. inversion H. lia.
Qed.

(** A literal without a hyphen denotes no negative number. *)
Lemma int_nonneg s z :
  PyStr.contains "-" s = false -> PyStr.int s = Ok z -> 0 <= z.
Proof.
  intros Hs. unfold PyStr.int.
  assert (Ht : PyStr.contains "-" (PyStr.rstrip (PyStr.lstrip s)) = false).
  { destruct (PyStr.contains "-" (PyStr.rstrip (PyStr.lstrip s))) eqn:E; [|reflexivity].
    apply rstrip_contains, lstrip_contains in E. congruence. }
  destruct (PyStr.rstrip (PyStr.lstrip s)) as [|c t].
  - destruct (PyStr.unsigned_literal EmptyString) eqn:E; [|discriminate].
    intros H. inversion H; subst. eapply unsigned_literal_nonneg; eauto.
  - simpl in Ht. apply orb_false_iff in Ht as [Hc _]. rewrite Hc.
    destruct (Ascii.eqb c "+").
    + destruct (PyStr.unsigned_literal t) eqn:E; [|discriminate].
      intros H. inversion H; subst. eapply unsigned_literal_nonneg; eauto.
    + destruct (PyStr.unsigned_literal (String c t)) eqn:E; [|discriminate].
      intros H. inversion H; subst. eapply unsigned_literal_nonneg; eauto.
Qed.

Lemma range_from a b : Forall (fun v => a <= v) (PyList.range a b).
Proof.
  unfold PyList.range. apply Forall_forall. intros v Hv.
  apply in_map_iff in Hv as (i & <- & _). lia.
Qed.

Lemma gather_bit_nonneg acc bit acc' :
  gather_bit acc bit = Ok acc' ->
  Forall (fun v => 0 <= v) acc -> Forall (fun v => 0 <= v) acc'.
Proof.
  unfold gather_bit. intros H Hacc.
  destruct (PyStr.contains "-" bit) eqn:Hc.
  - destruct (rmap PyStr.int (PyStr.split "-" bit)) as [es|] eqn:E; simpl in H;
      [|discriminate].
    assert (Hes : Forall (fun v => 0 <= v) es).
    { eapply (rmap_Forall PyStr.int (fun p => PyStr.contains "-" p = false)).
      - intros a b Ha Hb. eapply int_nonneg; eauto.
      - apply split_parts_without.
      - exact E. }
    destruct es as [|start [|stop [|? ?]]]; try discriminate.
    inversion H; subst. apply Forall_app. split; [assumption|].
    inversion Hes; subst.
    eapply Forall_impl; [|apply range_from]. simpl. intros; lia.
  - destruct (PyStr.int bit) as [v|] eqn:E; simpl in H; [|discriminate].
    inversion H; subst. apply Forall_app. split; [assumption|].
    repeat constructor. eapply int_nonneg; eauto.
Qed.

Lemma gather_nonneg toks vs :
  gather toks = Ok vs -> Forall (fun v => 0 <= v) vs.
Proof.
  unfold gather. intros H.
  eapply (rfold_invariant gather_arg (Forall (fun v => 0 <= v))); [|exact H|constructor].
  intros b a b' Hg Hb. unfold gather_arg in Hg.
  eapply (rfold_invariant gather_bit (Forall (fun v => 0 <= v))); [|exact Hg|exact Hb].
  intros; eapply gather_bit_nonneg; eauto.
Qed.

Lemma gather_bit_prefix acc bit :
  gather_bit acc bit = (vs <- gather_bit [] bit ;; Ok (acc ++ vs))%res.
Proof.
  unfold gather_bit. destruct (PyStr.contains "-" bit).
  - destruct (rmap PyStr.int (PyStr.split "-" bit)) as [es|]; simpl; [|reflexivity].
    destruct es as [|start [|stop [|? ?]]]; reflexivity.
  - destruct (PyStr.int bit); reflexivity.
Qed.

Lemma gather_bits_prefix bits : forall acc,
  rfold gather_bit bits acc = (vs <- rfold gather_bit bits [] ;; Ok (acc ++ vs))%res.
Proof.
  induction bits as [|bit bits IH]; intros acc; simpl.
  - now rewrite app_nil_r.
  - rewrite (gather_bit_prefix acc bit).
    destruct (gather_bit [] bit) as [vs|]; simpl; [|reflexivity].
    rewrite (IH (acc ++ vs)), (IH vs).
    destruct (rfold gather_bit bits []); simpl; [|reflexivity].
    now rewrite app_assoc.
Qed.

Lemma gather_args_prefix toks : forall acc,
  rfold gather_arg toks acc = (vs <- rfold gather_arg toks [] ;; Ok (acc ++ vs))%res.
Proof.
  induction toks as [|tok toks IH]; intros acc; simpl.
  - now rewrite app_nil_r.
  - unfold gather_arg at 1 3. rewrite (gather_bits_prefix _ acc).
    destruct (rfold gather_bit (PyStr.split "," tok) []) as [vs|]; simpl; [|reflexivity].
    rewrite (IH (acc ++ vs)), (IH vs).
    destruct (rfold gather_arg toks []); simpl; [|reflexivity].
    now rewrite app_assoc.
Qed.

Lemma gather_app toks1 toks2 :
  gather (toks1 ++ toks2)
  = (a <- gather toks1 ;; b <- gather toks2 ;; Ok (a ++ b))%res.
Proof.
  unfold gather. rewrite rfold_app.
  destruct (rfold gather_arg toks1 []) as [a|]; simpl; [|reflexivity].
  apply gather_args_prefix.
Qed.

Lemma gather_comma pre a b post :
  gather (pre ++ (a ++ "," ++ b)%string :: post) = gather (pre ++ a :: b :: post).
Proof.
  unfold gather. rewrite !rfold_app.
  destruct (rfold gather_arg pre []) as [acc|]; simpl; [|reflexivity].
  unfold gather_arg at 1 3 4.
  change (a ++ "," ++ b)%string with (a ++ String "," b)%string.
  rewrite split_app_sep, rfold_app.
  destruct (rfold gather_bit (PyStr.split "," a) acc); reflexivity.
Qed.

Lemma gather_raises toks e : gather toks = Raise e -> e = ValueError.
Proof. apply rfold_raises. apply gather_arg_raises. Qed.

End ParserAlgebra.

(** X1: In order-preserving mode the parser raises nothing but [ValueError],
    and every index it returns is at least -1: a hyphen always opens the
    range form, so no negative literal gets through, and the lowest literal,
    0, gives -1. *)
Theorem get_task_ids_error_and_floor (toks : list string) :
  (forall e, get_task_ids toks false = Raise e -> e = ValueError)
  /\ (forall ids, get_task_ids toks false = Ok ids ->
                  Forall (fun i => -1 <= i) ids).
Proof.
  unfold get_task_ids. split.
  - intros e H. destruct (gather toks) as [vs|e'] eqn:E; simpl in H; [discriminate|].
    inversion H; subst. eapply gather_raises; eauto.
  - intros ids H. destruct (gather toks) as [vs|] eqn:E; simpl in H; [|discriminate].
    inversion H; subst. apply gather_nonneg in E.
    apply Forall_forall. intros i Hi.
    apply in_map_iff in Hi as (v & <- & Hv).
    rewrite Forall_forall in E. specialize (E v Hv). lia.
Qed.

Lemma get_task_ids_error_and_floor_witness :
  get_task_ids ["0-2"; "+4"] false = Ok [-1; 0; 1; 3]
  /\ Forall (fun i => -1 <= i) [-1; 0; 1; 3].
Proof.
  split; [reflexivity|].
  apply (proj2 (get_task_ids_error_and_floor ["0-2"; "+4"])). reflexivity.
Defined.

(** X2: Parsing in order-preserving mode goes token by token: the indices of a
    concatenation of token lists are the indices of the first list followed
    by those of the second, and the parse fails when either part fails. *)
Theorem get_task_ids_concat (toks1 toks2 : list string) :
  get_task_ids (toks1 ++ toks2) false
  = (a <- get_task_ids toks1 false ;;
     b <- get_task_ids toks2 false ;;
     Ok (a ++ b))%res.
Proof.
  unfold get_task_ids. rewrite gather_app.
  destruct (gather toks1) as [a|]; simpl; [|reflexivity].
  destruct (gather toks2) as [b|]; simpl; [|reflexivity].
  now rewrite map_app.
Qed.

(** X3: A comma inside a token separates ids exactly as a break between two
    tokens does, in either mode. *)
Theorem get_task_ids_comma (pre post : list string) (a b : string) (mode : bool) :
  get_task_ids (pre ++ (a ++ "," ++ b)%string :: post) mode
  = get_task_ids (pre ++ a :: b :: post) mode.
Proof. unfold get_task_ids. now rewrite gather_comma. Qed.

(** * More on the local mirror and the bulk commands *)

Section MirrorEdges.

Context {A : Type}.

Lemma delitem_raises (l : list A) i e :
  PyList.delitem l i = Raise e -> e = IndexError.
Proof.
  unfold PyList.delitem.
  destruct (PyList.position (List.length l) i); congruence.
Qed.

Lemma delitem_out_of_range (l : list A) i :
  out_of_range (List.length l) i -> PyList.delitem l i = Raise IndexError.
Proof.
  unfold out_of_range, PyList.delitem, PyList.position. intros H.
  replace ((0 <=? i) && (i <? Z.of_nat (List.length l))) with false by lia.
  replace ((i <? 0) && (- Z.of_nat (List.length l) <=? i)) with false by lia.
  reflexivity.
Qed.

Lemma delitem_length (l l' : list A) i :
  PyList.delitem l i = Ok l' -> S (List.length l') = List.length l.
Proof.
  unfold PyList.delitem, PyList.position.
  destruct ((0 <=? i) && (i <? Z.of_nat (List.length l))) eqn:E1.
  - intros H.
    assert (E : l' = firstn (Z.to_nat i) l ++ skipn (S (Z.to_nat i)) l) by congruence.
    rewrite E, length_app, length_firstn, length_skipn. lia.
  - destruct ((i <? 0) && (- Z.of_nat (List.length l) <=? i)) eqn:E2; [|discriminate].
    intros H.
    assert (E : l' = firstn (Z.to_nat (Z.of_nat (List.length l) + i)) l
                     ++ skipn (S (Z.to_nat (Z.of_nat (List.length l) + i))) l)
      by congruence.
    rewrite E, length_app, length_firstn, length_skipn. lia.
Qed.

Lemma insert_desc_sorted_ge x l :
  StronglySorted Z.ge l -> StronglySorted Z.ge (PyList.insert_desc x l).
Proof.
  induction l as [|y l IH]; simpl; intros Hs.
  - repeat constructor.
  - inversion Hs as [|? ? Hs' Hge]; subst.
    destruct (Z.leb_spec y x) as [Hle|Hlt].
    + constructor; [assumption|].
      constructor; [lia|].
      eapply Forall_impl; [|exact Hge]. simpl. intros; lia.
    + constructor; [now apply IH|].
      rewrite Forall_forall. intros z Hz.
      apply (Permutation_in _ (insert_desc_perm x l)) in Hz.
      destruct Hz as [<-|Hz]; [lia|].
      rewrite Forall_forall in Hge. now apply Hge.
Qed.

Lemma sorted_reverse_sorted_ge l : StronglySorted Z.ge (PyList.sorted_reverse l).
Proof.
  induction l as [|x l IH]; simpl; [constructor|].
  now apply insert_desc_sorted_ge.
Qed.

Lemma sorted_ge_unique (l1 : list Z) : forall l2,
  StronglySorted Z.ge l1 -> StronglySorted Z.ge l2 -> Permutation l1 l2 -> l1 = l2.
Proof.
  induction l1 as [|x l1 IH]; intros l2 H1 H2 Hp.
  - apply Permutation_nil in Hp. now subst.
  - destruct l2 as [|y l2].
    + symmetry in Hp. apply Permutation_nil in Hp. discriminate.
    + inversion H1 as [|? ? H1' Hx]; subst.
      inversion H2 as [|? ? H2' Hy]; subst.
      assert (x = y).
      { assert (Hyx : In y (x :: l1)).
        { apply (Permutation_in _ (Permutation_sym Hp)). now left. }
        assert (Hxy : In x (y :: l2)).
        { apply (Permutation_in _ Hp). now left. }
        rewrite Forall_forall in Hx, Hy.
        destruct Hyx as [E|Hyx]; [now subst|].
        destruct Hxy as [E|Hxy]; [now subst|].
        specialize (Hx _ Hyx). specialize (Hy _ Hxy). lia. }
      subst. f_equal. apply IH; try assumption.
      now apply Permutation_cons_inv in Hp.
Qed.

Lemma delete_failing (ds : list Z) : forall l : list A,
  StronglySorted Z.ge ds ->
  Exists (out_of_range (List.length l)) ds ->
  rfold PyList.delitem ds l = Raise IndexError.
Proof.
  induction ds as [|d ds IH]; intros l Hs Hex.
  - inversion Hex.
  - simpl. destruct (PyList.delitem l d) as [l'|e] eqn:Ed; simpl.
    + inversion Hs as [|? ? Hs' Hge]; subst.
      apply IH; [assumption|].
      inversion Hex as [? ? Hd|? ? Hex']; subst.
      * rewrite (delitem_out_of_range l d Hd) in Ed. discriminate.
      * apply Exists_exists in Hex' as (b & Hb & Hout).
        apply Exists_exists. exists b. split; [assumption|].
        pose proof (delitem_length _ _ _ Ed) as Hlen.
        rewrite Forall_forall in Hge. specialize (Hge _ Hb).
        assert (Hd : ~ out_of_range (List.length l) d).
        { intros Hd. rewrite (delitem_out_of_range l d Hd) in Ed. discriminate. }
        unfold out_of_range in *. lia.
    + f_equal. eapply delitem_raises; eauto.
Qed.

End MirrorEdges.

(** X4: An index beyond either end of the list makes [updated_task_list] raise
    [IndexError], wherever it stands among the indices. *)
Theorem updated_task_list_out_of_range {A : Type} (tasks : list A) (tids : list Z)
        (Hout : Exists (out_of_range (List.length tasks)) tids) :
  updated_task_list tasks tids = Raise IndexError.
Proof.
  unfold updated_task_list. apply delete_failing.
  - apply sorted_reverse_sorted_ge.
  - apply Exists_exists in Hout as (b & Hb & Hout).
    apply Exists_exists. exists b. split; [|assumption].
    now apply (Permutation_in _ (Permutation_sym (sorted_reverse_perm tids))).
Qed.

Lemma updated_task_list_out_of_range_witness :
  updated_task_list ["a"; "b"; "c"] [0; -4; 1] = Raise IndexError.
Proof.
  apply updated_task_list_out_of_range.
  apply Exists_cons_tl, Exists_cons_hd. left. simpl. lia.
Defined.

(** X5: The mirror after a bulk operation does not depend on the order in which
    the indices are handed over: they are sorted before the deletions. *)
Theorem updated_task_list_order_irrelevant {A : Type} (tasks : list A)
        (tids tids' : list Z) (Hperm : Permutation tids tids') :
  updated_task_list tasks tids = updated_task_list tasks tids'.
Proof.
  unfold updated_task_list. f_equal.
  apply sorted_ge_unique; try apply sorted_reverse_sorted_ge.
  rewrite (sorted_reverse_perm tids), (sorted_reverse_perm tids'). exact Hperm.
Qed.

Lemma updated_task_list_order_irrelevant_witness :
  updated_task_list ["a"; "b"; "c"; "d"] [8; 1] = updated_task_list ["a"; "b"; "c"; "d"] [1; 8]
  /\ updated_task_list ["a"; "b"; "c"; "d"] [2; 0] = updated_task_list ["a"; "b"; "c"; "d"] [0; 2].
Proof.
  split; apply updated_task_list_order_irrelevant; apply perm_swap.
Defined.

Section BulkCommands.

Lemma getitem_total (todos : list Task) tids :
  Forall (fun tid => 0 <= tid < Z.of_nat (List.length todos)) tids ->
  exists recs,
    rmap (PyList.getitem todos) tids = Ok recs
    /\ List.length recs = List.length tids.
Proof.
  induction tids as [|tid tids IH]; intros H.
  - now exists [].
  - inversion H as [|? ? Ht Hts]; subst.
    destruct (getitem_from_start todos tid Ht) as (t & _ & Hg).
    destruct (IH Hts) as (recs & Hr & Hl).
    exists (t :: recs). simpl. rewrite Hg, Hr. simpl. split; [reflexivity | lia].
Qed.

Lemma done_loop_all todos tids recs w :
  rmap (PyList.getitem todos) tids = Ok recs ->
  todos_done_loop todos tids w = (Ok tt, extend w (flat_map done_events recs)).
Proof.
  intros H.
  rewrite <- (app_nil_r tids), (done_loop_prefix todos tids w recs [] H).
  reflexivity.
Qed.

Lemma delete_step todos tid w :
  (t <- lift (PyList.getitem todos tid) ;;
   emit (Request (DeleteTask (t_id t))) ;;;
   t' <- lift (PyList.getitem todos tid) ;;
   emit (Print (DeletedTodo (t_text t'))) ;;;
   sleep HABITICA_REQUEST_WAIT_TIME)%cmd w
  = match PyList.getitem todos tid with
    | Ok t => (Ok tt, extend w (delete_events t))
    | Raise e => (Raise e, w)
    end.
Proof.
  unfold bind, lift, sleep, emit. cbv beta.
  destruct (PyList.getitem todos tid) as [t|e]; [|reflexivity].
  unfold extend, delete_events. cbn [cache_file trace].
  now rewrite <- !app_assoc.
Qed.

Lemma delete_loop_all todos tids : forall recs w,
  rmap (PyList.getitem todos) tids = Ok recs ->
  todos_delete_loop todos tids w = (Ok tt, extend w (flat_map delete_events recs)).
Proof.
  unfold todos_delete_loop.
  induction tids as [|tid tids IH]; intros recs w H.
  - inversion H; subst. simpl. now rewrite extend_nil.
  - cbn [rmap] in H.
    destruct (PyList.getitem todos tid) as [t|] eqn:Et; simpl in H; [|discriminate].
    destruct (rmap (PyList.getitem todos) tids) as [recs'|] eqn:Er;
      simpl in H; [|discriminate].
    inversion H; subst.
    cbn [for_each]. unfold bind at 1. rewrite delete_step, Et.
    rewrite (IH recs' _ eq_refl), extend_extend. reflexivity.
Qed.

End BulkCommands.

(** [todos done] and [todos delete] on pairwise-distinct indices that all
    lie in the list. *)
Lemma todos_bulk_distinct (args : list string) (todos : list Task)
        (tids : list Z) (w : world)
        (Hids : get_task_ids (tl args) true = Ok tids)
        (Hdistinct : NoDup tids)
        (Hrange : Forall (fun tid => 0 <= tid < Z.of_nat (List.length todos)) tids) :
  exists recs,
    rmap (PyList.getitem todos) tids = Ok recs
    /\ List.length recs = List.length tids
    /\ todos_done args todos w
       = (Ok (without tids todos), extend w (flat_map done_events recs))
    /\ todos_delete args todos w
       = (Ok (without tids todos), extend w (flat_map delete_events recs)).
Proof.
  destruct (getitem_total todos tids Hrange) as (recs & Hr & Hl).
  exists recs. split; [assumption|]. split; [assumption|].
  pose proof (delete_descending (PyList.sorted_reverse tids) todos
                (sorted_reverse_sorted tids Hdistinct)) as Hdel.
  assert (Hup : updated_task_list todos tids = Ok (without tids todos)).
  { unfold updated_task_list. rewrite Hdel.
    - f_equal. unfold without. apply keep_from_ext.
      intros j _. split; apply Permutation_in;
        [apply sorted_reverse_perm | symmetry; apply sorted_reverse_perm].
    - rewrite Forall_forall in *. intros x Hx. apply Hrange.
      now apply (Permutation_in _ (sorted_reverse_perm tids)). }
  split.
  - unfold todos_done. unfold bind at 1. unfold lift at 1. rewrite Hids.
    unfold bind at 1. rewrite (done_loop_all todos tids recs w Hr).
    unfold lift. now rewrite Hup.
  - unfold todos_delete. unfold bind at 1. unfold lift at 1. rewrite Hids.
    unfold bind at 1. rewrite (delete_loop_all todos tids recs w Hr).
    unfold lift. now rewrite Hup.
Qed.



(** * More on the status query and the quest cache *)

Section StatusPaths.

Lemma status_unfold r w cache :
  load_cache w = (Ok cache, w) ->
  status r w
  = match party_quest r cache (extend w [Request GetUser]) with
    | (Ok q, w') => (Ok tt, extend w' [Print (StatusReport DEFAULT_PARTY (fst q))])
    | (Raise e, w') => (Raise e, w')
    end.
Proof.
  intros H. unfold status. unfold bind at 1. rewrite H. rewrite emit_bind.
  unfold bind.
  destruct (party_quest r cache (extend w [Request GetUser])) as [[q|e] w'];
    reflexivity.
Qed.

Lemma party_quest_alone r cache w :
  Py.truthy (remote_party r) = false ->
  party_quest r cache w = (Ok (DEFAULT_QUEST, cache), extend w [Request GetParty]).
Proof.
  intros H. unfold party_quest. rewrite emit_bind. cbv zeta. now rewrite H.
Qed.

Lemma party_quest_group r cache g name title quest_data w :
  Py.truthy (remote_party r) = true ->
  Py.subscript (remote_party r) (JInt 0) = Ok g ->
  Py.subscript g (JStr "id") = Ok (JStr name) ->
  Py.subscript g (JStr "name") = Ok title ->
  Py.subscript (remote_group r name) (JStr "quest") = Ok quest_data ->
  party_quest r cache w
  = (active <- (if Py.truthy quest_data
                then lift (a <- Py.subscript quest_data (JStr "active") ;;
                           Ok (Py.truthy a))%res
                else ret false) ;;
     if active then active_quest r cache quest_data
     else ret (DEFAULT_QUEST, cache))%cmd
      (extend w [Request GetParty; Request (GetGroup name)]).
Proof.
  intros Hp Hg Hid Hname Hq.
  unfold party_quest. rewrite emit_bind. cbv zeta. rewrite Hp.
  rewrite lift_bind, Hg. cbn [rbind]. rewrite Hid.
  rewrite lift_bind. cbn [rbind]. rewrite Hname.
  unfold bind at 1. unfold ret at 1.
  rewrite emit_bind, extend_extend. cbn [app].
  rewrite lift_bind, Hq. reflexivity.
Qed.

Lemma party_quest_active r cache g name title quest_data a w :
  Py.truthy (remote_party r) = true ->
  Py.subscript (remote_party r) (JInt 0) = Ok g ->
  Py.subscript g (JStr "id") = Ok (JStr name) ->
  Py.subscript g (JStr "name") = Ok title ->
  Py.subscript (remote_group r name) (JStr "quest") = Ok quest_data ->
  Py.truthy quest_data = true ->
  Py.subscript quest_data (JStr "active") = Ok a ->
  Py.truthy a = true ->
  party_quest r cache w
  = active_quest r cache quest_data
      (extend w [Request GetParty; Request (GetGroup name)]).
Proof.
  intros Hp Hg Hid Hname Hq Hqt Ha Hat.
  rewrite (party_quest_group r cache g name title quest_data w) by assumption.
  rewrite Hqt, lift_bind, Ha. cbn [rbind]. now rewrite Hat.
Qed.

Lemma active_quest_stale r cache quest_data quest_key cached w :
  Py.subscript quest_data (JStr "key") = Ok quest_key ->
  Cfg.get cache SECTION_CACHE_QUEST "quest_key" = Ok cached ->
  Py.str_ne cached quest_key = true ->
  exists e w',
    active_quest r cache quest_data w = (Raise e, w')
    /\ trace w' = trace w ++ [Request GetContent].
Proof.
  intros Hkey Hget Hne. unfold active_quest.
  rewrite lift_bind, Hkey, lift_bind, Hget, Hne.
  destruct (refresh_quest_raises r quest_key w) as (e & w' & Hr & Ht).
  unfold bind at 1. rewrite Hr. eauto.
Qed.

Lemma active_quest_fresh r cache quest_data key w :
  Py.subscript quest_data (JStr "key") = Ok (JStr key) ->
  Cfg.get cache SECTION_CACHE_QUEST "quest_key" = Ok key ->
  active_quest r cache quest_data w
  = (quest_type <- lift (Cfg.get cache SECTION_CACHE_QUEST "quest_type") ;;
     quest_progress <-
       lift (p <- Py.subscript quest_data (JStr "progress") ;;
             if String.eqb quest_type "collect" then
               (qp_tmp <- Py.subscript p (JStr "collect") ;; Py.values_first qp_tmp)
             else Py.subscript p (JStr "hp"))%res ;;
     progress <- lift (Py.int quest_progress) ;;
     quest_max <- lift (Cfg.get cache SECTION_CACHE_QUEST "quest_max") ;;
     quest_title <- lift (Cfg.get cache SECTION_CACHE_QUEST "quest_title") ;;
     ret ((PyStr.of_Z progress ++ "/" ++ quest_max ++ " " ++ dquote ++ quest_title
            ++ dquote)%string,
          cache))%cmd w.
Proof.
  intros Hkey Hget. unfold active_quest.
  rewrite lift_bind, Hkey, lift_bind, Hget.
  unfold Py.str_ne. rewrite String.eqb_refl. cbn [negb].
  reflexivity.
Qed.

Lemma values_first_raises obj : exists e, Py.values_first obj = Raise e.
Proof. destruct obj; simpl; eauto. Qed.

End StatusPaths.

(** X7: Outside a party, and in a party whose quest record is empty or not
    active, the status query asks for the user and the party (and the group,
    when there is one), asks for no content definition, leaves the cache file
    as it is and reports the default quest line; the party line is the
    default one even inside a party. *)
Theorem status_without_quest (r : Remote) (w : world) :
  (Py.truthy (remote_party r) = false ->
   status r w
   = (Ok tt, extend w [Request GetUser; Request GetParty;
                       Print (StatusReport DEFAULT_PARTY DEFAULT_QUEST)]))
  /\ (forall g name title quest_data,
         Py.truthy (remote_party r) = true ->
         Py.subscript (remote_party r) (JInt 0) = Ok g ->
         Py.subscript g (JStr "id") = Ok (JStr name) ->
         Py.subscript g (JStr "name") = Ok title ->
         Py.subscript (remote_group r name) (JStr "quest") = Ok quest_data ->
         (Py.truthy quest_data = false
          \/ exists a, Py.subscript quest_data (JStr "active") = Ok a
                       /\ Py.truthy a = false) ->
         status r w
         = (Ok tt, extend w [Request GetUser; Request GetParty;
                             Request (GetGroup name);
                             Print (StatusReport DEFAULT_PARTY DEFAULT_QUEST)])).
Proof.
  destruct (load_cache_spec w) as (cache & Hload & _ & _).
  split.
  - intros Hp. rewrite (status_unfold r w cache Hload).
    rewrite (party_quest_alone r cache _ Hp).
    now rewrite !extend_extend.
  - intros g name title quest_data Hp Hg Hid Hname Hq Hidle.
    rewrite (status_unfold r w cache Hload).
    rewrite (party_quest_group r cache g name title quest_data _ Hp Hg Hid Hname Hq).
    assert (Hact : (if Py.truthy quest_data
                    then lift (a <- Py.subscript quest_data (JStr "active") ;;
                               Ok (Py.truthy a))%res
                    else ret false)
                   = ret false).
    { destruct Hidle as [Hf|(a & Ha & Hf)].
      - now rewrite Hf.
      - rewrite Ha. cbn [rbind]. rewrite Hf. now destruct (Py.truthy quest_data). }
    rewrite Hact. unfold bind at 1. unfold ret at 1. unfold ret.
    now rewrite !extend_extend.
Qed.

Lemma status_without_quest_witness :
  status (mkRemote (JList []) (fun _ => JNull) JNull) no_cache
  = (Ok tt,
     mkWorld None
       [Request GetUser; Request GetParty;
        Print (StatusReport DEFAULT_PARTY DEFAULT_QUEST)])
  /\ status (mkRemote (JList [JDict [("id", JStr "p1"); ("name", JStr "Party")]])
                      (fun _ => JDict [("quest", JDict [("active", JBool false)])])
                      JNull) no_cache
     = (Ok tt,
        mkWorld None
          [Request GetUser; Request GetParty; Request (GetGroup "p1");
           Print (StatusReport DEFAULT_PARTY DEFAULT_QUEST)]).
Proof.
  split.
  - apply (proj1 (status_without_quest _ no_cache)). reflexivity.
  - apply (proj2 (status_without_quest _ no_cache)
             (JDict [("id", JStr "p1"); ("name", JStr "Party")]) "p1" (JStr "Party")
             (JDict [("active", JBool false)])); try reflexivity.
    right. exists (JBool false). split; reflexivity.
Defined.

(** X8: A status query on an active quest whose key is not the cached
    [quest_key] never shows a report: it asks for the user, the party, the
    group and the content definition, and then ends in an exception. *)
Theorem status_stale_never_reports (r : Remote) (w : world) (cache : Cfg.parser)
        (g title quest_data a quest_key : json) (name cached : string)
        (Hload : load_cache w = (Ok cache, w))
        (Hparty : Py.truthy (remote_party r) = true)
        (Hg : Py.subscript (remote_party r) (JInt 0) = Ok g)
        (Hid : Py.subscript g (JStr "id") = Ok (JStr name))
        (Hname : Py.subscript g (JStr "name") = Ok title)
        (Hquest : Py.subscript (remote_group r name) (JStr "quest") = Ok quest_data)
        (Hdata : Py.truthy quest_data = true)
        (Ha : Py.subscript quest_data (JStr "active") = Ok a)
        (Hactive : Py.truthy a = true)
        (Hkey : Py.subscript quest_data (JStr "key") = Ok quest_key)
        (Hcached : Cfg.get cache SECTION_CACHE_QUEST "quest_key" = Ok cached)
        (Hstale : Py.str_ne cached quest_key = true) :
  exists e w',
    status r w = (Raise e, w')
    /\ trace w'
       = trace w ++ [Request GetUser; Request GetParty; Request (GetGroup name);
                     Request GetContent].
Proof.
  rewrite (status_unfold r w cache Hload).
  rewrite (party_quest_active r cache g name title quest_data a _
             Hparty Hg Hid Hname Hquest Hdata Ha Hactive).
  rewrite extend_extend. cbn [app].
  destruct (active_quest_stale r cache quest_data quest_key cached
              (extend w [Request GetUser; Request GetParty; Request (GetGroup name)])
              Hkey Hcached Hstale) as (e & w' & Hr & Ht).
  rewrite Hr. exists e, w'. split; [reflexivity|].
  rewrite Ht. cbn [extend trace]. now rewrite <- app_assoc.
Qed.

Lemma status_stale_never_reports_witness :
  exists e w',
    status (sample_remote "qC") no_cache = (Raise e, w')
    /\ trace w'
       = trace no_cache ++ [Request GetUser; Request GetParty;
                            Request (GetGroup "p1"); Request GetContent].
Proof.
  eapply (status_stale_never_reports (sample_remote "qC") no_cache _
            (JDict [("id", JStr "p1"); ("name", JStr "Party")]) (JStr "Party")
            _ (JBool true) (JStr "qC") "p1" EmptyString);
    reflexivity.
Defined.

(** X9: A status query on an active quest whose key is the cached [quest_key]
    asks for the user, the party and the group only, and leaves the cache
    file as it is; when it does not fail, the quest line is the progress, the
    cached maximum and the cached title. *)
Theorem status_cached_quest (r : Remote) (w : world) (cache : Cfg.parser)
        (g title quest_data a : json) (name key : string)
        (Hload : load_cache w = (Ok cache, w))
        (Hparty : Py.truthy (remote_party r) = true)
        (Hg : Py.subscript (remote_party r) (JInt 0) = Ok g)
        (Hid : Py.subscript g (JStr "id") = Ok (JStr name))
        (Hname : Py.subscript g (JStr "name") = Ok title)
        (Hquest : Py.subscript (remote_group r name) (JStr "quest") = Ok quest_data)
        (Hdata : Py.truthy quest_data = true)
        (Ha : Py.subscript quest_data (JStr "active") = Ok a)
        (Hactive : Py.truthy a = true)
        (Hkey : Py.subscript quest_data (JStr "key") = Ok (JStr key))
        (Hcached : Cfg.get cache SECTION_CACHE_QUEST "quest_key" = Ok key) :
  (exists e,
      status r w
      = (Raise e,
         extend w [Request GetUser; Request GetParty; Request (GetGroup name)]))
  \/ (exists progress quest_max quest_title,
         Cfg.get cache SECTION_CACHE_QUEST "quest_max" = Ok quest_max
         /\ Cfg.get cache SECTION_CACHE_QUEST "quest_title" = Ok quest_title
         /\ status r w
            = (Ok tt,
               extend w
                 [Request GetUser; Request GetParty; Request (GetGroup name);
                  Print (StatusReport DEFAULT_PARTY
                           (PyStr.of_Z progress ++ "/" ++ quest_max ++ " "
                              ++ dquote ++ quest_title ++ dquote)%string)])).
Proof.
  rewrite (status_unfold r w cache Hload).
  rewrite (party_quest_active r cache g name title quest_data a _
             Hparty Hg Hid Hname Hquest Hdata Ha Hactive).
  rewrite extend_extend. cbn [app].
  destruct (active_quest_cached r cache quest_data key
              (extend w [Request GetUser; Request GetParty; Request (GetGroup name)])
              Hkey Hcached) as (res & Hres & Hok).
  rewrite Hres. destruct res as [[text cache']|e].
  - right. destruct (Hok text cache' eq_refl) as (_ & n & qm & qtl & Hm & Ht & ->).
    exists n, qm, qtl. split; [assumption|]. split; [assumption|].
    now rewrite extend_extend.
  - left. now exists e.
Qed.

Lemma status_cached_quest_witness :
  (exists e,
      status (sample_remote "qB")
        (mkWorld (Some (Cfg.mkFile [] [("Quest", quest_record "qB" "hp" "300" "Boss")])) [])
      = (Raise e,
         extend (mkWorld (Some (Cfg.mkFile [] [("Quest", quest_record "qB" "hp" "300" "Boss")])) [])
           [Request GetUser; Request GetParty; Request (GetGroup "p1")]))
  \/ (exists progress quest_max quest_title,
         Cfg.get
           (Cfg.read (Cfg.create cache_defaults)
              (Some (Cfg.mkFile [] [("Quest", quest_record "qB" "hp" "300" "Boss")])))
           SECTION_CACHE_QUEST "quest_max" = Ok quest_max
         /\ Cfg.get
              (Cfg.read (Cfg.create cache_defaults)
                 (Some (Cfg.mkFile [] [("Quest", quest_record "qB" "hp" "300" "Boss")])))
              SECTION_CACHE_QUEST "quest_title" = Ok quest_title
         /\ status (sample_remote "qB")
              (mkWorld (Some (Cfg.mkFile [] [("Quest", quest_record "qB" "hp" "300" "Boss")])) [])
            = (Ok tt,
               extend (mkWorld (Some (Cfg.mkFile [] [("Quest", quest_record "qB" "hp" "300" "Boss")])) [])
                 [Request GetUser; Request GetParty; Request (GetGroup "p1");
                  Print (StatusReport DEFAULT_PARTY
                           (PyStr.of_Z progress ++ "/" ++ quest_max ++ " "
                              ++ dquote ++ quest_title ++ dquote)%string)])).
Proof.
  apply (status_cached_quest (sample_remote "qB") _ _
           (JDict [("id", JStr "p1"); ("name", JStr "Party")]) (JStr "Party")
           (JDict [("active", JBool true); ("key", JStr "qB");
                   ("progress",
                    JDict [("hp", JInt 120);
                           ("collect", JDict [("petal", JInt 3)])])])
           (JBool true) "p1" "qB");
    reflexivity.
Defined.

(** X10: With a cached record of a quest of a type other than [collect], a
    progress in hit points that [int] accepts and the three cached fields
    readable, the status query succeeds and reports that progress over the
    cached maximum with the cached title in double quotes. *)
Theorem status_cached_boss_report (r : Remote) (w : world) (cache : Cfg.parser)
        (g title quest_data a p hp : json)
        (name key quest_type quest_max quest_title : string) (n : Z)
        (Hload : load_cache w = (Ok cache, w))
        (Hparty : Py.truthy (remote_party r) = true)
        (Hg : Py.subscript (remote_party r) (JInt 0) = Ok g)
        (Hid : Py.subscript g (JStr "id") = Ok (JStr name))
        (Hname : Py.subscript g (JStr "name") = Ok title)
        (Hquest : Py.subscript (remote_group r name) (JStr "quest") = Ok quest_data)
        (Hdata : Py.truthy quest_data = true)
        (Ha : Py.subscript quest_data (JStr "active") = Ok a)
        (Hactive : Py.truthy a = true)
        (Hkey : Py.subscript quest_data (JStr "key") = Ok (JStr key))
        (Hcached : Cfg.get cache SECTION_CACHE_QUEST "quest_key" = Ok key)
        (Htype : Cfg.get cache SECTION_CACHE_QUEST "quest_type" = Ok quest_type)
        (Hboss : String.eqb quest_type "collect" = false)
        (Hprogress : Py.subscript quest_data (JStr "progress") = Ok p)
        (Hhp : Py.subscript p (JStr "hp") = Ok hp)
        (Hint : Py.int hp = Ok n)
        (Hmax : Cfg.get cache SECTION_CACHE_QUEST "quest_max" = Ok quest_max)
        (Htitle : Cfg.get cache SECTION_CACHE_QUEST "quest_title" = Ok quest_title) :
  status r w
  = (Ok tt,
     extend w
       [Request GetUser; Request GetParty; Request (GetGroup name);
        Print (StatusReport DEFAULT_PARTY
                 (PyStr.of_Z n ++ "/" ++ quest_max ++ " " ++ dquote
                    ++ quest_title ++ dquote)%string)]).
Proof.
  rewrite (status_unfold r w cache Hload).
  rewrite (party_quest_active r cache g name title quest_data a _
             Hparty Hg Hid Hname Hquest Hdata Ha Hactive).
  rewrite extend_extend. cbn [app].
  rewrite (active_quest_fresh r cache quest_data key _ Hkey Hcached).
  rewrite lift_bind, Htype, lift_bind, Hprogress. cbn [rbind].
  rewrite Hboss, Hhp, lift_bind, Hint, lift_bind, Hmax, lift_bind, Htitle.
  unfold ret. now rewrite extend_extend.
Qed.

Lemma status_cached_boss_report_witness :
  status (sample_remote "qB")
    (mkWorld (Some (Cfg.mkFile [] [("Quest", quest_record "qB" "hp" "300" "Boss")])) [])
  = (Ok tt,
     mkWorld (Some (Cfg.mkFile [] [("Quest", quest_record "qB" "hp" "300" "Boss")]))
       [Request GetUser; Request GetParty; Request (GetGroup "p1");
        Print (StatusReport DEFAULT_PARTY
                 ("120/300 " ++ dquote ++ "Boss" ++ dquote)%string)]).
Proof.
  erewrite (status_cached_boss_report (sample_remote "qB")
           (mkWorld (Some (Cfg.mkFile [] [("Quest", quest_record "qB" "hp" "300" "Boss")])) [])
           _
           (JDict [("id", JStr "p1"); ("name", JStr "Party")]) (JStr "Party")
           (JDict [("active", JBool true); ("key", JStr "qB");
                   ("progress",
                    JDict [("hp", JInt 120);
                           ("collect", JDict [("petal", JInt 3)])])])
           (JBool true)
           (JDict [("hp", JInt 120); ("collect", JDict [("petal", JInt 3)])])
           (JInt 120) "p1" "qB" "hp" "300" "Boss" 120);
    reflexivity.
Defined.

(** X11: With a cached record of a quest of type [collect], the status query
    always ends in an exception after the group request, without a report:
    the progress is taken with a subscript on the view of a dictionary's
    values. *)
Theorem status_cached_collect_raises (r : Remote) (w : world) (cache : Cfg.parser)
        (g title quest_data a : json) (name key : string)
        (Hload : load_cache w = (Ok cache, w))
        (Hparty : Py.truthy (remote_party r) = true)
        (Hg : Py.subscript (remote_party r) (JInt 0) = Ok g)
        (Hid : Py.subscript g (JStr "id") = Ok (JStr name))
        (Hname : Py.subscript g (JStr "name") = Ok title)
        (Hquest : Py.subscript (remote_group r name) (JStr "quest") = Ok quest_data)
        (Hdata : Py.truthy quest_data = true)
        (Ha : Py.subscript quest_data (JStr "active") = Ok a)
        (Hactive : Py.truthy a = true)
        (Hkey : Py.subscript quest_data (JStr "key") = Ok (JStr key))
        (Hcached : Cfg.get cache SECTION_CACHE_QUEST "quest_key" = Ok key)
        (Htype : Cfg.get cache SECTION_CACHE_QUEST "quest_type" = Ok "collect") :
  exists e,
    status r w
    = (Raise e,
       extend w [Request GetUser; Request GetParty; Request (GetGroup name)]).
Proof.
  rewrite (status_unfold r w cache Hload).
  rewrite (party_quest_active r cache g name title quest_data a _
             Hparty Hg Hid Hname Hquest Hdata Ha Hactive).
  rewrite extend_extend. cbn [app].
  rewrite (active_quest_fresh r cache quest_data key _ Hkey Hcached).
  rewrite lift_bind, Htype, lift_bind.
  destruct (Py.subscript quest_data (JStr "progress")) as [p|e]; cbn [rbind];
    [|eauto].
  change (String.eqb "collect" "collect") with true. cbv iota.
  destruct (Py.subscript p (JStr "collect")) as [qp|e]; cbn [rbind]; [|eauto].
  destruct (values_first_raises qp) as (e & ->). eauto.
Qed.

Lemma status_cached_collect_raises_witness :
  exists e,
    status (sample_remote "qC")
      (mkWorld (Some (Cfg.mkFile [] [("Quest", quest_record "qC" "collect" "5" "Petals")])) [])
    = (Raise e,
       extend
         (mkWorld (Some (Cfg.mkFile [] [("Quest", quest_record "qC" "collect" "5" "Petals")])) [])
         [Request GetUser; Request GetParty; Request (GetGroup "p1")]).
Proof.
  eapply (status_cached_collect_raises (sample_remote "qC") _ _
           (JDict [("id", JStr "p1"); ("name", JStr "Party")]) (JStr "Party")
           (JDict [("active", JBool true); ("key", JStr "qC");
                   ("progress",
                    JDict [("hp", JInt 120);
                           ("collect", JDict [("petal", JInt 3)])])])
           (JBool true) "p1" "qC");
    reflexivity.
Defined.

(** X12: with a cache file that is absent or parses (a file that does not
    parse makes the [load_cache] at the start raise, and is outside this
    model), [update_quest_cache] never returns a cache.  When every value
    passes the syntax check of [set], the cache file ends up empty whatever
    the parsed file held, the exception is [TypeError], and a later
    [load_cache] sees the built-in defaults only.  When a value has a stray
    percent sign, the exception is [ValueError] and neither the file nor the
    trace changes. *)
Theorem update_quest_cache_effect (kwargs : list (string * string)) (w : world) :
  (forallb (fun kv => Cfg.valid_syntax (snd kv)) kwargs = true ->
   update_quest_cache kwargs w
   = (Raise TypeError, mkWorld (Some Cfg.empty_file) (trace w))
   /\ fst (load_cache (after (update_quest_cache kwargs) w))
      = Ok (Cfg.mkParser (Cfg.defaults (Cfg.create cache_defaults))
              [(SECTION_CACHE_QUEST, [])]))
  /\ (forallb (fun kv => Cfg.valid_syntax (snd kv)) kwargs = false ->
      update_quest_cache kwargs w = (Raise ValueError, w)).
Proof.
  split; intros H.
  - unfold after. rewrite update_quest_cache_raises, H. split; reflexivity.
  - now rewrite update_quest_cache_raises, H.
Qed.

Lemma update_quest_cache_effect_witness :
  update_quest_cache (quest_record "qB" "hp" "300" "Boss")
    (mkWorld (Some (Cfg.mkFile [] [("Quest", quest_record "qC" "collect" "5" "Petals")])) [])
  = (Raise TypeError, mkWorld (Some Cfg.empty_file) [])
  /\ update_quest_cache (quest_record "qB" "hp" "100%" "Boss")
       (mkWorld (Some (Cfg.mkFile [] [("Quest", quest_record "qC" "collect" "5" "Petals")])) [])
     = (Raise ValueError,
        mkWorld (Some (Cfg.mkFile [] [("Quest", quest_record "qC" "collect" "5" "Petals")])) []).
Proof.
  split.
  - apply (proj1 (update_quest_cache_effect
                    (quest_record "qB" "hp" "300" "Boss")
                    (mkWorld (Some (Cfg.mkFile [] [("Quest", quest_record "qC" "collect" "5" "Petals")])) []))).
    reflexivity.
  - apply (proj2 (update_quest_cache_effect
                    (quest_record "qB" "hp" "100%" "Boss")
                    (mkWorld (Some (Cfg.mkFile [] [("Quest", quest_record "qC" "collect" "5" "Petals")])) []))).
    reflexivity.
Defined.

(** * Reading the quest cache *)

Section CacheReads.

Lemma prefix_raises s r e : Cfg.prefix s r = Raise e -> r = Raise e.
Proof. destruct r; simpl; congruence. Qed.

Lemma interpolate_step d env fuel rest :
  Cfg.interpolate (S d) env (S fuel) rest
  = match rest with
    | EmptyString => Ok EmptyString
    | String "%" (String "%" r) =>
        Cfg.prefix "%" (Cfg.interpolate (S d) env fuel r)
    | String "%" (String "(" r) =>
        match Cfg.key_match r with
        | Some (name, r') =>
            match env (Cfg.optionxform name) with
            | Some v =>
                (a <- (if PyStr.contains "%" v
                       then Cfg.interpolate d env (S (String.length v)) v
                       else Ok v) ;;
                 Cfg.prefix a (Cfg.interpolate (S d) env fuel r'))%res
            | None => Raise InterpolationError
            end
        | None => Raise InterpolationError
        end
    | String "%" _ => Raise InterpolationError
    | String c r =>
        Cfg.prefix (String c EmptyString) (Cfg.interpolate (S d) env fuel r)
    end.
Proof. reflexivity. Qed.

(** Interpolation fails with [InterpolationError] only. *)
Lemma interpolate_raises depth : forall env fuel rest e,
  Cfg.interpolate depth env fuel rest = Raise e -> e = InterpolationError.
Proof.
  induction depth as [|d IHd]; intros env fuel.
  { intros rest e H. simpl in H. congruence. }
  induction fuel as [|fuel IHf]; intros rest e.
  { simpl. congruence. }
  rewrite interpolate_step.
  repeat match goal with
         | |- context [match ?x with _ => _ end] =>
             is_var x; destruct x; cbv beta match
         end;
    try congruence;
    try (intros H; apply prefix_raises in H; now apply IHf in H).
  all: destruct (Cfg.key_match _) as [[name r']|]; [|congruence].
  all: destruct (env _) as [v|]; [|congruence].
  all: destruct (PyStr.contains "%" v).
  all: try (cbn [rbind]; intros H; apply prefix_raises in H; now apply IHf in H).
  all: destruct (Cfg.interpolate d env (S (String.length v)) v) as [a|e'] eqn:E;
    cbn [rbind];
    [intros H; apply prefix_raises in H; now apply IHf in H
    |intros H; inversion H; subst; now apply IHd in E].
Qed.

Lemma lookup_update_keeps {V : Type} (d : list (string * V)) k v k' :
  Cfg.lookup d k' <> None -> Cfg.lookup (Cfg.update d k v) k' <> None.
Proof.
  induction d as [|[k0 v0] d IH]; simpl; [congruence|].
  destruct (String.eqb k0 k) eqn:E; simpl;
    destruct (String.eqb k0 k'); auto; congruence.
Qed.

Lemma lookup_update_all_keeps e : forall d k',
  Cfg.lookup d k' <> None -> Cfg.lookup (Cfg.update_all d e) k' <> None.
Proof.
  unfold Cfg.update_all.
  induction e as [|kv e IH]; simpl; intros d k' H; [assumption|].
  apply IH. now apply lookup_update_keeps.
Qed.

Lemma load_cache_defaults w :
  exists cache,
    load_cache w = (Ok cache, w)
    /\ Cfg.has_section cache SECTION_CACHE_QUEST = true
    /\ Cfg.defaults cache
       = Cfg.defaults (Cfg.read (Cfg.create cache_defaults) (cache_file w))
    /\ (cache_file w = None ->
        cache = Cfg.mkParser (Cfg.defaults (Cfg.create cache_defaults))
                  [(SECTION_CACHE_QUEST, [])]).
Proof.
  unfold load_cache.
  set (c := Cfg.read (Cfg.create cache_defaults) (cache_file w)).
  destruct (Cfg.has_section c SECTION_CACHE_QUEST) eqn:Hs.
  - exists c. repeat split; auto.
    intros Hn. subst c. rewrite Hn in Hs. discriminate.
  - unfold Cfg.add_section. rewrite Hs. simpl.
    eexists. split; [reflexivity|]. split; [|split; [reflexivity|]].
    + unfold Cfg.has_section in *. simpl.
      destruct (Cfg.lookup (Cfg.sections c) SECTION_CACHE_QUEST) eqn:Hl;
        [discriminate|].
      clear - Hl. induction (Cfg.sections c) as [|[k v] l IH]; simpl in *.
      * reflexivity.
      * destruct (String.eqb k SECTION_CACHE_QUEST); [discriminate | auto].
    + intros Hn. subst c. rewrite Hn. reflexivity.
Qed.

End CacheReads.

(** X13: with a cache file that is absent or parses (a file that does not
    parse makes [read] raise, and is outside this model), [load_cache]
    returns a parser and changes nothing: [add_section] is reached only
    when the [Quest] section is missing, so it raises neither
    [DuplicateSectionError] nor [ValueError].  The parser has the [Quest]
    section, and reading its [quest_key] can fail on a broken interpolation
    only, never for want of the section or the option.  With no cache file
    the key reads as the empty string, [quest_s] as the default quest line,
    and there is no [quest_type]. *)
Theorem load_cache_reads (w : world) :
  exists cache,
    load_cache w = (Ok cache, w)
    /\ Cfg.has_section cache SECTION_CACHE_QUEST = true
    /\ (forall e,
           Cfg.get cache SECTION_CACHE_QUEST "quest_key" = Raise e ->
           e = InterpolationError)
    /\ (cache_file w = None ->
        Cfg.get cache SECTION_CACHE_QUEST "quest_key" = Ok EmptyString
        /\ Cfg.get cache SECTION_CACHE_QUEST "quest_s" = Ok DEFAULT_QUEST
        /\ Cfg.get cache SECTION_CACHE_QUEST "quest_type" = Raise NoOptionError).
Proof.
  destruct (load_cache_defaults w) as (cache & Hload & Hs & Hd & Hnone).
  exists cache. split; [assumption|]. split; [assumption|]. split.
  - intros e. unfold Cfg.get, Cfg.unify.
    unfold Cfg.has_section in Hs.
    destruct (Cfg.lookup (Cfg.sections cache) SECTION_CACHE_QUEST) as [d|];
      [|discriminate].
    cbn [rbind].
    assert (Hk : Cfg.lookup (Cfg.defaults cache) (Cfg.optionxform "quest_key")
                 <> None).
    { rewrite Hd. destruct (cache_file w) as [f|]; [|discriminate].
      cbn [Cfg.read Cfg.defaults]. apply lookup_update_all_keeps. discriminate. }
    destruct (Cfg.lookup d (Cfg.optionxform "quest_key")) as [v|].
    + apply interpolate_raises.
    + destruct (Cfg.lookup (Cfg.defaults cache) (Cfg.optionxform "quest_key"))
        as [v|]; [apply interpolate_raises | congruence].
  - intros Hn. rewrite (Hnone Hn). repeat split; reflexivity.
Qed.

Lemma load_cache_reads_witness :
  exists cache,
    load_cache no_cache = (Ok cache, no_cache)
    /\ Cfg.get cache SECTION_CACHE_QUEST "quest_key" = Ok EmptyString.
Proof.
  destruct (load_cache_reads no_cache) as (cache & Hload & _ & _ & Hnone).
  exists cache. split; [exact Hload|].
  apply Hnone. reflexivity.
Defined.

(** * The order of the scores *)

Section ScoreOrder.

Lemma filter_length_mono {A : Type} (f g : A -> bool) (l : list A) :
  (forall a, f a = true -> g a = true) ->
  (List.length (filter f l) <= List.length (filter g l))%nat.
Proof.
  intros H. induction l as [|a l IH]; simpl; [lia|].
  destruct (f a) eqn:Ef.
  - rewrite (H a Ef). simpl. lia.
  - destruct (g a); simpl; lia.
Qed.

Lemma insertion_point_mono (a : list Q) (x y : Q) :
  (x <= y)%Q -> (insertion_point a x <= insertion_point a y)%nat.
Proof.
  intros Hxy. apply filter_length_mono. intros b Hb.
  apply Qle_bool_iff in Hb. apply Qle_bool_iff.
  eapply Qle_trans; eauto.
Qed.

Lemma score_stars (x : Q) :
  exists s,
    qualitative_task_score_from_value x = Ok s
    /\ In s scores
    /\ String.length s = S (insertion_point breakpoints x).
Proof.
  unfold qualitative_task_score_from_value. rewrite bisect_breakpoints.
  pose proof (insertion_point_bound x) as Hb.
  destruct (insertion_point breakpoints x) as [|[|[|[|[|[|[|n]]]]]]];
    try (eexists; split; [reflexivity|]; split; [simpl; tauto | reflexivity]).
  lia.
Qed.

End ScoreOrder.

(** X14: The score never fails, is one of the seven symbols, and grows with the
    value: a larger value never gets fewer stars.  Below the first
    breakpoint it is one star, from the last breakpoint on it is seven. *)
Theorem score_monotone (x y : Q) (Hxy : (x <= y)%Q) :
  exists sx sy,
    qualitative_task_score_from_value x = Ok sx
    /\ qualitative_task_score_from_value y = Ok sy
    /\ In sx scores /\ In sy scores
    /\ (String.length sx <= String.length sy)%nat
    /\ ((x < -20)%Q -> sx = "*")
    /\ ((10 <= y)%Q -> sy = "*******").
Proof.
  destruct (score_stars x) as (sx & Hx & Hinx & Hlx).
  destruct (score_stars y) as (sy & Hy & Hiny & Hly).
  exists sx, sy. repeat (split; [assumption|]).
  pose proof (insertion_point_mono breakpoints x y Hxy) as Hm.
  split; [lia|]. split.
  - intros Hlow.
    assert (E : insertion_point breakpoints x = 0%nat).
    { unfold insertion_point, breakpoints. cbn [map filter].
      repeat match goal with
             | |- context [Qle_bool ?b x] =>
                 let Hb := fresh "Hb" in
                 destruct (Qle_bool b x) eqn:Hb;
                 [apply Qle_bool_iff in Hb; unfold inject_Z in Hb; exfalso; lra|]
             end.
      reflexivity. }
    rewrite E in Hlx. clear - Hinx Hlx.
    simpl in Hinx. intuition (subst; try discriminate; reflexivity).
  - intros Hhigh.
    assert (E : insertion_point breakpoints y = 6%nat).
    { unfold insertion_point, breakpoints. cbn [map filter].
      repeat match goal with
             | |- context [Qle_bool ?b y] =>
                 let Hb := fresh "Hb" in
                 destruct (Qle_bool b y) eqn:Hb;
                 [|exfalso; apply Bool.not_true_iff_false in Hb; apply Hb;
                   apply Qle_bool_iff; unfold inject_Z; lra]
             end.
      reflexivity. }
    rewrite E in Hly. clear - Hiny Hly.
    simpl in Hiny. intuition (subst; try discriminate; reflexivity).
Qed.

Lemma score_monotone_witness :
  exists sx sy,
    qualitative_task_score_from_value (-25) = Ok sx
    /\ qualitative_task_score_from_value (7 # 2) = Ok sy
    /\ In sx scores /\ In sy scores
    /\ (String.length sx <= String.length sy)%nat
    /\ ((-25 < -20)%Q -> sx = "*")
    /\ ((10 <= 7 # 2)%Q -> sy = "*******").
Proof.
  apply (score_monotone (-25) (7 # 2)). unfold Qle. simpl. lia.
Defined.

(** * The set model keeps its keys *)

Section SetModel.

Lemma store_nth sl : forall n k j,
  nth_error sl n = Some None ->
  nth_error (PySet.store sl n k) j
  = if Nat.eqb j n then Some (Some k) else nth_error sl j.
Proof.
  induction sl as [|s sl IH]; intros n k j H.
  - destruct n; discriminate.
  - destruct n as [|n]; simpl in *.
    + destruct j; reflexivity.
    + destruct j as [|j]; simpl; [reflexivity|]. now apply IH.
Qed.

Lemma store_length sl : forall n k,
  List.length (PySet.store sl n k) = List.length sl.
Proof.
  induction sl as [|s sl IH]; intros n k; [reflexivity|].
  destruct n; simpl; [reflexivity | now rewrite IH].
Qed.

Lemma keys_In sl k :
  In k (PySet.keys sl) <-> exists n, nth_error sl n = Some (Some k).
Proof.
  induction sl as [|[x|] sl IH]; simpl.
  - split; [tauto | intros ([|n] & H); discriminate].
  - split.
    + intros [->|H]; [now exists 0%nat|].
      apply IH in H as (n & H). now exists (S n).
    + intros ([|n] & H); simpl in H.
      * left. congruence.
      * right. apply IH. now exists n.
  - split.
    + intros H. apply IH in H as (n & H). now exists (S n).
    + intros ([|n] & H); simpl in H; [discriminate|].
      apply IH. now exists n.
Qed.

Lemma keys_store sl : forall n k,
  nth_error sl n = Some None ->
  Permutation (PySet.keys (PySet.store sl n k)) (k :: PySet.keys sl).
Proof.
  induction sl as [|s sl IH]; intros n k H.
  - destruct n; discriminate.
  - destruct n as [|n]; simpl in H.
    + inversion H; subst. reflexivity.
    + simpl. destruct s as [x|]; simpl.
      * etransitivity; [apply perm_skip, IH, H | apply perm_swap].
      * now apply IH.
Qed.

Lemma linear_unused sl key p : forall i j,
  PySet.linear sl key i p = PySet.Unused j ->
  nth_error sl (Z.to_nat j) = Some None.
Proof.
  induction p as [|p IH]; intros i j; simpl;
    destruct (nth_error sl (Z.to_nat i)) as [[k|]|] eqn:E; try discriminate.
  - destruct (k =? key); discriminate.
  - intros H. inversion H; subst. assumption.
  - destruct (k =? key); [discriminate | apply IH].
  - intros H. inversion H; subst. assumption.
Qed.

Lemma linear_active sl key p : forall i,
  PySet.linear sl key i p = PySet.Active -> In key (PySet.keys sl).
Proof.
  induction p as [|p IH]; intros i; simpl;
    destruct (nth_error sl (Z.to_nat i)) as [[k|]|] eqn:E; try discriminate.
  - destruct (Z.eqb_spec k key); [|discriminate].
    intros _. subst. apply keys_In. eauto.
  - destruct (Z.eqb_spec k key); [|apply IH].
    intros _. subst. apply keys_In. eauto.
Qed.

(** Filling an unused slot changes no probe that ended on a key or went
    past. *)
Lemma linear_store sl n k' key p : forall i,
  nth_error sl n = Some None ->
  match PySet.linear sl key i p with
  | PySet.Active => PySet.linear (PySet.store sl n k') key i p = PySet.Active
  | PySet.Busy => PySet.linear (PySet.store sl n k') key i p = PySet.Busy
  | PySet.Unused _ => True
  end.
Proof.
  induction p as [|p IH]; intros i Hn; simpl; rewrite (store_nth sl n k' _ Hn);
    destruct (Nat.eqb_spec (Z.to_nat i) n) as [E|E];
    try (rewrite E, Hn; exact I);
    destruct (nth_error sl (Z.to_nat i)) as [[k|]|]; try exact I; try reflexivity.
  - destruct (k =? key); reflexivity.
  - destruct (k =? key); [reflexivity | now apply IH].
Qed.

Lemma linear_found sl key p : forall i j,
  PySet.linear sl key i p = PySet.Unused j ->
  PySet.linear (PySet.store sl (Z.to_nat j) key) key i p = PySet.Active.
Proof.
  induction p as [|p IH]; intros i j H;
    pose proof (linear_unused sl key _ i j H) as Hj;
    simpl in *; rewrite (store_nth sl _ key _ Hj);
    destruct (nth_error sl (Z.to_nat i)) as [[k|]|] eqn:E; try discriminate.
  - destruct (k =? key); discriminate.
  - inversion H; subst. now rewrite Nat.eqb_refl, Z.eqb_refl.
  - destruct (Nat.eqb_spec (Z.to_nat i) (Z.to_nat j)) as [E'|E'];
      [rewrite E' in E; congruence|].
    destruct (k =? key); [discriminate | now apply IH].
  - inversion H; subst. now rewrite Nat.eqb_refl, Z.eqb_refl.
Qed.

Lemma probe_unused f : forall sl m key i pt j,
  PySet.probe f sl m key i pt = Some (PySet.Unused j) ->
  nth_error sl (Z.to_nat j) = Some None.
Proof.
  induction f as [|f IH]; intros sl m key i pt j; simpl; [discriminate|].
  match goal with
  | |- context [PySet.linear sl key i ?p] =>
      destruct (PySet.linear sl key i p) eqn:E
  end.
  - intros H. inversion H; subst. eapply linear_unused; eauto.
  - discriminate.
  - apply IH.
Qed.

Lemma probe_active f : forall sl m key i pt,
  PySet.probe f sl m key i pt = Some PySet.Active -> In key (PySet.keys sl).
Proof.
  induction f as [|f IH]; intros sl m key i pt; simpl; [discriminate|].
  match goal with
  | |- context [PySet.linear sl key i ?p] =>
      destruct (PySet.linear sl key i p) eqn:E
  end.
  - discriminate.
  - intros _. eapply linear_active; eauto.
  - apply IH.
Qed.

Lemma probe_store f : forall sl n k' m key i pt,
  nth_error sl n = Some None ->
  PySet.probe f sl m key i pt = Some PySet.Active ->
  PySet.probe f (PySet.store sl n k') m key i pt = Some PySet.Active.
Proof.
  induction f as [|f IH]; intros sl n k' m key i pt Hn; simpl; [discriminate|].
  match goal with
  | |- context [PySet.linear sl key i ?p] =>
      pose proof (linear_store sl n k' key p i Hn) as L;
      destruct (PySet.linear sl key i p)
  end.
  - discriminate.
  - now rewrite L.
  - rewrite L. now apply IH.
Qed.

Lemma probe_found f : forall sl m key i pt j,
  PySet.probe f sl m key i pt = Some (PySet.Unused j) ->
  PySet.probe f (PySet.store sl (Z.to_nat j) key) m key i pt = Some PySet.Active.
Proof.
  induction f as [|f IH]; intros sl m key i pt j H; [discriminate|].
  pose proof (probe_unused _ _ _ _ _ _ _ H) as Hj.
  simpl in *.
  match type of H with
  | context [PySet.linear sl key i ?p] =>
      pose proof (linear_store sl (Z.to_nat j) key key p i Hj) as L;
      destruct (PySet.linear sl key i p) eqn:E
  end.
  - inversion H; subst. now rewrite (linear_found _ _ _ _ _ E).
  - discriminate.
  - rewrite L. now apply IH.
Qed.

Lemma store_invariant sl m key i :
  set_invariant sl m ->
  PySet.find sl m key = Some (PySet.Unused i) ->
  set_invariant (PySet.store sl (Z.to_nat i) key) m
  /\ Permutation (PySet.keys (PySet.store sl (Z.to_nat i) key))
                 (key :: PySet.keys sl).
Proof.
  intros [Hnd Hreach] Hfind.
  assert (Hi : nth_error sl (Z.to_nat i) = Some None).
  { unfold PySet.find in Hfind. eapply probe_unused; eauto. }
  pose proof (keys_store sl _ key Hi) as Hperm.
  split; [|assumption]. split.
  - apply (Permutation_NoDup (Permutation_sym Hperm)).
    constructor; [|assumption].
    intros Hin. rewrite (Hreach _ Hin) in Hfind. discriminate.
  - intros k Hk. apply (Permutation_in _ Hperm) in Hk.
    destruct Hk as [<-|Hk].
    + unfold PySet.find in *. now apply probe_found.
    + unfold PySet.find in *. apply probe_store; [assumption|].
      now apply Hreach.
Qed.

Lemma insert_clean_none entries :
  fold_left PySet.insert_clean entries None = None.
Proof. induction entries as [|e entries IH]; simpl; [reflexivity | assumption]. Qed.

Lemma insert_clean_fold entries : forall t t',
  fold_left PySet.insert_clean entries (Some t) = Some t' ->
  set_invariant (PySet.slots t) (PySet.mask t) ->
  set_invariant (PySet.slots t') (PySet.mask t')
  /\ Permutation (PySet.keys (PySet.slots t'))
                 (PySet.keys entries ++ PySet.keys (PySet.slots t)).
Proof.
  induction entries as [|[k|] entries IH]; intros t t' H Hinv.
  - simpl in H. inversion H; subst. split; [assumption | reflexivity].
  - cbn [fold_left PySet.insert_clean] in H.
    destruct (PySet.find (PySet.slots t) (PySet.mask t) k) as [[i| |]|] eqn:Hf;
      try (rewrite insert_clean_none in H; discriminate).
    destruct (store_invariant _ _ _ _ Hinv Hf) as [Hinv' Hperm].
    destruct (IH _ _ H Hinv') as [Hinv'' Hperm'']. cbn [PySet.slots PySet.mask] in *.
    split; [assumption|].
    etransitivity; [exact Hperm''|].
    cbn [PySet.keys]. etransitivity; [apply Permutation_app_head, Hperm|].
    symmetry. apply Permutation_middle.
  - cbn [fold_left PySet.insert_clean PySet.keys] in *. now apply IH.
Qed.

Lemma empty_invariant n m : set_invariant (repeat None n) m.
Proof.
  assert (E : PySet.keys (repeat None n) = []).
  { induction n; simpl; auto. }
  split; rewrite E; [constructor | intros k []].
Qed.

Lemma resize_invariant t minused t' :
  PySet.resize t minused = Some t' ->
  set_invariant (PySet.slots t') (PySet.mask t')
  /\ Permutation (PySet.keys (PySet.slots t')) (PySet.keys (PySet.slots t)).
Proof.
  unfold PySet.resize. intros H.
  apply insert_clean_fold in H; [|apply empty_invariant].
  destruct H as [Hinv Hperm]. split; [assumption|].
  cbn [PySet.slots] in Hperm.
  replace (PySet.keys (repeat None _)) with (@nil Z) in Hperm.
  - now rewrite app_nil_r in Hperm.
  - symmetry. generalize (Z.to_nat (Z.max PySet.PySet_MINSIZE (2 ^ (Z.log2 minused + 1)))).
    induction n; simpl; auto.
Qed.

Lemma add_invariant t key t' :
  PySet.add t key = Some t' ->
  set_invariant (PySet.slots t) (PySet.mask t) ->
  set_invariant (PySet.slots t') (PySet.mask t')
  /\ forall x, In x (PySet.keys (PySet.slots t'))
               <-> x = key \/ In x (PySet.keys (PySet.slots t)).
Proof.
  unfold PySet.add. intros H Hinv.
  destruct (PySet.find (PySet.slots t) (PySet.mask t) key) as [[i| |]|] eqn:Hf;
    try discriminate.
  - destruct (store_invariant _ _ _ _ Hinv Hf) as [Hinv' Hperm].
    cbv zeta in H. cbn [PySet.slots PySet.mask PySet.fill] in H.
    assert (Hmem : forall x,
               In x (PySet.keys (PySet.store (PySet.slots t) (Z.to_nat i) key))
               <-> x = key \/ In x (PySet.keys (PySet.slots t))).
    { intros x. split.
      - intros Hx. apply (Permutation_in _ Hperm) in Hx.
        destruct Hx; [left; congruence | now right].
      - intros Hx. apply (Permutation_in _ (Permutation_sym Hperm)).
        destruct Hx; [left; congruence | now right]. }
    destruct (_ <? _).
    + inversion H; subst. cbn [PySet.slots PySet.mask]. auto.
    + apply resize_invariant in H. destruct H as [Hinv'' Hperm''].
      split; [assumption|]. intros x. cbn [PySet.slots] in Hperm''.
      rewrite <- Hmem. split; apply Permutation_in;
        [assumption | now symmetry].
  - inversion H; subst. split; [assumption|].
    intros x. split; [now right|]. intros [->|Hx]; [|assumption].
    unfold PySet.find in Hf. eapply probe_active; eauto.
Qed.

Lemma of_list_invariant l : forall t t',
  fold_left (fun t key => match t with Some t => PySet.add t key | None => None end)
            l (Some t) = Some t' ->
  set_invariant (PySet.slots t) (PySet.mask t) ->
  set_invariant (PySet.slots t') (PySet.mask t')
  /\ forall x, In x (PySet.keys (PySet.slots t'))
               <-> In x l \/ In x (PySet.keys (PySet.slots t)).
Proof.
  induction l as [|key l IH]; intros t t' H Hinv.
  - simpl in H. inversion H; subst. split; [assumption|]. simpl. tauto.
  - cbn [fold_left] in H.
    destruct (PySet.add t key) as [t1|] eqn:Ha.
    + destruct (add_invariant _ _ _ Ha Hinv) as [Hinv1 Hmem1].
      destruct (IH _ _ H Hinv1) as [Hinv' Hmem'].
      split; [assumption|]. intros x. rewrite Hmem', Hmem1. simpl.
      intuition congruence.
    + exfalso. clear - H. induction l as [|k l IHl]; simpl in H;
        [discriminate | auto].
Qed.

(** What the iteration over [set(l)] gives has every element of [l], nothing
    else, and nothing twice. *)
Lemma iter_members l s :
  PySet.iter l = Some s ->
  NoDup s /\ forall x, In x s <-> In x l.
Proof.
  unfold PySet.iter, PySet.of_list.
  destruct (fold_left _ l (Some PySet.empty)) as [t|] eqn:H; [|discriminate].
  intros E. inversion E; subst.
  destruct (of_list_invariant l _ _ H (empty_invariant 8 _)) as [[Hnd _] Hmem].
  split; [assumption|]. intros x. rewrite Hmem. simpl. tauto.
Qed.

End SetModel.

(** * Every probe sequence ends *)

Section ProbeSequence.

Lemma odd_cancel (n : nat) : forall c p,
  Z.odd c = true -> (2 ^ Z.of_nat n | c * p) -> (2 ^ Z.of_nat n | p).
Proof.
  induction n as [|n IH]; intros c p Hc H.
  - simpl. apply Z.divide_1_l.
  - rewrite Nat2Z.inj_succ, Z.pow_succ_r in * by lia.
    assert (Hp : Z.even p = true).
    { destruct H as [q Hq].
      assert (E : Z.even (c * p) = true).
      { rewrite Hq, Z.even_mul, (Z.even_mul 2). simpl. apply orb_true_r. }
      rewrite Z.even_mul, <- (Z.negb_odd c), Hc in E. exact E. }
    apply Z.even_spec in Hp as [p' ->].
    apply Z.mul_divide_mono_l. apply (IH c p' Hc).
    destruct H as [q Hq]. exists q. lia.
Qed.

Lemma pow5_odd (n : nat) : Z.odd (5 ^ Z.of_nat n) = true.
Proof.
  induction n as [|n IH]; [reflexivity|].
  rewrite Nat2Z.inj_succ, Z.pow_succ_r, Z.odd_mul, IH by lia. reflexivity.
Qed.

Lemma pow5_mod4 (n : nat) : 5 ^ Z.of_nat n mod 4 = 1.
Proof.
  induction n as [|n IH]; [reflexivity|].
  rewrite Nat2Z.inj_succ, Z.pow_succ_r by lia.
  rewrite <- Z.mul_mod_idemp_r, IH by lia. reflexivity.
Qed.

Lemma pow5_mod8 (n : nat) :
  5 ^ Z.of_nat n mod 8 = if Nat.even n then 1 else 5.
Proof.
  induction n as [|n IH]; [reflexivity|].
  rewrite Nat2Z.inj_succ, Z.pow_succ_r by lia.
  rewrite <- Z.mul_mod_idemp_r, IH by lia.
  rewrite Nat.even_succ, <- Nat.negb_even.
  destruct (Nat.even n); reflexivity.
Qed.

(** The order of 5 modulo a power of two. *)
Lemma pow5_order (k : nat) : forall d : nat,
  (0 < d)%nat ->
  (2 ^ (Z.of_nat k + 2) | 5 ^ Z.of_nat d - 1) ->
  (2 ^ Z.of_nat k | Z.of_nat d).
Proof.
  induction k as [|k IH]; intros d Hd H.
  - simpl. apply Z.divide_1_l.
  - destruct (Nat.even d) eqn:Ev.
    + apply Nat.even_spec in Ev as [e ->].
      rewrite Nat2Z.inj_mul, Nat2Z.inj_succ, Z.pow_succ_r by lia.
      change (Z.of_nat 2) with 2.
      apply Z.mul_divide_mono_l. apply IH; [lia|].
      pose proof (pow5_mod4 e) as H4.
      pose proof (Z.div_mod (5 ^ Z.of_nat e) 4 ltac:(lia)) as Hq.
      rewrite H4 in Hq. set (q := 5 ^ Z.of_nat e / 4) in *.
      replace (Z.of_nat k + 2) with (Z.of_nat (k + 2)) by lia.
      apply (odd_cancel (k + 2) (2 * q + 1)).
      { rewrite Z.odd_add, Z.odd_mul. reflexivity. }
      destruct H as [c Hc]. exists c.
      assert (E : 5 ^ Z.of_nat (2 * e) = 5 ^ Z.of_nat e * 5 ^ Z.of_nat e).
      { rewrite <- Z.pow_add_r by lia. f_equal. lia. }
      rewrite E in Hc.
      replace (Z.of_nat (S k) + 2) with (Z.succ (Z.of_nat (k + 2))) in Hc by lia.
      rewrite Z.pow_succ_r in Hc by lia.
      set (X := 5 ^ Z.of_nat e) in *. set (P := 2 ^ Z.of_nat (k + 2)) in *.
      nia.
    + exfalso.
      pose proof (pow5_mod8 d) as H8. rewrite Ev in H8.
      assert (D8 : (8 | 5 ^ Z.of_nat d - 1)).
      { eapply Z.divide_trans; [|exact H].
        replace (Z.of_nat (S k) + 2) with (3 + Z.of_nat k) by lia.
        rewrite Z.pow_add_r by lia. exists (2 ^ Z.of_nat k).
        change (2 ^ 3) with 8. lia. }
      apply Z.mod_divide in D8; [|lia].
      rewrite Zminus_mod, H8 in D8. discriminate.
Qed.

Lemma mod_eq_divide a b m : 0 < m -> a mod m = b mod m -> (m | b - a).
Proof.
  intros Hm H. apply Z.mod_divide; [lia|].
  rewrite Zminus_mod, H, Z.sub_diag. reflexivity.
Qed.

Lemma lcg_orbit M i0 n :
  0 < M ->
  (4 * Nat.iter n (lcg M) i0 + 1) mod (4 * M)
  = (5 ^ Z.of_nat n * (4 * i0 + 1)) mod (4 * M).
Proof.
  intros HM. induction n as [|n IH].
  - change (Nat.iter 0 (lcg M) i0) with i0.
    change (Z.of_nat 0) with 0. rewrite Z.pow_0_r. f_equal. lia.
  - rewrite Nat.iter_succ. set (x := Nat.iter n (lcg M) i0) in *.
    unfold lcg at 1.
    rewrite <- Z.mul_mod_distr_l by lia.
    rewrite Z.add_mod_idemp_l by lia.
    replace (4 * (5 * x + 1) + 1) with (5 * (4 * x + 1)) by lia.
    rewrite <- Z.mul_mod_idemp_r, IH, Z.mul_mod_idemp_r by lia.
    f_equal. rewrite Nat2Z.inj_succ, Z.pow_succ_r by lia. lia.
Qed.

Lemma lcg_injective (k a b : nat) i0 :
  (a < b)%nat -> Z.of_nat b < 2 ^ Z.of_nat k ->
  Nat.iter a (lcg (2 ^ Z.of_nat k)) i0 <> Nat.iter b (lcg (2 ^ Z.of_nat k)) i0.
Proof.
  intros Hab Hb E.
  assert (HM : 0 < 2 ^ Z.of_nat k) by (apply Z.pow_pos_nonneg; lia).
  pose proof (lcg_orbit _ i0 a HM) as Ha.
  pose proof (lcg_orbit _ i0 b HM) as Hb'.
  rewrite E, Hb' in Ha. apply mod_eq_divide in Ha; [|lia].
  replace b with (a + (b - a))%nat in Ha at 1 by lia.
  rewrite Nat2Z.inj_add, Z.pow_add_r in Ha by lia.
  replace (5 ^ Z.of_nat a * (4 * i0 + 1)
           - 5 ^ Z.of_nat a * 5 ^ Z.of_nat (b - a) * (4 * i0 + 1))
    with ((5 ^ Z.of_nat a * (4 * i0 + 1)) * (- (5 ^ Z.of_nat (b - a) - 1)))
    in Ha by ring.
  replace (4 * 2 ^ Z.of_nat k) with (2 ^ Z.of_nat (k + 2)) in Ha
    by (rewrite Nat2Z.inj_add, Z.pow_add_r by lia;
        change (2 ^ Z.of_nat 2) with 4; lia).
  apply odd_cancel in Ha.
  2:{ rewrite Z.odd_mul, pow5_odd, Z.odd_add, Z.odd_mul. reflexivity. }
  apply -> Z.divide_opp_r in Ha.
  replace (Z.of_nat (k + 2)) with (Z.of_nat k + 2) in Ha by lia.
  apply pow5_order in Ha; [|lia].
  apply Z.divide_pos_le in Ha; lia.
Qed.

(** From any slot the recurrence goes through every slot of the table
    within as many jumps as there are slots. *)
Lemma lcg_cover (k : nat) i0 e :
  0 <= i0 < 2 ^ Z.of_nat k -> 0 <= e < 2 ^ Z.of_nat k ->
  exists n, Z.of_nat n < 2 ^ Z.of_nat k
            /\ Nat.iter n (lcg (2 ^ Z.of_nat k)) i0 = e.
Proof.
  intros Hi He. set (M := 2 ^ Z.of_nat k) in *.
  set (N := Z.to_nat M).
  set (f := fun n => Nat.iter n (lcg M) i0).
  assert (Hincl : incl (map Z.of_nat (seq 0 N)) (map f (seq 0 N))).
  { apply NoDup_length_incl.
    - apply NoDup_map_NoDup_ForallPairs; [|apply seq_NoDup].
      intros a b Ha Hb Hf. apply in_seq in Ha, Hb.
      destruct (Nat.lt_trichotomy a b) as [Hlt|[Heq|Hgt]]; [|assumption|].
      + exfalso. apply (lcg_injective k a b i0 Hlt); [lia | exact Hf].
      + exfalso. apply (lcg_injective k b a i0 Hgt); [lia | now symmetry].
    - now rewrite !length_map.
    - intros x Hx. apply in_map_iff in Hx as (n & <- & Hn).
      apply in_map_iff. exists (Z.to_nat (f n)).
      assert (Hr : 0 <= f n < M).
      { unfold f. destruct n as [|n]; [exact Hi|].
        rewrite Nat.iter_succ. unfold lcg at 1. apply Z.mod_pos_bound. lia. }
      split; [lia|]. apply in_seq. lia. }
  assert (Hin : In e (map Z.of_nat (seq 0 N))).
  { apply in_map_iff. exists (Z.to_nat e). split; [lia|]. apply in_seq. lia. }
  apply Hincl, in_map_iff in Hin as (n & Hn & Hs).
  apply in_seq in Hs. exists n. split; [lia | exact Hn].
Qed.

Lemma jump_perturb m n : forall i pt,
  snd (Nat.iter n (jump m) (i, pt)) = Z.shiftr pt (5 * Z.of_nat n).
Proof.
  induction n as [|n IH]; intros i pt.
  - simpl. now rewrite Z.shiftr_0_r.
  - rewrite Nat.iter_succ_r. unfold jump at 2. cbn [fst snd]. cbv zeta.
    rewrite IH. unfold PySet.PERTURB_SHIFT.
    rewrite Z.shiftr_shiftr by lia. f_equal. lia.
Qed.

Lemma jump_range (k : nat) s :
  0 <= fst (jump (2 ^ Z.of_nat k - 1) s) < 2 ^ Z.of_nat k.
Proof.
  unfold jump. cbv zeta. cbn [fst].
  replace (2 ^ Z.of_nat k - 1) with (Z.ones (Z.of_nat k))
    by (rewrite Z.ones_equiv; lia).
  rewrite Z.land_ones by lia. apply Z.mod_pos_bound.
  apply Z.pow_pos_nonneg; lia.
Qed.

Lemma jump_lcg (k n : nat) : forall i,
  Nat.iter n (jump (2 ^ Z.of_nat k - 1)) (i, 0)
  = (Nat.iter n (lcg (2 ^ Z.of_nat k)) i, 0).
Proof.
  induction n as [|n IH]; intros i; [reflexivity|].
  rewrite !Nat.iter_succ, IH. unfold jump at 1. cbv zeta. cbn [fst snd].
  rewrite Z.shiftr_0_l. f_equal.
  replace (2 ^ Z.of_nat k - 1) with (Z.ones (Z.of_nat k))
    by (rewrite Z.ones_equiv; lia).
  rewrite Z.land_ones by lia. unfold lcg. f_equal. lia.
Qed.

Lemma probe_reaches n : forall f sl m key i pt,
  (n < f)%nat ->
  nth_error sl (Z.to_nat (fst (Nat.iter n (jump m) (i, pt)))) = Some None ->
  PySet.probe f sl m key i pt <> None.
Proof.
  induction n as [|n IH]; intros f sl m key i pt Hf Hn;
    (destruct f as [|f]; [lia|]); cbn [PySet.probe]; cbv zeta.
  - change (Nat.iter 0 (jump m) (i, pt)) with (i, pt) in Hn. cbn [fst] in Hn.
    match goal with
    | |- context [PySet.linear sl key i ?p] =>
        assert (E : PySet.linear sl key i p = PySet.Unused i)
          by (destruct p; simpl; now rewrite Hn)
    end.
    rewrite E. discriminate.
  - match goal with
    | |- context [PySet.linear sl key i ?p] => destruct (PySet.linear sl key i p)
    end; try discriminate.
    apply IH; [lia|]. rewrite Nat.iter_succ_r in Hn. exact Hn.
Qed.

(** In a table of [2^k] slots with an unused slot, every lookup ends within
    the fuel. *)
Lemma find_total sl (k : nat) key e :
  Z.of_nat (List.length sl) = 2 ^ Z.of_nat k ->
  nth_error sl e = Some None ->
  PySet.find sl (2 ^ Z.of_nat k - 1) key <> None.
Proof.
  intros Hlen He. unfold PySet.find. cbv zeta.
  set (m := 2 ^ Z.of_nat k - 1).
  set (i0 := Z.land (PySet.hash key) m).
  set (pt0 := PySet.hash key mod 2 ^ 64).
  assert (HM : 0 < 2 ^ Z.of_nat k) by (apply Z.pow_pos_nonneg; lia).
  assert (He' : 0 <= Z.of_nat e < 2 ^ Z.of_nat k).
  { assert (e < List.length sl)%nat by (apply nth_error_Some; congruence). lia. }
  destruct (Nat.iter 13 (jump m) (i0, pt0)) as [i13 pt13] eqn:E13.
  assert (Hpt : pt13 = 0).
  { pose proof (jump_perturb m 13 i0 pt0) as Hp. rewrite E13 in Hp.
    cbn [snd] in Hp. rewrite Hp.
    assert (0 <= pt0 < 2 ^ 64) by (apply Z.mod_pos_bound; lia).
    rewrite Z.shiftr_div_pow2 by lia. apply Z.div_small.
    change (5 * Z.of_nat 13) with 65. split; [lia|].
    eapply Z.lt_trans; [apply H|]. reflexivity. }
  assert (Hi13 : 0 <= i13 < 2 ^ Z.of_nat k).
  { change 13%nat with (S 12) in E13. rewrite Nat.iter_succ in E13.
    pose proof (jump_range k (Nat.iter 12 (jump m) (i0, pt0))) as Hr.
    fold m in Hr. rewrite E13 in Hr. exact Hr. }
  subst pt13.
  destruct (lcg_cover k i13 (Z.of_nat e) Hi13 He') as (n & Hn & Hcov).
  apply (probe_reaches (n + 13)).
  - unfold PySet.probe_fuel. subst m. lia.
  - rewrite Nat.iter_add, E13. unfold m. rewrite jump_lcg. cbn [fst].
    rewrite Hcov, Nat2Z.id. exact He.
Qed.

End ProbeSequence.

(** * The set is always built *)

Section SetTotal.

Lemma keys_repeat n : PySet.keys (repeat None n) = [].
Proof. induction n; simpl; auto. Qed.

Lemma free_slot sl :
  (List.length (PySet.keys sl) < List.length sl)%nat ->
  exists e, nth_error sl e = Some None.
Proof.
  induction sl as [|[x|] sl IH]; simpl; intros H.
  - lia.
  - destruct IH as (e & He); [lia|]. now exists (S e).
  - now exists 0%nat.
Qed.

Lemma probe_not_busy f : forall sl m key i pt,
  PySet.probe f sl m key i pt <> Some PySet.Busy.
Proof.
  induction f as [|f IH]; intros sl m key i pt; simpl; [discriminate|].
  match goal with
  | |- context [PySet.linear sl key i ?p] => destruct (PySet.linear sl key i p)
  end; try discriminate. apply IH.
Qed.

(** A lookup in a table with room finds the key or an unused slot. *)
Lemma find_settles (k : nat) t key :
  set_shape k t ->
  PySet.fill t < 2 ^ Z.of_nat k ->
  PySet.find (PySet.slots t) (PySet.mask t) key = Some PySet.Active
  \/ exists i, PySet.find (PySet.slots t) (PySet.mask t) key
               = Some (PySet.Unused i).
Proof.
  intros (Hk & Hm & Hl & Hf) Hroom.
  destruct (free_slot (PySet.slots t)) as (e & He); [lia|].
  pose proof (find_total (PySet.slots t) k key e Hl He) as Ht.
  rewrite <- Hm in Ht.
  destruct (PySet.find (PySet.slots t) (PySet.mask t) key) as [[i| |]|] eqn:E.
  - right. now exists i.
  - now left.
  - exfalso. unfold PySet.find in E. now apply probe_not_busy in E.
  - congruence.
Qed.

Lemma store_shape (k : nat) t key i :
  set_shape k t ->
  set_invariant (PySet.slots t) (PySet.mask t) ->
  PySet.find (PySet.slots t) (PySet.mask t) key = Some (PySet.Unused i) ->
  set_shape k (PySet.mkTable (PySet.store (PySet.slots t) (Z.to_nat i) key)
                             (PySet.mask t) (PySet.fill t + 1)).
Proof.
  intros (Hk & Hm & Hl & Hf) Hinv Hfind.
  destruct (store_invariant _ _ _ _ Hinv Hfind) as [_ Hperm].
  apply Permutation_length in Hperm.
  repeat split; cbn [PySet.slots PySet.mask PySet.fill]; try assumption.
  - now rewrite store_length.
  - rewrite Hperm. simpl List.length. lia.
Qed.

Lemma insert_clean_total (k : nat) entries : forall t,
  set_shape k t ->
  set_invariant (PySet.slots t) (PySet.mask t) ->
  NoDup (PySet.keys entries ++ PySet.keys (PySet.slots t)) ->
  Z.of_nat (List.length (PySet.keys entries)) + PySet.fill t < 2 ^ Z.of_nat k ->
  exists t',
    fold_left PySet.insert_clean entries (Some t) = Some t'
    /\ set_shape k t'
    /\ PySet.fill t' = PySet.fill t + Z.of_nat (List.length (PySet.keys entries)).
Proof.
  induction entries as [|[key|] entries IH]; intros t Hs Hinv Hnd Hroom.
  - exists t. split; [reflexivity|]. split; [assumption|]. simpl. lia.
  - cbn [PySet.keys List.length app] in *.
    assert (Hfill : 0 <= PySet.fill t) by (destruct Hs as (_ & _ & _ & ->); lia).
    destruct (find_settles k t key Hs) as [Ha|(i & Hu)]; [lia| |].
    + exfalso. unfold PySet.find in Ha. apply probe_active in Ha.
      inversion Hnd as [|? ? Hnotin _]; subst. apply Hnotin.
      apply in_or_app. now right.
    + cbn [fold_left PySet.insert_clean]. rewrite Hu.
      destruct (store_invariant _ _ _ _ Hinv Hu) as [Hinv' Hperm].
      destruct (IH _ (store_shape k t key i Hs Hinv Hu)) as (t' & Hfold & Hs' & Hf').
      * exact Hinv'.
      * cbn [PySet.slots].
        apply (Permutation_NoDup (l := key :: PySet.keys entries
                                         ++ PySet.keys (PySet.slots t)));
          [|assumption].
        etransitivity; [apply Permutation_middle|].
        apply Permutation_app_head. now symmetry.
      * cbn [PySet.fill]. lia.
      * exists t'. cbn [PySet.fill] in Hf'.
        split; [assumption|]. split; [assumption|]. lia.
  - cbn [fold_left PySet.insert_clean PySet.keys] in *. now apply IH.
Qed.

Lemma resize_total (k : nat) t minused :
  set_shape k t ->
  set_invariant (PySet.slots t) (PySet.mask t) ->
  0 < minused -> PySet.fill t <= minused ->
  exists t' k',
    PySet.resize t minused = Some t'
    /\ set_shape k' t'
    /\ PySet.fill t' = PySet.fill t
    /\ minused <= PySet.mask t'.
Proof.
  intros Hs [Hnd _] Hpos Hle. unfold PySet.resize. cbv zeta.
  set (a := Z.log2 minused + 1).
  assert (Ha : 0 <= a) by (pose proof (Z.log2_nonneg minused); lia).
  assert (Hlt : minused < 2 ^ a).
  { pose proof (Z.log2_spec minused Hpos) as Hl. unfold a.
    replace (Z.log2 minused + 1) with (Z.succ (Z.log2 minused)) by lia. lia. }
  set (k' := Z.to_nat (Z.max 3 a)).
  assert (Hsize : Z.max PySet.PySet_MINSIZE (2 ^ a) = 2 ^ Z.of_nat k').
  { unfold k', PySet.PySet_MINSIZE. rewrite Z2Nat.id by lia.
    change 8 with (2 ^ 3).
    destruct (Z.le_ge_cases a 3) as [H3|H3].
    - rewrite (Z.max_l 3 a) by lia.
      apply Z.max_l. apply Z.pow_le_mono_r; lia.
    - rewrite (Z.max_r 3 a) by lia.
      apply Z.max_r. apply Z.pow_le_mono_r; lia. }
  rewrite Hsize.
  set (t0 := PySet.mkTable (repeat None (Z.to_nat (2 ^ Z.of_nat k')))
                           (2 ^ Z.of_nat k' - 1) 0).
  assert (HM : 0 < 2 ^ Z.of_nat k') by (apply Z.pow_pos_nonneg; lia).
  assert (Hs0 : set_shape k' t0).
  { split; [unfold k'; lia|]. split; [reflexivity|].
    split; unfold t0; cbn [PySet.slots PySet.mask PySet.fill].
    - rewrite repeat_length. lia.
    - now rewrite keys_repeat. }
  assert (Hfill : PySet.fill t = Z.of_nat (List.length (PySet.keys (PySet.slots t))))
    by (now destruct Hs as (_ & _ & _ & ?)).
  assert (Hbig : minused < 2 ^ Z.of_nat k').
  { rewrite <- Hsize. lia. }
  destruct (insert_clean_total k' (PySet.slots t) t0 Hs0) as (t' & Hfold & Hs' & Hf').
  - apply empty_invariant.
  - unfold t0. cbn [PySet.slots]. now rewrite keys_repeat, app_nil_r.
  - unfold t0. cbn [PySet.fill]. lia.
  - exists t', k'. split; [exact Hfold|]. split; [exact Hs'|].
    unfold t0 in Hf'. cbn [PySet.fill] in Hf'. split; [lia|].
    destruct Hs' as (_ & Hm' & _). lia.
Qed.

Lemma add_total (k : nat) t key :
  set_shape k t ->
  set_invariant (PySet.slots t) (PySet.mask t) ->
  set_sparse t ->
  exists t' k',
    PySet.add t key = Some t' /\ set_shape k' t' /\ set_sparse t'.
Proof.
  intros Hs Hinv Hsp. unfold PySet.add.
  assert (Hfill : 0 <= PySet.fill t) by (destruct Hs as (_ & _ & _ & ->); lia).
  assert (Hmask : PySet.mask t = 2 ^ Z.of_nat k - 1) by (now destruct Hs as (_ & ? & _)).
  unfold set_sparse in Hsp.
  destruct (find_settles k t key Hs) as [Ha|(i & Hu)]; [lia| |].
  - rewrite Ha. now exists t, k.
  - rewrite Hu. cbv zeta. cbn [PySet.fill PySet.mask].
    pose proof (store_shape k t key i Hs Hinv Hu) as Hs1.
    destruct (store_invariant _ _ _ _ Hinv Hu) as [Hinv1 _].
    set (t1 := PySet.mkTable (PySet.store (PySet.slots t) (Z.to_nat i) key)
                             (PySet.mask t) (PySet.fill t + 1)) in *.
    destruct (Z.ltb_spec ((PySet.fill t + 1) * 5) (PySet.mask t * 3)) as [Hlt|Hge].
    + exists t1, k. split; [reflexivity|]. split; [exact Hs1 | exact Hlt].
    + destruct (resize_total k t1
                  (if 50000 <? PySet.fill t + 1
                   then (PySet.fill t + 1) * 2 else (PySet.fill t + 1) * 4)
                  Hs1 Hinv1)
        as (t' & k' & Hr & Hs' & Hf' & Hm').
      * destruct (50000 <? PySet.fill t + 1); lia.
      * unfold t1. cbn [PySet.fill]. destruct (50000 <? PySet.fill t + 1); lia.
      * exists t', k'. split; [exact Hr|]. split; [exact Hs'|].
        unfold set_sparse. rewrite Hf'. unfold t1. cbn [PySet.fill].
        destruct (50000 <? PySet.fill t + 1); lia.
Qed.

Lemma of_list_total l : forall (k : nat) t,
  set_shape k t ->
  set_invariant (PySet.slots t) (PySet.mask t) ->
  set_sparse t ->
  exists t',
    fold_left (fun t key => match t with Some t => PySet.add t key | None => None end)
              l (Some t) = Some t'.
Proof.
  induction l as [|key l IH]; intros k t Hs Hinv Hsp.
  - now exists t.
  - cbn [fold_left].
    destruct (add_total k t key Hs Hinv Hsp) as (t1 & k1 & Ha & Hs1 & Hsp1).
    rewrite Ha.
    destruct (add_invariant _ _ _ Ha Hinv) as [Hinv1 _].
    now apply (IH k1).
Qed.

(** The iteration over [set(l)] is always settled within the fuel. *)
Lemma iter_total l : exists s, PySet.iter l = Some s.
Proof.
  unfold PySet.iter, PySet.of_list.
  destruct (of_list_total l 3 PySet.empty) as (t & Ht).
  - split; [lia|]. split; [reflexivity|]. split; reflexivity.
  - apply (empty_invariant 8).
  - reflexivity.
  - rewrite Ht. simpl. eauto.
Qed.

(** The two modes of the parser on the same tokens. *)
Lemma dedup_members toks :
  match get_task_ids toks false with
  | Ok ordered =>
      exists ids,
        get_task_ids toks true = Ok ids
        /\ NoDup ids
        /\ forall i, In i ids <-> In i ordered
  | Raise e => get_task_ids toks true = Raise e
  end.
Proof.
  unfold get_task_ids. destruct (gather toks) as [l|e]; cbn [rbind]; [|reflexivity].
  destruct (iter_total l) as (s & Hs). rewrite Hs.
  destruct (iter_members l s Hs) as [Hnd Hmem].
  exists (map (fun e => e - 1) s). split; [reflexivity|]. split.
  - apply NoDup_map_NoDup_ForallPairs; [|assumption].
    intros a b _ _ H. lia.
  - intros i. rewrite !in_map_iff. split; intros (x & Hx & Hin);
      exists x; (split; [assumption|]); now apply Hmem.
Qed.

End SetTotal.

(** X15: In deduplicating mode the parser fails exactly when the
    order-preserving mode fails, with the same exception; otherwise it
    returns the indices of the order-preserving mode, every one of them and
    each once. *)
Theorem get_task_ids_dedup (toks : list string) :
  match get_task_ids toks false with
  | Ok ordered =>
      exists ids,
        get_task_ids toks true = Ok ids
        /\ NoDup ids
        /\ forall i, In i ids <-> In i ordered
  | Raise e => get_task_ids toks true = Raise e
  end.
Proof. apply dedup_members. Qed.

(** X16: [todos done] and [todos delete] on an id expression that parses and
    whose indices all lie in the list: each task named by the expression,
    however often and in whatever order, gets one score-up (one delete)
    request, followed by its message and the pause, and the local list that
    is left is the list without those tasks. *)
Theorem todos_bulk_expression (args : list string) (todos : list Task)
        (ordered : list Z) (w : world)
        (Hparse : get_task_ids (tl args) false = Ok ordered)
        (Hrange : Forall (fun tid => 0 <= tid < Z.of_nat (List.length todos))
                         ordered) :
  exists tids recs,
    NoDup tids
    /\ (forall i, In i tids <-> In i ordered)
    /\ rmap (PyList.getitem todos) tids = Ok recs
    /\ List.length recs = List.length tids
    /\ todos_done args todos w
       = (Ok (without ordered todos), extend w (flat_map done_events recs))
    /\ todos_delete args todos w
       = (Ok (without ordered todos), extend w (flat_map delete_events recs)).
Proof.
  pose proof (dedup_members (tl args)) as Hd. rewrite Hparse in Hd.
  destruct Hd as (tids & Hids & Hnd & Hmem).
  assert (Hrange' : Forall (fun tid => 0 <= tid < Z.of_nat (List.length todos)) tids).
  { rewrite Forall_forall in *. intros x Hx. apply Hrange. now apply Hmem. }
  destruct (todos_bulk_distinct args todos tids w Hids Hnd Hrange')
    as (recs & Hr & Hl & Hdone & Hdel).
  exists tids, recs.
  assert (E : without tids todos = without ordered todos).
  { unfold without. apply keep_from_ext. intros j _. apply Hmem. }
  rewrite <- E. auto 10.
Qed.

Lemma todos_bulk_expression_witness :
  exists tids recs,
    NoDup tids
    /\ (forall i, In i tids <-> In i [2; 0; 2])
    /\ rmap (PyList.getitem
               [mkTask "a1" "A" "" false; mkTask "b2" "B" "" false;
                mkTask "c3" "C" "" false]) tids = Ok recs
    /\ List.length recs = List.length tids
    /\ todos_done ["done"; "3,1"; "3"]
         [mkTask "a1" "A" "" false; mkTask "b2" "B" "" false;
          mkTask "c3" "C" "" false] no_cache
       = (Ok (without [2; 0; 2]
                [mkTask "a1" "A" "" false; mkTask "b2" "B" "" false;
                 mkTask "c3" "C" "" false]),
          extend no_cache (flat_map done_events recs))
    /\ todos_delete ["done"; "3,1"; "3"]
         [mkTask "a1" "A" "" false; mkTask "b2" "B" "" false;
          mkTask "c3" "C" "" false] no_cache
       = (Ok (without [2; 0; 2]
                [mkTask "a1" "A" "" false; mkTask "b2" "B" "" false;
                 mkTask "c3" "C" "" false]),
          extend no_cache (flat_map delete_events recs)).
Proof.
  apply (todos_bulk_expression ["done"; "3,1"; "3"]).
  - reflexivity.
  - repeat constructor; simpl; lia.
Defined.

(** * Checklists and the task listing *)

Section Listing.

Lemma string_append_assoc (a b c : string) :
  ((a ++ b) ++ c = a ++ (b ++ c))%string.
Proof. induction a as [|x a IH]; simpl; [reflexivity | now rewrite IH]. Qed.

Lemma length_list_ascii (s : string) :
  List.length (list_ascii_of_string s) = String.length s.
Proof. induction s as [|c s IH]; simpl; [reflexivity | now rewrite IH]. Qed.

Lemma iter_len obj l n :
  py_iter obj = Ok l -> py_len obj = Ok n -> n = Z.of_nat (List.length l).
Proof.
  destruct obj; simpl; try discriminate; intros Hl Hn;
    inversion Hl; inversion Hn; subst.
  - now rewrite length_map, length_list_ascii.
  - reflexivity.
  - now rewrite length_map.
Qed.

Lemma count_bounds lis : forall c m,
  rfold (fun count li =>
           (c <- Py.subscript li (JStr "completed") ;;
            Ok (if eq_true c then count + 1 else count))%res)
        lis c = Ok m ->
  c <= m <= c + Z.of_nat (List.length lis).
Proof.
  induction lis as [|li lis IH]; intros c m H.
  - simpl in *. inversion H. lia.
  - cbn [rfold] in H.
    destruct (Py.subscript li (JStr "completed")) as [v|]; cbn [rbind] in H;
      [|discriminate].
    apply IH in H. cbn [List.length]. destruct (eq_true v); lia.
Qed.

Lemma no_checklist task :
  py_in "checklist" task = Ok false ->
  exists e, Py.subscript task (JStr "checklist") = Raise e.
Proof.
  destruct task; simpl; try discriminate; eauto.
  destruct (Cfg.lookup d "checklist"); [discriminate | eauto].
Qed.

Lemma list_task_off note_first i task :
  list_task false note_first i task
  = match task_line note_first i task with
    | Ok la => ([fst la], Ok tt)
    | Raise e => ([], Raise e)
    end.
Proof.
  unfold list_task, plift, pbind, print_line.
  destruct (task_line note_first i task); reflexivity.
Qed.

Lemma task_line_head note_first i task line a :
  task_line note_first i task = Ok (line, a) ->
  exists c rest,
    Py.subscript task (JStr "completed") = Ok c
    /\ line = ("[" ++ completed_mark c ++ "] " ++ PyStr.of_Z (Z.of_nat i + 1)
                 ++ rest)%string.
Proof.
  unfold task_line.
  destruct (Py.subscript task (JStr "completed")) as [c|]; cbn [rbind];
    [|discriminate].
  intros H. exists c.
  assert (Hline : forall r : result string,
             r = (if note_first
                  then (notes <- Py.subscript task (JStr "notes") ;;
                        notes50 <- slice50 notes ;;
                        text <- Py.subscript task (JStr "text") ;;
                        Ok ("[" ++ completed_mark c ++ "] "
                              ++ PyStr.of_Z (Z.of_nat i + 1)
                              ++ " <" ++ Py.str notes50 ++ "> " ++ Py.str text)%string)%res
                  else (text <- Py.subscript task (JStr "text") ;;
                        notes <- Py.subscript task (JStr "notes") ;;
                        Ok ("[" ++ completed_mark c ++ "] "
                              ++ PyStr.of_Z (Z.of_nat i + 1)
                              ++ " " ++ Py.str text ++ " <" ++ Py.str notes ++ ">")%string)%res) ->
             forall line0, r = Ok line0 ->
             exists rest0,
               line0 = ("[" ++ completed_mark c ++ "] "
                          ++ PyStr.of_Z (Z.of_nat i + 1) ++ rest0)%string).
  { intros r -> line0. destruct note_first.
    - destruct (Py.subscript task (JStr "notes")) as [n|]; cbn [rbind];
        [|discriminate].
      destruct (slice50 n) as [n50|]; cbn [rbind]; [|discriminate].
      destruct (Py.subscript task (JStr "text")) as [t|]; cbn [rbind];
        [|discriminate].
      intros E. inversion E. eexists. reflexivity.
    - destruct (Py.subscript task (JStr "text")) as [t|]; cbn [rbind];
        [|discriminate].
      destruct (Py.subscript task (JStr "notes")) as [n|]; cbn [rbind];
        [|discriminate].
      intros E. inversion E. eexists. reflexivity. }
  match type of H with
  | rbind ?r _ = _ => specialize (Hline r eq_refl); destruct r as [line0|]
  end; cbn [rbind] in H; [|discriminate].
  destruct (Hline line0 eq_refl) as (rest0 & ->).
  destruct (cl_item_count task) as [n|]; cbn [rbind] in H; [|discriminate].
  destruct (0 <? n).
  - destruct (cl_done_count task) as [d|]; cbn [rbind] in H; [|discriminate].
    inversion H; subst.
    exists (rest0 ++ " (" ++ PyStr.of_Z d ++ "/" ++ PyStr.of_Z n ++ ")")%string.
    split; [reflexivity|]. rewrite !string_append_assoc. cbn [append].
    now rewrite !string_append_assoc.
  - inversion H; subst. now exists rest0.
Qed.

Lemma listing_from note_first tasks : forall i,
  (List.length (fst (pfor (list_task false note_first) i tasks))
   <= List.length tasks)%nat
  /\ (snd (pfor (list_task false note_first) i tasks) = Ok tt ->
      List.length (fst (pfor (list_task false note_first) i tasks))
      = List.length tasks)
  /\ forall k line,
      nth_error (fst (pfor (list_task false note_first) i tasks)) k = Some line ->
      exists task c rest,
        nth_error tasks k = Some task
        /\ Py.subscript task (JStr "completed") = Ok c
        /\ line = ("[" ++ completed_mark c ++ "] "
                     ++ PyStr.of_Z (Z.of_nat (i + k) + 1) ++ rest)%string.
Proof.
  induction tasks as [|task tasks IH]; intros i.
  - simpl. split; [lia|]. split; [reflexivity|].
    intros [|k] line H; discriminate.
  - cbn [pfor]. rewrite list_task_off.
    destruct (task_line note_first i task) as [[line0 a]|e] eqn:E.
    + unfold pbind. cbn [fst].
      destruct (IH (S i)) as (Hle & Hok & Hnth).
      destruct (pfor (list_task false note_first) (S i) tasks) as [ls r].
      cbn [fst snd app List.length] in *.
      split; [lia|]. split; [intros Hr; now rewrite Hok|].
      intros [|k] line H; cbn [nth_error] in *.
      * inversion H; subst.
        destruct (task_line_head _ _ _ _ _ E) as (c & rest & Hc & Hl).
        exists task, c, rest. rewrite Nat.add_0_r. auto.
      * destruct (Hnth k line H) as (t & c & rest & Ht & Hc & Hl).
        exists t, c, rest. replace (i + S k)%nat with (S i + k)%nat by lia. auto.
    + unfold pbind. cbn [fst snd List.length].
      split; [lia|]. split; [discriminate|].
      intros [|k] line H; discriminate.
Qed.

End Listing.

(** X17: The number of checked items of a task never exceeds the number of its
    items, whenever both counts are defined.  On a task without a checklist
    the item count is 0 while the count of checked items raises
    [KeyError]. *)
Theorem checklist_counts :
  (forall task n m,
      cl_item_count task = Ok n -> cl_done_count task = Ok m -> 0 <= m <= n)
  /\ (forall d,
         Cfg.lookup d "checklist" = None ->
         cl_item_count (JDict d) = Ok 0
         /\ cl_done_count (JDict d) = Raise KeyError).
Proof.
  split.
  - intros task n m. unfold cl_item_count, cl_done_count.
    destruct (py_in "checklist" task) as [[|]|] eqn:Hin; cbn [rbind];
      [| |discriminate].
    + destruct (Py.subscript task (JStr "checklist")) as [cl|]; cbn [rbind];
        [|discriminate].
      intros Hn. destruct (py_iter cl) as [lis|] eqn:Hit; cbn [rbind];
        [|discriminate].
      intros Hm. apply count_bounds in Hm.
      rewrite (iter_len cl lis n Hit Hn). lia.
    + destruct (no_checklist task Hin) as (e & ->). discriminate.
  - intros d Hd. unfold cl_item_count, cl_done_count. simpl. now rewrite Hd.
Qed.

Lemma checklist_counts_witness :
  0 <= 1 <= 2
  /\ cl_item_count (JDict [("text", JStr "T")]) = Ok 0
  /\ cl_done_count (JDict [("text", JStr "T")]) = Raise KeyError.
Proof.
  split.
  - apply (proj1 checklist_counts
             (JDict [("checklist",
                      JList [JDict [("completed", JBool true)];
                             JDict [("completed", JBool false)]])]));
      reflexivity.
  - apply (proj2 checklist_counts). reflexivity.
Defined.

(** X18: With checklists off, [print_task_list] prints at most one line per
    task, exactly one per task when it does not fail, and the line at
    position [k] is the one of the task at position [k]: it opens with the
    completion mark of that task in brackets and the number [k + 1]. *)
Theorem print_task_list_lines (tasks : list json) (note_first : bool) :
  (List.length (fst (print_task_list false tasks note_first))
   <= List.length tasks)%nat
  /\ (snd (print_task_list false tasks note_first) = Ok tt ->
      List.length (fst (print_task_list false tasks note_first))
      = List.length tasks)
  /\ forall k line,
      nth_error (fst (print_task_list false tasks note_first)) k = Some line ->
      exists task c rest,
        nth_error tasks k = Some task
        /\ Py.subscript task (JStr "completed") = Ok c
        /\ line = ("[" ++ completed_mark c ++ "] "
                     ++ PyStr.of_Z (Z.of_nat k + 1) ++ rest)%string.
Proof. apply (listing_from note_first tasks 0). Qed.

Lemma print_task_list_lines_witness :
  List.length
    (fst (print_task_list false
            [JDict [("completed", JBool true); ("text", JStr "A");
                    ("notes", JStr "n")];
             JDict [("completed", JBool false); ("text", JStr "B");
                    ("notes", JStr "")]] false))
  = 2%nat
  /\ exists task c rest,
      nth_error
        [JDict [("completed", JBool true); ("text", JStr "A");
                ("notes", JStr "n")];
         JDict [("completed", JBool false); ("text", JStr "B");
                ("notes", JStr "")]] 1 = Some task
      /\ Py.subscript task (JStr "completed") = Ok c
      /\ "[ ] 2 B <>"
         = ("[" ++ completed_mark c ++ "] " ++ PyStr.of_Z (Z.of_nat 1 + 1)
              ++ rest)%string.
Proof.
  destruct (print_task_list_lines
              [JDict [("completed", JBool true); ("text", JStr "A");
                      ("notes", JStr "n")];
               JDict [("completed", JBool false); ("text", JStr "B");
                      ("notes", JStr "")]] false) as (_ & Hok & Hnth).
  split.
  - apply Hok. reflexivity.
  - apply Hnth. reflexivity.
Defined.

(** X19: [todos add] with none of [top], [tob] and [to] among its arguments
    never lists the todos: with a known difficulty it sends the new todo,
    says so, and then fails with [KeyError] on the first line of the
    listing, because the todo it put at the head of the local list has no
    notes; with an unknown difficulty it fails with [KeyError] before
    anything is sent. *)
Theorem todos_add_never_lists (checklists_on : bool) (difficulty : string)
        (args : list string) (todos : list json) :
  todos_add_and_list checklists_on difficulty args todos
  = match Cfg.lookup PRIORITY difficulty with
    | Some priority =>
        ([Posted (PyStr.join " " (tl args)) priority;
          Shown ("added new todo '" ++ PyStr.join " " (tl args) ++ "'")],
         Raise KeyError)
    | None => ([], Raise KeyError)
    end.
Proof.
  unfold todos_add_and_list, todos_add.
  destruct (Cfg.lookup PRIORITY difficulty) as [priority|]; reflexivity.
Qed.

(** * The dailies command *)

Section Dailies.

Lemma lookup_update_other {V : Type} (d : list (string * V)) k v k' :
  String.eqb k k' = false ->
  Cfg.lookup (Cfg.update d k v) k' = Cfg.lookup d k'.
Proof.
  intros Hk. induction d as [|[k0 v0] d IH]; simpl.
  - now rewrite Hk.
  - destruct (String.eqb k0 k) eqn:E; simpl.
    + apply String.eqb_eq in E. subst. now rewrite Hk.
    + destruct (String.eqb k0 k'); [reflexivity | exact IH].
Qed.

Lemma update_update {V : Type} (d : list (string * V)) k v v' :
  Cfg.update (Cfg.update d k v) k v' = Cfg.update d k v'.
Proof.
  induction d as [|[k0 v0] d IH]; simpl.
  - now rewrite String.eqb_refl.
  - destruct (String.eqb k0 k) eqn:E; simpl; rewrite E; [reflexivity|].
    now rewrite IH.
Qed.

Lemma set_completed_twice b t : set_completed b (set_completed b t) = set_completed b t.
Proof. destruct t; simpl; try reflexivity. now rewrite update_update. Qed.

Lemma set_completed_record b t : daily_record t -> daily_record (set_completed b t).
Proof.
  intros (d & id & text & -> & Hid & Htext). simpl.
  exists (Cfg.update d "completed" (JBool b)), id, text.
  split; [reflexivity|]. now rewrite !lookup_update_other by reflexivity.
Qed.

Lemma set_completed_events b b' t :
  daily_record t -> daily_events b (set_completed b' t) = daily_events b t.
Proof.
  intros (d & id & text & -> & Hid & Htext).
  unfold daily_events. simpl.
  now rewrite !lookup_update_other by reflexivity.
Qed.

Lemma set_completed_reads b t :
  daily_record t ->
  Py.subscript (set_completed b t) (JStr "completed") = Ok (JBool b).
Proof.
  intros (d & id & text & -> & _). simpl. now rewrite lookup_update_same.
Qed.

Lemma marked_from_length b tids ds : forall i,
  List.length (marked_from i b tids ds) = List.length ds.
Proof. induction ds as [|t ds IH]; intros i; simpl; [reflexivity | now rewrite IH]. Qed.

Lemma marked_from_nth b tids ds : forall i k,
  nth_error (marked_from i b tids ds) k
  = option_map (fun t => if existsb (Z.eqb (Z.of_nat (i + k))) tids
                         then set_completed b t else t)
               (nth_error ds k).
Proof.
  induction ds as [|t ds IH]; intros i k.
  - destruct k; reflexivity.
  - destruct k as [|k]; simpl.
    + now rewrite Nat.add_0_r.
    + rewrite IH. now replace (S i + k)%nat with (i + S k)%nat by lia.
Qed.

Lemma marked_from_ext b tids tids' ds i :
  (forall j, In j tids <-> In j tids') ->
  marked_from i b tids ds = marked_from i b tids' ds.
Proof.
  intros H. apply nth_error_ext. intros k. rewrite !marked_from_nth.
  replace (existsb (Z.eqb (Z.of_nat (i + k))) tids')
    with (existsb (Z.eqb (Z.of_nat (i + k))) tids); [reflexivity|].
  apply eq_true_iff_eq. rewrite !existsb_eqb_In. apply H.
Qed.

Lemma marked_from_nil b ds : forall i, marked_from i b [] ds = ds.
Proof. induction ds as [|t ds IH]; intros i; simpl; [reflexivity | now rewrite IH]. Qed.

Lemma list_set_nth {A : Type} (l : list A) (k : nat) (a : A) (j : nat) :
  (k < List.length l)%nat ->
  nth_error (firstn k l ++ a :: skipn (S k) l) j
  = if Nat.eqb j k then Some a else nth_error l j.
Proof.
  intros Hk. rewrite nth_error_app, length_firstn, Nat.min_l by lia.
  destruct (Nat.ltb_spec j k) as [Hlt|Hge].
  - rewrite nth_error_firstn.
    destruct (Nat.ltb_spec j k); [|lia].
    destruct (Nat.eqb_spec j k); [lia | reflexivity].
  - destruct (Nat.eqb_spec j k) as [->|Hne].
    + now rewrite Nat.sub_diag.
    + destruct (j - k)%nat as [|m] eqn:E; [lia|].
      cbn [nth_error]. rewrite nth_error_skipn. f_equal. lia.
Qed.

(** One step of the loop on a list that is already marked at [done]. *)
Lemma dailies_step b ds done tid t :
  Forall daily_record ds ->
  0 <= tid < Z.of_nat (List.length ds) ->
  nth_error ds (Z.to_nat tid) = Some t ->
  (t <- PyList.getitem (marked_from 0 b done ds) tid ;; Py.subscript t (JStr "id"))%res
  = Py.subscript t (JStr "id")
  /\ (t <- PyList.getitem (marked_from 0 b done ds) tid ;;
      text <- Py.subscript t (JStr "text") ;;
      py_encode text)%res
     = (text <- Py.subscript t (JStr "text") ;; py_encode text)%res
  /\ (t <- PyList.getitem (marked_from 0 b done ds) tid ;;
      t' <- py_setitem t "completed" (JBool b) ;;
      list_set (marked_from 0 b done ds) tid t')%res
     = Ok (marked_from 0 b (done ++ [tid]) ds)
  /\ daily_record t.
Proof.
  intros Hwf Hr Ht.
  assert (Hrec : daily_record t).
  { rewrite Forall_forall in Hwf. apply Hwf. eapply nth_error_In; eauto. }
  set (L := marked_from 0 b done ds).
  assert (HL : List.length L = List.length ds) by apply marked_from_length.
  set (t0 := if existsb (Z.eqb (Z.of_nat (Z.to_nat tid))) done
             then set_completed b t else t).
  assert (Hnth : nth_error L (Z.to_nat tid) = Some t0).
  { unfold L. rewrite marked_from_nth, Ht. reflexivity. }
  assert (Hget : PyList.getitem L tid = Ok t0).
  { destruct (getitem_from_start L tid) as (a & Ha & Hg); [lia|]. congruence. }
  assert (Hrec0 : daily_record t0).
  { unfold t0. destruct (existsb _ done); [now apply set_completed_record | exact Hrec]. }
  rewrite Hget. cbn [rbind].
  destruct Hrec as (d & id & text & -> & Hid & Htext).
  assert (Hsub : forall key, String.eqb "completed" key = false ->
                    Py.subscript t0 (JStr key) = Py.subscript (JDict d) (JStr key)).
  { intros key Hkey. unfold t0. destruct (existsb _ done); [|reflexivity].
    simpl. now rewrite lookup_update_other. }
  split; [apply Hsub; reflexivity|].
  split; [now rewrite Hsub by reflexivity|].
  split; [|now exists d, id, text].
  assert (Hset : py_setitem t0 "completed" (JBool b)
                 = Ok (set_completed b (JDict d))).
  { unfold t0. destruct (existsb _ done); [|reflexivity].
    simpl. now rewrite update_update. }
  rewrite Hset. cbn [rbind]. unfold list_set, PyList.position.
  replace ((0 <=? tid) && (tid <? Z.of_nat (List.length L))) with true by lia.
  f_equal. apply nth_error_ext. intros j.
  rewrite list_set_nth by lia. unfold L. rewrite !marked_from_nth.
  cbn [Nat.add]. rewrite existsb_app. cbn [existsb]. rewrite orb_false_r.
  destruct (Nat.eqb_spec j (Z.to_nat tid)) as [->|Hne].
  - rewrite Ht. cbn [option_map].
    rewrite Z2Nat.id by lia. now rewrite Z.eqb_refl, orb_true_r.
  - destruct (Z.eqb_spec (Z.of_nat j) tid) as [E|E];
      [exfalso; apply Hne; lia|].
    now rewrite orb_false_r.
Qed.

Lemma dailies_loop_marks b ds tids : forall done,
  Forall daily_record ds ->
  Forall (fun tid => 0 <= tid < Z.of_nat (List.length ds)) tids ->
  exists recs,
    rmap (PyList.getitem ds) tids = Ok recs
    /\ dailies_loop b tids (marked_from 0 b done ds)
       = (flat_map (daily_events b) recs, Ok (marked_from 0 b (done ++ tids) ds)).
Proof.
  induction tids as [|tid tids IH]; intros done Hwf Hr.
  - exists []. split; [reflexivity|]. simpl. now rewrite app_nil_r.
  - inversion Hr as [|? ? Htid Hr']; subst.
    destruct (getitem_from_start ds tid Htid) as (t & Ht & Hg).
    destruct (dailies_step b ds done tid t Hwf Htid Ht) as (H1 & H2 & H3 & Hrec).
    destruct (IH (done ++ [tid]) Hwf Hr') as (recs & Hrecs & Hloop).
    exists (t :: recs). split.
    + cbn [rmap]. rewrite Hg, Hrecs. reflexivity.
    + destruct Hrec as (d & id & text & -> & Hid & Htext).
      assert (Hev : daily_events b (JDict d)
                    = [if b then Scored id else Unchecked id; Marked text b;
                       Paused HABITICA_REQUEST_WAIT_TIME]).
      { unfold daily_events. simpl. now rewrite Hid, Htext. }
      simpl in H1, H2. rewrite Hid in H1. rewrite Htext in H2. simpl in H2.
      cbn [dailies_loop]. rewrite H1, H2, H3, Hloop.
      cbn [flat_map]. rewrite Hev, <- app_assoc. reflexivity.
Qed.

End Dailies.

(** X20: [dailies done] and [dailies undo] on well-formed dailies and an id
    expression that parses and whose indices all lie in the list: every task
    named by the expression gets one request, its message and the pause,
    and the listing that closes the command is the listing of the dailies
    with [completed] set (to true by [done], to false by [undo]) on exactly
    those tasks; with checklists off the line of such a task shows the new
    mark. *)
Theorem dailies_marks_then_lists (checklists_on completed : bool)
        (args : list string) (ds : list json) (ordered : list Z)
        (Hbranch : if completed then is_in "done" args = true
                   else is_in "done" args = false /\ is_in "undo" args = true)
        (Hparse : get_task_ids (tl args) false = Ok ordered)
        (Hrange : Forall (fun tid => 0 <= tid < Z.of_nat (List.length ds)) ordered)
        (Hrecords : Forall daily_record ds) :
  (exists tids recs,
      NoDup tids
      /\ (forall i, In i tids <-> In i ordered)
      /\ rmap (PyList.getitem ds) tids = Ok recs
      /\ dailies checklists_on args ds
         = (flat_map (daily_events completed) recs
              ++ map Listed
                   (fst (print_task_list checklists_on
                           (marked_from 0 completed ordered ds) false)),
            snd (print_task_list checklists_on
                   (marked_from 0 completed ordered ds) false)))
  /\ forall k line,
      In (Z.of_nat k) ordered ->
      nth_error (fst (print_task_list false (marked_from 0 completed ordered ds)
                        false)) k = Some line ->
      exists rest,
        line = ("[" ++ (if completed then "x" else " ") ++ "] "
                  ++ PyStr.of_Z (Z.of_nat k + 1) ++ rest)%string.
Proof.
  split.
  - pose proof (dedup_members (tl args)) as Hd. rewrite Hparse in Hd.
    destruct Hd as (tids & Hids & Hnd & Hmem).
    assert (Hrange' : Forall (fun tid => 0 <= tid < Z.of_nat (List.length ds)) tids).
    { rewrite Forall_forall in *. intros x Hx. apply Hrange. now apply Hmem. }
    destruct (dailies_loop_marks completed ds tids [] Hrecords Hrange')
      as (recs & Hrecs & Hloop).
    rewrite marked_from_nil in Hloop. cbn [app] in Hloop.
    rewrite (marked_from_ext completed tids ordered ds 0 Hmem) in Hloop.
    exists tids, recs. repeat (split; [assumption|]).
    unfold dailies. cbv zeta.
    assert (E : (if is_in "done" args
                 then match get_task_ids (tl args) true with
                      | Ok tids => dailies_loop true tids ds
                      | Raise e => ([], Raise e)
                      end
                 else if is_in "undo" args
                      then match get_task_ids (tl args) true with
                           | Ok tids => dailies_loop false tids ds
                           | Raise e => ([], Raise e)
                           end
                      else ([], Ok ds))
                = dailies_loop completed tids ds).
    { destruct completed.
      - now rewrite Hbranch, Hids.
      - destruct Hbranch as [-> ->]. now rewrite Hids. }
    rewrite E, Hloop.
    destruct (print_task_list checklists_on
                (marked_from 0 completed ordered ds) false) as [ls r].
    reflexivity.
  - intros k line Hk Hline.
    destruct (listing_from false (marked_from 0 completed ordered ds) 0)
      as (_ & _ & Hnth).
    destruct (Hnth k line Hline) as (task & c & rest & Htask & Hc & ->).
    exists rest. rewrite marked_from_nth in Htask. cbn [Nat.add] in Htask.
    destruct (nth_error ds k) as [t|] eqn:Et; [|discriminate].
    cbn [option_map] in Htask.
    assert (Hex : existsb (Z.eqb (Z.of_nat k)) ordered = true)
      by now apply existsb_eqb_In.
    rewrite Hex in Htask. inversion Htask; subst.
    assert (Hrec : daily_record t).
    { rewrite Forall_forall in Hrecords. apply Hrecords.
      eapply nth_error_In; eauto. }
    rewrite (set_completed_reads completed t Hrec) in Hc.
    inversion Hc; subst. unfold completed_mark. simpl.
    now destruct completed.
Qed.

Lemma dailies_marks_then_lists_witness :
  dailies false ["done"; "2"]
    [JDict [("id", JStr "a1"); ("text", JStr "A"); ("notes", JStr "");
            ("completed", JBool false)];
     JDict [("id", JStr "b2"); ("text", JStr "B"); ("notes", JStr "n");
            ("completed", JBool false)]]
  = ([Scored (JStr "b2"); Marked "B" true; Paused (5 # 10);
      Listed "[ ] 1 A <>"; Listed "[x] 2 B <n>"],
     Ok tt)
  /\ exists rest, "[x] 2 B <n>" = ("[" ++ "x" ++ "] " ++ PyStr.of_Z (Z.of_nat 1 + 1) ++ rest)%string.
Proof.
  destruct (dailies_marks_then_lists false true ["done"; "2"]
              [JDict [("id", JStr "a1"); ("text", JStr "A"); ("notes", JStr "");
                      ("completed", JBool false)];
               JDict [("id", JStr "b2"); ("text", JStr "B"); ("notes", JStr "n");
                      ("completed", JBool false)]]
              [1]) as [_ Hline].
  - reflexivity.
  - reflexivity.
  - repeat constructor; simpl; lia.
  - repeat constructor.
    + exists [("id", JStr "a1"); ("text", JStr "A"); ("notes", JStr "");
              ("completed", JBool false)], (JStr "a1"), "A". auto.
    + exists [("id", JStr "b2"); ("text", JStr "B"); ("notes", JStr "n");
              ("completed", JBool false)], (JStr "b2"), "B". auto.
  - split; [reflexivity|].
    apply (Hline 1%nat); [now left | reflexivity].
Defined.

(** * The pieces the parser accepts and those it rejects *)

Section Literals.

Lemma decimal_digit_is_digit c : decimal_digit c = PyStr.is_digit c.
Proof. destruct c as [[] [] [] [] [] [] [] []]; reflexivity. Qed.

Lemma blank_is_space c : blank c = PyStr.is_space c.
Proof. destruct c as [[] [] [] [] [] [] [] []]; reflexivity. Qed.

Lemma all_ext (p q : ascii -> bool) s :
  (forall c, p c = q c) -> PyStr.all p s = PyStr.all q s.
Proof.
  intros H. induction s as [|c s IH]; simpl; [reflexivity | now rewrite H, IH].
Qed.

Lemma all_blank_space s : PyStr.all blank s = PyStr.all PyStr.is_space s.
Proof. apply all_ext, blank_is_space. Qed.

Lemma digit_groups_nonempty s : digit_groups s -> s <> EmptyString.
Proof. destruct 1; discriminate. Qed.

Lemma digit_groups_head s :
  digit_groups s -> exists d s', s = String d s' /\ PyStr.is_digit d = true.
Proof.
  destruct 1 as [d Hd|d s Hd _|d s Hd _];
    rewrite decimal_digit_is_digit in Hd; eauto.
Qed.

Lemma uint_of_digits ds :
  PyStr.all PyStr.is_digit ds = true ->
  exists u, NilEmpty.uint_of_string ds = Some u.
Proof.
  induction ds as [|c ds IH]; simpl; [eauto|].
  intros H. apply andb_true_iff in H as [Hc Hds].
  destruct (IH Hds) as (u & ->).
  destruct c as [[] [] [] [] [] [] [] []]; cbv in Hc; try discriminate;
    simpl; eauto.
Qed.

(** The digit groups are what the digit reader accepts. *)
Lemma digit_groups_digits s :
  digit_groups s ->
  exists ds,
    PyStr.digits false s = Some ds
    /\ PyStr.digits true s = Some ds
    /\ PyStr.all PyStr.is_digit ds = true.
Proof.
  induction 1 as [d Hd|d s Hd _ IH|d s Hd _ IH];
    rewrite decimal_digit_is_digit in Hd.
  - exists (String d EmptyString). simpl. rewrite Hd. auto.
  - destruct IH as (ds & _ & Ht & Hall).
    exists (String d ds). simpl. rewrite Hd, Ht. simpl. rewrite Hall. auto.
  - destruct IH as (ds & Hf & _ & Hall).
    exists (String d ds). simpl. rewrite Hd, Hf. simpl. rewrite Hall. auto.
Qed.

Lemma digits_digit_groups s : forall b ds,
  PyStr.digits b s = Some ds ->
  (b = false -> digit_groups s)
  /\ (b = true ->
      s = EmptyString \/ digit_groups s
      \/ exists s', s = String "_" s' /\ digit_groups s').
Proof.
  induction s as [|c s IH]; intros b ds H.
  - simpl in H. destruct b; [|discriminate]. split; [discriminate | auto].
  - simpl in H. destruct (PyStr.is_digit c) eqn:Hc.
    + destruct (PyStr.digits true s) as [ds'|] eqn:E; [|discriminate].
      assert (Hg : digit_groups (String c s)).
      { rewrite <- decimal_digit_is_digit in Hc.
        destruct (proj2 (IH true ds' E) eq_refl) as [->|[Hs|(s' & -> & Hs)]].
        - now apply groups_digit.
        - now apply groups_more.
        - now apply groups_under. }
      split; auto.
    + destruct (Ascii.eqb_spec c "_") as [->|Hne]; [|discriminate].
      destruct b; [|discriminate]. simpl in H.
      split; [discriminate|]. intros _. right. right.
      exists s. split; [reflexivity|]. now apply (IH false ds H).
Qed.

Lemma unsigned_literal_groups s :
  digit_groups s -> exists z, PyStr.unsigned_literal s = Some z.
Proof.
  intros H. destruct (digit_groups_digits s H) as (ds & Hf & _ & Hall).
  destruct (uint_of_digits ds Hall) as (u & Hu).
  unfold PyStr.unsigned_literal. rewrite Hf, Hu. eauto.
Qed.

Lemma groups_unsigned_literal s z :
  PyStr.unsigned_literal s = Some z -> digit_groups s.
Proof.
  unfold PyStr.unsigned_literal.
  destruct (PyStr.digits false s) as [ds|] eqn:E; [|discriminate].
  intros _. now apply (digits_digit_groups s false ds E).
Qed.

Lemma lstrip_spaces_app l x :
  PyStr.all PyStr.is_space l = true ->
  PyStr.lstrip (l ++ x) = PyStr.lstrip x.
Proof.
  induction l as [|c l IH]; simpl; [reflexivity|].
  intros H. apply andb_true_iff in H as [Hc Hl]. rewrite Hc. now apply IH.
Qed.

Lemma rstrip_spaces r :
  PyStr.all PyStr.is_space r = true -> PyStr.rstrip r = EmptyString.
Proof.
  induction r as [|c r IH]; simpl; [reflexivity|].
  intros H. apply andb_true_iff in H as [Hc Hr]. now rewrite (IH Hr), Hc.
Qed.

Lemma rstrip_app_spaces x r :
  PyStr.all PyStr.is_space r = true ->
  PyStr.rstrip (x ++ r) = PyStr.rstrip x.
Proof.
  intros Hr. induction x as [|c x IH]; simpl.
  - now apply rstrip_spaces.
  - now rewrite IH.
Qed.

Lemma rstrip_groups s : digit_groups s -> PyStr.rstrip s = s.
Proof.
  induction 1 as [d Hd|d s Hd Hs IH|d s Hd Hs IH];
    rewrite decimal_digit_is_digit in Hd.
  - simpl. now rewrite (digit_not_space d Hd).
  - simpl. rewrite IH. pose proof (digit_groups_nonempty s Hs).
    destruct s; [congruence | reflexivity].
  - simpl. rewrite IH. pose proof (digit_groups_nonempty s Hs).
    destruct s; [congruence | reflexivity].
Qed.

Lemma lstrip_decompose s :
  exists l, s = (l ++ PyStr.lstrip s)%string /\ PyStr.all PyStr.is_space l = true.
Proof.
  induction s as [|c s IH]; simpl.
  - now exists EmptyString.
  - destruct (PyStr.is_space c) eqn:Hc.
    + destruct IH as (l & Hl & Hall). exists (String c l).
      simpl. rewrite Hc, Hall. split; [now f_equal | reflexivity].
    + now exists EmptyString.
Qed.

Lemma rstrip_decompose s :
  exists r, s = (PyStr.rstrip s ++ r)%string /\ PyStr.all PyStr.is_space r = true.
Proof.
  induction s as [|c s IH]; simpl.
  - now exists EmptyString.
  - destruct IH as (r & Hr & Hall).
    destruct (PyStr.rstrip s) as [|a t] eqn:E.
    + simpl in Hr. subst r. destruct (PyStr.is_space c) eqn:Hc.
      * exists (String c s). simpl. rewrite Hc, Hall. auto.
      * exists s. auto.
    + exists r. simpl. split; [now rewrite Hr at 1 | assumption].
Qed.

Lemma groups_no_hyphen s : digit_groups s -> PyStr.contains "-" s = false.
Proof.
  induction 1 as [d Hd|d s Hd _ IH|d s Hd _ IH];
    rewrite decimal_digit_is_digit in Hd; simpl;
    rewrite ?IH, (digit_not_char d "-" Hd eq_refl); reflexivity.
Qed.

Lemma spaces_no_hyphen s :
  PyStr.all PyStr.is_space s = true -> PyStr.contains "-" s = false.
Proof. intros H. now apply (all_contains PyStr.is_space). Qed.

(** A literal is read by [int], and has no hyphen. *)
Lemma literal_text_int s :
  literal_text s ->
  PyStr.contains "-" s = false /\ exists z, PyStr.int s = Ok z.
Proof.
  intros (l & sign & body & r & -> & Hl & Hsign & Hbody & Hr).
  rewrite all_blank_space in Hl, Hr.
  destruct (digit_groups_head body Hbody) as (d & body' & Eb & Hd).
  destruct (unsigned_literal_groups body Hbody) as (z & Hz).
  split.
  - rewrite !contains_app, (spaces_no_hyphen l Hl), (spaces_no_hyphen r Hr),
      (groups_no_hyphen body Hbody).
    destruct Hsign as [->| ->]; reflexivity.
  - exists z. unfold PyStr.int.
    rewrite (lstrip_spaces_app l _ Hl).
    assert (Hls : PyStr.lstrip (sign ++ body ++ r) = (sign ++ body ++ r)%string).
    { destruct Hsign as [->| ->]; [|reflexivity].
      rewrite Eb. simpl. now rewrite (digit_not_space d Hd). }
    rewrite Hls, <- string_append_assoc, (rstrip_app_spaces _ r Hr).
    assert (Hrs : PyStr.rstrip (sign ++ body) = (sign ++ body)%string).
    { destruct Hsign as [->| ->].
      - now apply rstrip_groups.
      - simpl. rewrite (rstrip_groups body Hbody).
        pose proof (digit_groups_nonempty body Hbody).
        destruct body; [congruence | reflexivity]. }
    rewrite Hrs. destruct Hsign as [->| ->].
    + cbn [append]. rewrite Eb in *. cbv iota.
      rewrite (digit_not_char d "+" Hd eq_refl), (digit_not_char d "-" Hd eq_refl).
      now rewrite Hz.
    + cbn [append]. cbv iota. rewrite Ascii.eqb_refl. now rewrite Hz.
Qed.

(** What [int] reads, when it has no hyphen, is a literal. *)
Lemma int_literal_text s z :
  PyStr.int s = Ok z -> PyStr.contains "-" s = false -> literal_text s.
Proof.
  intros Hint Hno.
  destruct (lstrip_decompose s) as (l & Hs & Hl).
  destruct (rstrip_decompose (PyStr.lstrip s)) as (r & Hs' & Hr).
  set (t := PyStr.rstrip (PyStr.lstrip s)) in *.
  assert (Est : s = (l ++ t ++ r)%string) by (rewrite Hs at 1; now rewrite Hs' at 1).
  assert (Hnot : PyStr.contains "-" t = false).
  { rewrite Est, !contains_app in Hno.
    apply orb_false_iff in Hno as [_ Hno].
    now apply orb_false_iff in Hno as [Hno _]. }
  rewrite <- all_blank_space in Hl, Hr.
  unfold PyStr.int in Hint. fold t in Hint.
  destruct t as [|c t'].
  - simpl in Hint. discriminate.
  - destruct (Ascii.eqb_spec c "+") as [->|Hplus].
    + destruct (PyStr.unsigned_literal t') as [v|] eqn:E; [|discriminate].
      exists l, "+", t', r. repeat split; auto.
      now apply (groups_unsigned_literal t' v).
    + destruct (Ascii.eqb_spec c "-") as [->|Hminus].
      * simpl in Hnot. discriminate.
      * destruct (PyStr.unsigned_literal (String c t')) as [v|] eqn:E;
          [|discriminate].
        exists l, EmptyString, (String c t'), r. repeat split; auto.
        now apply (groups_unsigned_literal _ v).
Qed.

Lemma join_split sep s :
  PyStr.join (String sep EmptyString) (PyStr.split sep s) = s.
Proof.
  induction s as [|c s IH]; simpl; [reflexivity|].
  pose proof (split_nonempty sep s) as Hn.
  destruct (Ascii.eqb_spec c sep) as [->|Hne].
  - destruct (PyStr.split sep s) as [|p ps]; [congruence|].
    cbn [PyStr.join]. simpl. now rewrite <- IH.
  - destruct (PyStr.split sep s) as [|p ps]; [congruence|].
    destruct ps as [|q ps]; simpl in *; now rewrite <- IH.
Qed.

Lemma split_join sep bits :
  bits <> [] ->
  Forall (fun bit => PyStr.contains sep bit = false) bits ->
  PyStr.split sep (PyStr.join (String sep EmptyString) bits) = bits.
Proof.
  induction bits as [|b bits IH]; intros Hne Hall; [congruence|].
  inversion Hall as [|? ? Hb Hbits]; subst.
  destruct bits as [|b' bits].
  - simpl. now apply split_without.
  - change (PyStr.join (String sep EmptyString) (b :: b' :: bits))
      with (b ++ String sep (PyStr.join (String sep EmptyString) (b' :: bits)))%string.
    rewrite (split_app sep _ _ Hb), IH; [reflexivity | discriminate | assumption].
Qed.

(** An accepted piece is gathered, whatever was gathered before it. *)
Lemma accepted_gathered acc bit :
  accepted bit -> exists ids, gather_bit acc bit = Ok (acc ++ ids).
Proof.
  intros [Hlit|(a & b & -> & Ha & Hb)]; unfold gather_bit.
  - destruct (literal_text_int bit Hlit) as (Hno & z & Hz).
    rewrite Hno, Hz. simpl. eauto.
  - destruct (literal_text_int a Ha) as (Hna & za & Hza).
    destruct (literal_text_int b Hb) as (Hnb & zb & Hzb).
    change (a ++ "-" ++ b)%string with (a ++ String "-" b)%string.
    rewrite contains_app. simpl. rewrite orb_true_r.
    rewrite (split_app "-" _ _ Hna), (split_without _ _ Hnb).
    simpl. rewrite Hza, Hzb. simpl. eauto.
Qed.

(** A piece that is gathered is an accepted one. *)
Lemma gathered_accepted acc bit acc' :
  gather_bit acc bit = Ok acc' -> accepted bit.
Proof.
  unfold gather_bit. destruct (PyStr.contains "-" bit) eqn:Hc.
  - pose proof (join_split "-" bit) as Hj.
    pose proof (split_parts_without "-" bit) as Hw.
    destruct (PyStr.split "-" bit) as [|a [|b [|c ps]]]; simpl.
    + discriminate.
    + destruct (PyStr.int a); discriminate.
    + destruct (PyStr.int a) as [za|] eqn:Ea; simpl; [|discriminate].
      destruct (PyStr.int b) as [zb|] eqn:Eb; simpl; [|discriminate].
      intros _. right. exists a, b.
      split; [now rewrite <- Hj|].
      inversion Hw as [|? ? Hwa Hw']. inversion Hw' as [|? ? Hwb _].
      split; [now apply (int_literal_text a za) | now apply (int_literal_text b zb)].
    + destruct (PyStr.int a); simpl; [|discriminate].
      destruct (PyStr.int b); simpl; [|discriminate].
      destruct (PyStr.int c); simpl; [|discriminate].
      destruct (rmap PyStr.int ps); simpl; discriminate.
  - destruct (PyStr.int bit) as [z|] eqn:E; simpl; [|discriminate].
    intros _. left. now apply (int_literal_text bit z).
Qed.

Lemma rejected_raises acc bit :
  ~ accepted bit -> gather_bit acc bit = Raise ValueError.
Proof.
  intros H. destruct (gather_bit acc bit) as [acc'|e] eqn:E.
  - exfalso. apply H. eapply gathered_accepted; eauto.
  - f_equal. eapply gather_bit_raises; eauto.
Qed.

Lemma gather_arg_join acc bits :
  bits <> [] ->
  Forall (fun bit => PyStr.contains "," bit = false) bits ->
  gather_arg acc (PyStr.join "," bits) = rfold gather_bit bits acc.
Proof.
  intros Hne Hall. unfold gather_arg.
  now rewrite (split_join "," bits Hne Hall).
Qed.

Lemma accepted_bits_gathered bits : forall acc,
  Forall accepted bits -> exists acc', rfold gather_bit bits acc = Ok acc'.
Proof.
  induction bits as [|bit bits IH]; intros acc H; simpl; [eauto|].
  inversion H as [|? ? Hb Hbs]; subst.
  destruct (accepted_gathered acc bit Hb) as (ids & ->). simpl. now apply IH.
Qed.

Lemma accepted_tokens_gathered tokens : forall acc,
  pieces_of_tokens tokens ->
  Forall (Forall accepted) tokens ->
  exists acc', rfold gather_arg (map (PyStr.join ",") tokens) acc = Ok acc'.
Proof.
  induction tokens as [|bits tokens IH]; intros acc Hp H; simpl; [eauto|].
  inversion Hp as [|? ? [Hne Hc] Hp']; subst.
  inversion H as [|? ? Hb Hbs]; subst.
  rewrite (gather_arg_join acc bits Hne Hc).
  destruct (accepted_bits_gathered bits acc Hb) as (acc' & ->). simpl.
  now apply IH.
Qed.

Lemma rejected_tokens_raise tokens :
  pieces_of_tokens tokens ->
  Exists (Exists (fun bit => ~ accepted bit)) tokens ->
  gather (map (PyStr.join ",") tokens) = Raise ValueError.
Proof.
  intros Hp Hex. apply Exists_exists in Hex as (bits & Hin & Hex).
  apply Exists_exists in Hex as (bit & Hbit & Hbad).
  unfold pieces_of_tokens in Hp. rewrite Forall_forall in Hp.
  destruct (Hp bits Hin) as [Hne Hc].
  unfold gather.
  apply (rfold_failing _ ValueError _ (PyStr.join "," bits) gather_arg_raises).
  - now apply in_map.
  - intros acc. rewrite (gather_arg_join acc bits Hne Hc).
    apply (rfold_failing _ ValueError bits bit gather_bit_raises Hbit).
    intros acc'. now apply rejected_raises.
Qed.

Lemma rfold_single {A B : Type} (f : B -> A -> result B) a b :
  rfold f [a] b = f b a.
Proof. simpl. now destruct (f b a). Qed.

(** A reversed range is passed over as if it were not there. *)
Lemma gather_without_reversed pre post before behind a b :
  (b < a)%N ->
  Forall (fun bit => PyStr.contains "," bit = false) (before ++ behind) ->
  gather (pre ++ PyStr.join "," (before ++ render_piece (Span a b) :: behind) :: post)
  = gather (pre ++ match before ++ behind with
                   | [] => []
                   | bits => [PyStr.join "," bits]
                   end ++ post).
Proof.
  intros Hab Hc. unfold gather.
  rewrite rfold_app, (rfold_app gather_arg pre).
  destruct (rfold gather_arg pre []) as [acc|]; cbn [rbind]; [|reflexivity].
  rewrite (rfold_app gather_arg _ post). cbn [rfold].
  assert (Hc' : Forall (fun bit => PyStr.contains "," bit = false)
                       (before ++ render_piece (Span a b) :: behind)).
  { apply Forall_app in Hc as [H1 H2]. apply Forall_app. split; [assumption|].
    constructor; [apply render_piece_no_comma | assumption]. }
  assert (E : gather_arg acc
                (PyStr.join "," (before ++ render_piece (Span a b) :: behind))
              = rfold gather_arg
                  match before ++ behind with
                  | [] => []
                  | bits => [PyStr.join "," bits]
                  end acc).
  { rewrite gather_arg_join; [|now destruct before|assumption].
    rewrite rfold_app. cbn [rfold].
    transitivity (rfold gather_bit (before ++ behind) acc).
    - rewrite rfold_app.
      destruct (rfold gather_bit before acc) as [acc1|]; cbn [rbind];
        [|reflexivity].
      rewrite (gather_bit_reversed acc1 a b Hab). reflexivity.
    - destruct (before ++ behind) as [|bit bits] eqn:Eb; [reflexivity|].
      rewrite rfold_single.
      now rewrite gather_arg_join; [|discriminate|assumption]. }
  now rewrite E.
Qed.

End Literals.

(** C4, as amended: on tokens of ASCII characters, a piece that is neither a
    literal nor two literals joined by a hyphen (a piece that is empty, not
    numeric, has a minus sign or more than one hyphen, a doubled or stray
    underscore, a blank inside the number) makes the parser raise
    [ValueError] in either mode, wherever the piece stands, and no index
    sequence is produced; when every piece is a literal or a range the parse
    succeeds.  A reversed range [A-B] with [A > B] is no error: wherever it
    stands, the parse goes as if the piece were not there.  Every token is
    the comma-separated list of its pieces. *)
Theorem get_task_ids_rejects :
  (forall tokens mode,
      pieces_of_tokens tokens ->
      Forall (Forall (fun bit => ascii_only bit = true)) tokens ->
      Exists (Exists (fun bit => ~ accepted bit)) tokens ->
      get_task_ids (map (PyStr.join ",") tokens) mode = Raise ValueError)
  /\ (forall tokens mode,
         pieces_of_tokens tokens ->
         Forall (Forall accepted) tokens ->
         exists ids, get_task_ids (map (PyStr.join ",") tokens) mode = Ok ids)
  /\ (forall pre post before behind a b mode,
         (b < a)%N ->
         Forall (fun bit => PyStr.contains "," bit = false) (before ++ behind) ->
         get_task_ids
           (pre ++ PyStr.join "," (before ++ render_piece (Span a b) :: behind)
                :: post) mode
         = get_task_ids
             (pre ++ match before ++ behind with
                     | [] => []
                     | bits => [PyStr.join "," bits]
                     end ++ post) mode)
  /\ (forall toks,
         exists tokens,
           pieces_of_tokens tokens /\ toks = map (PyStr.join ",") tokens).
Proof.
  split; [|split; [|split]].
  - intros tokens mode Hp _ Hex. unfold get_task_ids.
    now rewrite (rejected_tokens_raise tokens Hp Hex).
  - intros tokens mode Hp Hacc. unfold get_task_ids, gather.
    destruct (accepted_tokens_gathered tokens [] Hp Hacc) as (ids & ->).
    cbn [rbind]. destruct mode; [|eauto].
    destruct (iter_total ids) as (s & ->). eauto.
  - intros pre post before behind a b mode Hab Hc. unfold get_task_ids.
    now rewrite (gather_without_reversed pre post before behind a b Hab Hc).
  - intros toks. exists (map (PyStr.split ",") toks). split.
    + unfold pieces_of_tokens. apply Forall_forall. intros bits Hin.
      apply in_map_iff in Hin as (tok & <- & _).
      split; [apply split_nonempty | apply split_parts_without].
    + rewrite map_map. rewrite <- (map_id toks) at 1.
      apply map_ext. intros tok. symmetry. apply (join_split "," tok).
Qed.

Lemma get_task_ids_rejects_witness :
  Forall (fun bit => get_task_ids ["7"; bit] true = Raise ValueError)
         [""; "x"; "+"; "_"; "1__2"; "1 2"; "5-"; "-5"; "1-2-3"; "3-x"]
  /\ get_task_ids ["1"; "2,5-"] false = Raise ValueError
  /\ get_task_ids ["4,,5"] false = Raise ValueError
  /\ (exists ids, get_task_ids [" 1_0 ,+2"; "3-4"] true = Ok ids)
  /\ get_task_ids ["1"; "2,3-1,4"; "5"] false = get_task_ids ["1"; "2,4"; "5"] false
  /\ get_task_ids ["1"; "3-1"; "5"] true = get_task_ids ["1"; "5"] true.
Proof.
  destruct get_task_ids_rejects as (Hbad & Hgood & Hrev & _).
  assert (Hno : forall bit, gather_bit [] bit = Raise ValueError -> ~ accepted bit).
  { intros bit E H. destruct (accepted_gathered [] bit H) as (ids & E').
    rewrite E in E'. discriminate. }
  split; [|split; [|split; [|split; [|split]]]].
  - repeat (first [apply Forall_nil | apply Forall_cons]);
      match goal with
      | |- get_task_ids ["7"; ?bit] true = _ =>
          apply (Hbad [["7"]; [bit]] true);
          [repeat constructor; discriminate
          |repeat constructor
          |apply Exists_cons_tl, Exists_cons_hd, Exists_cons_hd, Hno; reflexivity]
      end.
  - apply (Hbad [["1"]; ["2"; "5-"]] false).
    + repeat constructor; discriminate.
    + repeat constructor.
    + apply Exists_cons_tl, Exists_cons_hd, Exists_cons_tl, Exists_cons_hd.
      apply Hno. reflexivity.
  - apply (Hbad [["4"; ""; "5"]] false).
    + repeat constructor; discriminate.
    + repeat constructor.
    + apply Exists_cons_hd, Exists_cons_tl, Exists_cons_hd.
      apply Hno. reflexivity.
  - apply (Hgood [[" 1_0 "; "+2"]; ["3-4"]] true).
    + repeat constructor; discriminate.
    + assert (Hyes : forall bit acc', gather_bit [] bit = Ok acc' -> accepted bit)
        by (intros bit acc'; apply gathered_accepted).
      repeat (first [apply Forall_nil | apply Forall_cons]);
        eapply Hyes; reflexivity.
  - apply (Hrev ["1"] ["5"] ["2"] ["4"] 3%N 1%N false); [reflexivity|].
    repeat constructor.
  - apply (Hrev ["1"] ["5"] [] [] 3%N 1%N true); [reflexivity|].
    constructor.
Defined.
